(** * Localization benchmark supervisor: a shallow embedding

    Embedding of [localization_benchmark_supervisor.py]
    (package [localization_performance_modelling_ros]).

    - Python floats are IEEE binary64 numbers: Rocq's primitive floats.
    - Python dictionaries keep insertion order: association lists.
    - The node object ([self]) is a record; every effect on the outside
      world (files, the navigation action server, ROS shutdown, calls
      into networkx) is appended to an explicit trace of actions.
    - The callbacks of the subscribers and timers run on other threads:
      they are served, in the order the environment gives them, at the
      points where the main thread blocks. *)

From Stdlib Require Import String Ascii Decimal DecimalString DecimalNat.
From Stdlib Require Import Floats.PrimFloat.
From Stdlib Require Import Bool Arith Lia List Permutation.
Import ListNotations.


Local Open Scope string_scope.
Local Open Scope list_scope.
Local Open Scope nat_scope.

(* ================================================================= *)
(** ** Python dictionaries and sets over graph nodes *)

(** Graph nodes are the integer identifiers of the Voronoi vertices. *)
Definition node := nat.

(** [k in l] *)
Definition mem (k : node) (l : list node) : bool := existsb (Nat.eqb k) l.

(** [d.keys()] *)
Definition keys {V : Type} (d : list (node * V)) : list node := map fst d.

(** [d.get(k)] *)
Fixpoint dict_get {V : Type} (k : node) (d : list (node * V)) : option V :=
  match d with
  | [] => None
  | (k', v) :: d' => if Nat.eqb k k' then Some v else dict_get k d'
  end.

(** [d[k] = v]: an existing key keeps its place, a new key goes last. *)
Fixpoint dict_set {V : Type} (k : node) (v : V) (d : list (node * V))
  : list (node * V) :=
  match d with
  | [] => [(k, v)]
  | (k', v') :: d' =>
      if Nat.eqb k k' then (k, v) :: d' else (k', v') :: dict_set k v d'
  end.

(** [s.remove(k)] on a set kept as a duplicate-free list. *)
Definition set_remove (k : node) (s : list node) : list node :=
  filter (fun x => negb (Nat.eqb k x)) s.

(* ================================================================= *)
(** ** The networkx calls the planner makes

    networkx is a library outside the repository; these definitions
    model the calls of [start_run] on an undirected weighted graph. *)

Module nx.

(** [node_attr]: the ['vertex'] attribute, the position of the vertex.
    [edges]: (u, v, voronoi_path_distance). *)
Record Graph := {
  nodes : list (node * (float * float));
  edges : list (node * node * float)
}.

Definition node_ids (g : Graph) : list node := keys (nodes g).

Definition has_node (g : Graph) (v : node) : bool := mem v (node_ids g).

(** [G.adj[v].items()]: the neighbours of [v] with the edge weight, in
    edge order.  An edge is between two nodes of the graph. *)
Definition neighbors (g : Graph) (v : node) : list (node * float) :=
  flat_map
    (fun e : node * node * float =>
       let '(a, b, w) := e in
       if has_node g a && has_node g b then
         if Nat.eqb a v then [(b, w)]
         else if Nat.eqb b v then [(a, w)] else []
       else [])
    (edges g).

(** [G.remove_nodes_from(ns)]: the nodes and their incident edges go. *)
Definition remove_nodes_from (ns : list node) (g : Graph) : Graph :=
  {| nodes := filter (fun n => negb (mem (fst n) ns)) (nodes g);
     edges := filter (fun e : node * node * float =>
                        let '(a, b, _) := e in
                        negb (mem a ns) && negb (mem b ns))
                     (edges g) |}.

(** *** [_plain_bfs], level by level *)

(** One node of the current level: a node not seen yet is added to
    [seen] and its neighbours join the next level. *)
Definition bfs_visit (g : Graph) (acc : list node * list node) (v : node)
  : list node * list node :=
  if mem v (fst acc) then acc
  else (fst acc ++ [v], snd acc ++ keys (neighbors g v)).

Fixpoint bfs_levels (fuel : nat) (g : Graph)
         (seen thislevel : list node) : list node :=
  match fuel with
  | 0 => seen
  | S fuel' =>
      match thislevel with
      | [] => seen
      | _ :: _ =>
          let acc := fold_left (bfs_visit g) thislevel (seen, []) in
          bfs_levels fuel' g (fst acc) (snd acc)
      end
  end.

Definition plain_bfs (g : Graph) (source : node) : list node :=
  bfs_levels (S (S (length (nodes g)))) g [] [source].

(** [nx.node_connected_component(G, n)] *)
Definition node_connected_component (g : Graph) (n : node) : list node :=
  plain_bfs g n.

(** [nx.connected_components(G)]: one component per node not yet seen. *)
Fixpoint components_from (g : Graph) (vs seen : list node)
  : list (list node) :=
  match vs with
  | [] => []
  | v :: vs' =>
      if mem v seen then components_from g vs' seen
      else let c := plain_bfs g v in
           c :: components_from g vs' (seen ++ c)
  end.

Definition connected_components (g : Graph) : list (list node) :=
  components_from g (node_ids g) [].

(** *** Dijkstra from one source ([_dijkstra_multisource])

    [dist]: final distances, in the order the nodes are settled.
    [seen]: tentative distance of every discovered node, with the
    number of the push that set it (the heap orders its entries by
    distance, then by push number).
    [paths]: a shortest path to every discovered node, keyed in the
    order of discovery. *)
Record search := {
  dist : list (node * float);
  seen : list (node * (float * nat));
  paths : list (node * list node);
  pushes : nat
}.

(** The heap entry that is popped next: the least (distance, push
    number) among the discovered nodes that are not settled. *)
Definition entry_ltb (a b : node * (float * nat)) : bool :=
  PrimFloat.ltb (fst (snd a)) (fst (snd b))
  || (PrimFloat.eqb (fst (snd a)) (fst (snd b))
      && Nat.ltb (snd (snd a)) (snd (snd b))).

Fixpoint least_entry (best : node * (float * nat))
         (l : list (node * (float * nat))) : node * (float * nat) :=
  match l with
  | [] => best
  | e :: l' => least_entry (if entry_ltb e best then e else best) l'
  end.

Definition fringe (st : search) : list (node * (float * nat)) :=
  filter (fun e => negb (mem (fst e) (keys (dist st)))) (seen st).

Definition pop (st : search) : option (node * float) :=
  match fringe st with
  | [] => None
  | e :: l => let b := least_entry e l in Some (fst b, fst (snd b))
  end.

(** The body of [for u, e in G_succ[v].items()], [d] being [dist[v]]. *)
Definition relax (v : node) (d : float) (st : search) (ue : node * float)
  : search :=
  let u := fst ue in
  let vu_dist := PrimFloat.add d (snd ue) in
  if mem u (keys (dist st)) then st
  else
    let better :=
      match dict_get u (seen st) with
      | None => true
      | Some (seen_u, _) => PrimFloat.ltb vu_dist seen_u
      end in
    if better then
      {| dist := dist st;
         seen := dict_set u (vu_dist, pushes st) (seen st);
         paths := dict_set u
                    (match dict_get v (paths st) with
                     | Some p => p ++ [u]
                     | None => [u]
                     end)
                    (paths st);
         pushes := S (pushes st) |}
    else st.

(** One turn of [while fringe]: [v] is settled at distance [d] and its
    edges are relaxed. *)
Definition settle (g : Graph) (st : search) (v : node) (d : float)
  : search :=
  fold_left (relax v d) (neighbors g v)
            {| dist := dist st ++ [(v, d)];
               seen := seen st;
               paths := paths st;
               pushes := pushes st |}.

Fixpoint dijkstra_loop (fuel : nat) (g : Graph) (st : search) : search :=
  match fuel with
  | 0 => st
  | S fuel' =>
      match pop st with
      | None => st
      | Some (v, d) => dijkstra_loop fuel' g (settle g st v d)
      end
  end.

Definition dijkstra (g : Graph) (source : node) : search :=
  dijkstra_loop (S (length (nodes g))) g
    {| dist := [];
       seen := [(source, (0%float, 0))];
       paths := [(source, [source])];
       pushes := 1 |}.

(** [nx.all_pairs_dijkstra_path(G, weight=...)] *)
Definition all_pairs_dijkstra_path (g : Graph)
  : list (node * list (node * list node)) :=
  map (fun n => (n, paths (dijkstra g n))) (node_ids g).

(** [nx.all_pairs_dijkstra_path_length(G, weight=...)] *)
Definition all_pairs_dijkstra_path_length (g : Graph)
  : list (node * list (node * float)) :=
  map (fun n => (n, dist (dijkstra g n))) (node_ids g).

End nx.

(* ================================================================= *)
(** ** ROS messages (the fields the supervisor reads) *)

Record Point := { x : float; y : float }.

Record Quaternion := { q_x : float; q_y : float; q_z : float; q_w : float }.

(** [geometry_msgs/Pose] *)
Record Pose := { position : Point; orientation : Quaternion }.

(** [std_msgs/Header]; [stamp] is [header.stamp.to_sec()]. *)
Record Header := { stamp : float; frame_id : string }.

(** [sensor_msgs/LaserScan] *)
Record LaserScan := {
  scan_header : Header;
  angle_min : float;
  angle_max : float;
  angle_increment : float;
  range_min : float;
  range_max : float;
  ranges : list float
}.

(** [geometry_msgs/PoseArray] *)
Record PoseArray := { particles_header : Header; poses : list Pose }.

(** [geometry_msgs/PoseWithCovarianceStamped]; [covariance] is the
    row-major 6x6 matrix [pose.covariance]. *)
Record PoseWithCovarianceStamped := {
  correction_header : Header;
  correction_pose : Pose;
  covariance : list float
}.

(** [nav_msgs/Odometry]: [pose.pose] and the planar part of
    [twist.twist]. *)
Record Odometry := {
  odometry_header : Header;
  odometry_pose : Pose;
  linear_x : float;
  linear_y : float;
  angular_z : float
}.

(** [geometry_msgs/TransformStamped] *)
Record TransformStamped := {
  transform_header : Header;
  translation : Point;
  rotation : Quaternion
}.

(** [move_base_msgs/MoveBaseGoal]: [target_pose.header.frame_id] and
    [target_pose.pose]. *)
Record MoveBaseGoal := { target_frame_id : string; target_pose : Pose }.

(** [actionlib_msgs/GoalStatus] *)
Inductive GoalStatus :=
| PENDING | ACTIVE | PREEMPTED | SUCCEEDED | ABORTED
| REJECTED | PREEMPTING | RECALLING | RECALLED | LOST.

Definition is_succeeded (s : GoalStatus) : bool :=
  match s with SUCCEEDED => true | _ => false end.

(* ================================================================= *)
(** ** Python values and library functions left abstract *)

(** Exceptions; [KeyboardInterrupt] stands also for
    [rospy.ROSInterruptException], which derives from it. *)
Inductive exn :=
| KeyboardInterrupt
| RunFailException (msg : string)
| AttributeError (msg : string)
| TypeError (msg : string)
| ValueError (msg : string)
| KeyError (msg : string)
| OverflowError (msg : string)
| PicklingError (msg : string)
| IOError (msg : string)
| OtherException (msg : string).

(** [except TypeError] *)
Definition is_type_error (e : exn) : bool :=
  match e with TypeError _ => true | _ => false end.

(** The value of one field of [psutil.Process.as_dict()]: what matters
    is what [pickle] does with it.  [Unpicklable e]: [pickle] raises
    [e] when it reaches the value ([TypeError] for an object that
    cannot be reduced, [PicklingError] for one that cannot be found
    by its name). *)
Inductive PyValue :=
| Picklable (repr : string)
| Unpicklable (e : exn).

Definition ProcessDict := list (string * PyValue).

(** What the libraries around the supervisor decide, and the functions
    of the Python runtime and of pyquaternion that have no counterpart
    on primitive floats. *)
Class PyRuntime := {
  (** whether the coordinates of a vertex of the Voronoi graph are
      numpy [float64] scalars ([true]) or Python floats ([false]):
      the difference of a goal coordinate and a ground truth
      coordinate, which is a Python float, is then of the same kind *)
  numpy_coordinates : bool;
  (** [str(v)] *)
  float_str : float -> string;
  (** [pyquaternion.Quaternion(x=, y=, z=, w=).yaw_pitch_roll[0]] *)
  yaw : Quaternion -> float
}.

(** How a call ends.  [Hangs]: the call blocks for ever.
    [OutOfFuel]: the bound of the model on the number of loop
    iterations was reached. *)
Inductive outcome :=
| Returned
| Raised (e : exn)
| Hangs
| OutOfFuel.

(* ================================================================= *)
(** ** Data frames and the trace of actions *)

(** A pandas data frame: the column names and the rows appended. *)
Record DataFrame := { columns : list string; rows : list (list float) }.

Definition df_append (row : list float) (df : DataFrame) : DataFrame :=
  {| columns := columns df; rows := rows df ++ [row] |}.

(** What the supervisor does to the outside world, in order. *)
Inductive Action :=
(** [write_event]: one row of [run_events.csv] (the time stamp of the
    row is the ROS clock and is left out) *)
| Event (event : string)
(** [open(path, 'w')] and one [write] *)
| WriteFile (path : string) (text : string)
(** [open(path, 'a')] and one [write] *)
| AppendLine (path : string) (line : string)
(** [df.to_csv(path, index=False)] *)
| ToCsv (path : string) (df : DataFrame)
(** [open(path, 'wb')] and [pickle.dump(data, file)]; [None]: the dump
    raised and the file is left incomplete *)
| PickleDump (path : string) (data : option (list ProcessDict))
(** [navigate_to_pose_action_client.send_goal] *)
| SendGoal (goal : MoveBaseGoal)
(** [traversal_path_publisher.publish] *)
| PublishPath (frame : string) (path_poses : list Pose)
(** [rospy.signal_shutdown] *)
| SignalShutdown (reason : string)
(** [nx.all_pairs_dijkstra_path] and [_path_length] run over [g] *)
| AllPairsDijkstra (g : nx.Graph)
(** [nx.connected_components] run over [g] *)
| ConnectedComponents (g : nx.Graph)
(** [voronoi_graph.remove_nodes_from] *)
| RemoveNodesFrom (component : list node)
(** [nx.node_connected_component] run over [g] *)
| NodeConnectedComponent (g : nx.Graph) (n : node).

(* ================================================================= *)
(** ** The node object *)

(** The parameters and paths fixed by [__init__]. *)
Record Config := {
  fixed_frame : string;
  robot_base_frame : string;
  robot_radius : float;
  run_output_folder : string;
  waypoint_timeout : float;
  goal_tolerance : float;
  (** [psutil.Process(pid_father).children(recursive=True)] *)
  ps_processes : list nat
}.

Record Supervisor := {
  cfg : Config;
  (* run variables *)
  run_started : bool;
  terminate : bool;
  ps_snapshot_count : nat;
  received_first_scan : bool;
  latest_ground_truth_pose_msg : option Odometry;
  initial_pose : option Pose;
  traversal_path_poses : option (list Pose);
  current_goal : option MoveBaseGoal;
  num_goals : option nat;
  goal_sent_count : nat;
  goal_succeeded_count : nat;
  goal_failed_count : nat;
  goal_rejected_count : nat;
  (* pandas dataframes for benchmark data *)
  estimated_poses_df : DataFrame;
  estimated_correction_poses_df : DataFrame;
  ground_truth_poses_df : DataFrame;
  (* the outside world *)
  is_shutdown : bool;
  trace : list Action
}.

(** [self.f = v], one definition per field that is assigned. *)
Definition set_run_started (v : bool) (s : Supervisor)
  : Supervisor :=
  {| cfg := cfg s; run_started := v; terminate := terminate s;
     ps_snapshot_count := ps_snapshot_count s;
     received_first_scan := received_first_scan s;
     latest_ground_truth_pose_msg := latest_ground_truth_pose_msg s;
     initial_pose := initial_pose s;
     traversal_path_poses := traversal_path_poses s;
     current_goal := current_goal s; num_goals := num_goals s;
     goal_sent_count := goal_sent_count s;
     goal_succeeded_count := goal_succeeded_count s;
     goal_failed_count := goal_failed_count s;
     goal_rejected_count := goal_rejected_count s;
     estimated_poses_df := estimated_poses_df s;
     estimated_correction_poses_df := estimated_correction_poses_df s;
     ground_truth_poses_df := ground_truth_poses_df s;
     is_shutdown := is_shutdown s; trace := trace s |}.

Definition set_ps_snapshot_count (v : nat) (s : Supervisor)
  : Supervisor :=
  {| cfg := cfg s; run_started := run_started s; terminate := terminate s;
     ps_snapshot_count := v; received_first_scan := received_first_scan s;
     latest_ground_truth_pose_msg := latest_ground_truth_pose_msg s;
     initial_pose := initial_pose s;
     traversal_path_poses := traversal_path_poses s;
     current_goal := current_goal s; num_goals := num_goals s;
     goal_sent_count := goal_sent_count s;
     goal_succeeded_count := goal_succeeded_count s;
     goal_failed_count := goal_failed_count s;
     goal_rejected_count := goal_rejected_count s;
     estimated_poses_df := estimated_poses_df s;
     estimated_correction_poses_df := estimated_correction_poses_df s;
     ground_truth_poses_df := ground_truth_poses_df s;
     is_shutdown := is_shutdown s; trace := trace s |}.

Definition set_received_first_scan (v : bool) (s : Supervisor)
  : Supervisor :=
  {| cfg := cfg s; run_started := run_started s; terminate := terminate s;
     ps_snapshot_count := ps_snapshot_count s; received_first_scan := v;
     latest_ground_truth_pose_msg := latest_ground_truth_pose_msg s;
     initial_pose := initial_pose s;
     traversal_path_poses := traversal_path_poses s;
     current_goal := current_goal s; num_goals := num_goals s;
     goal_sent_count := goal_sent_count s;
     goal_succeeded_count := goal_succeeded_count s;
     goal_failed_count := goal_failed_count s;
     goal_rejected_count := goal_rejected_count s;
     estimated_poses_df := estimated_poses_df s;
     estimated_correction_poses_df := estimated_correction_poses_df s;
     ground_truth_poses_df := ground_truth_poses_df s;
     is_shutdown := is_shutdown s; trace := trace s |}.

Definition set_latest_ground_truth_pose_msg (v : option Odometry) (s : Supervisor)
  : Supervisor :=
  {| cfg := cfg s; run_started := run_started s; terminate := terminate s;
     ps_snapshot_count := ps_snapshot_count s;
     received_first_scan := received_first_scan s;
     latest_ground_truth_pose_msg := v; initial_pose := initial_pose s;
     traversal_path_poses := traversal_path_poses s;
     current_goal := current_goal s; num_goals := num_goals s;
     goal_sent_count := goal_sent_count s;
     goal_succeeded_count := goal_succeeded_count s;
     goal_failed_count := goal_failed_count s;
     goal_rejected_count := goal_rejected_count s;
     estimated_poses_df := estimated_poses_df s;
     estimated_correction_poses_df := estimated_correction_poses_df s;
     ground_truth_poses_df := ground_truth_poses_df s;
     is_shutdown := is_shutdown s; trace := trace s |}.

Definition set_traversal_path_poses (v : option (list Pose)) (s : Supervisor)
  : Supervisor :=
  {| cfg := cfg s; run_started := run_started s; terminate := terminate s;
     ps_snapshot_count := ps_snapshot_count s;
     received_first_scan := received_first_scan s;
     latest_ground_truth_pose_msg := latest_ground_truth_pose_msg s;
     initial_pose := initial_pose s; traversal_path_poses := v;
     current_goal := current_goal s; num_goals := num_goals s;
     goal_sent_count := goal_sent_count s;
     goal_succeeded_count := goal_succeeded_count s;
     goal_failed_count := goal_failed_count s;
     goal_rejected_count := goal_rejected_count s;
     estimated_poses_df := estimated_poses_df s;
     estimated_correction_poses_df := estimated_correction_poses_df s;
     ground_truth_poses_df := ground_truth_poses_df s;
     is_shutdown := is_shutdown s; trace := trace s |}.

Definition set_current_goal (v : option MoveBaseGoal) (s : Supervisor)
  : Supervisor :=
  {| cfg := cfg s; run_started := run_started s; terminate := terminate s;
     ps_snapshot_count := ps_snapshot_count s;
     received_first_scan := received_first_scan s;
     latest_ground_truth_pose_msg := latest_ground_truth_pose_msg s;
     initial_pose := initial_pose s;
     traversal_path_poses := traversal_path_poses s; current_goal := v;
     num_goals := num_goals s; goal_sent_count := goal_sent_count s;
     goal_succeeded_count := goal_succeeded_count s;
     goal_failed_count := goal_failed_count s;
     goal_rejected_count := goal_rejected_count s;
     estimated_poses_df := estimated_poses_df s;
     estimated_correction_poses_df := estimated_correction_poses_df s;
     ground_truth_poses_df := ground_truth_poses_df s;
     is_shutdown := is_shutdown s; trace := trace s |}.

Definition set_num_goals (v : option nat) (s : Supervisor)
  : Supervisor :=
  {| cfg := cfg s; run_started := run_started s; terminate := terminate s;
     ps_snapshot_count := ps_snapshot_count s;
     received_first_scan := received_first_scan s;
     latest_ground_truth_pose_msg := latest_ground_truth_pose_msg s;
     initial_pose := initial_pose s;
     traversal_path_poses := traversal_path_poses s;
     current_goal := current_goal s; num_goals := v;
     goal_sent_count := goal_sent_count s;
     goal_succeeded_count := goal_succeeded_count s;
     goal_failed_count := goal_failed_count s;
     goal_rejected_count := goal_rejected_count s;
     estimated_poses_df := estimated_poses_df s;
     estimated_correction_poses_df := estimated_correction_poses_df s;
     ground_truth_poses_df := ground_truth_poses_df s;
     is_shutdown := is_shutdown s; trace := trace s |}.

Definition set_goal_sent_count (v : nat) (s : Supervisor)
  : Supervisor :=
  {| cfg := cfg s; run_started := run_started s; terminate := terminate s;
     ps_snapshot_count := ps_snapshot_count s;
     received_first_scan := received_first_scan s;
     latest_ground_truth_pose_msg := latest_ground_truth_pose_msg s;
     initial_pose := initial_pose s;
     traversal_path_poses := traversal_path_poses s;
     current_goal := current_goal s; num_goals := num_goals s;
     goal_sent_count := v; goal_succeeded_count := goal_succeeded_count s;
     goal_failed_count := goal_failed_count s;
     goal_rejected_count := goal_rejected_count s;
     estimated_poses_df := estimated_poses_df s;
     estimated_correction_poses_df := estimated_correction_poses_df s;
     ground_truth_poses_df := ground_truth_poses_df s;
     is_shutdown := is_shutdown s; trace := trace s |}.

Definition set_goal_succeeded_count (v : nat) (s : Supervisor)
  : Supervisor :=
  {| cfg := cfg s; run_started := run_started s; terminate := terminate s;
     ps_snapshot_count := ps_snapshot_count s;
     received_first_scan := received_first_scan s;
     latest_ground_truth_pose_msg := latest_ground_truth_pose_msg s;
     initial_pose := initial_pose s;
     traversal_path_poses := traversal_path_poses s;
     current_goal := current_goal s; num_goals := num_goals s;
     goal_sent_count := goal_sent_count s; goal_succeeded_count := v;
     goal_failed_count := goal_failed_count s;
     goal_rejected_count := goal_rejected_count s;
     estimated_poses_df := estimated_poses_df s;
     estimated_correction_poses_df := estimated_correction_poses_df s;
     ground_truth_poses_df := ground_truth_poses_df s;
     is_shutdown := is_shutdown s; trace := trace s |}.

Definition set_goal_failed_count (v : nat) (s : Supervisor)
  : Supervisor :=
  {| cfg := cfg s; run_started := run_started s; terminate := terminate s;
     ps_snapshot_count := ps_snapshot_count s;
     received_first_scan := received_first_scan s;
     latest_ground_truth_pose_msg := latest_ground_truth_pose_msg s;
     initial_pose := initial_pose s;
     traversal_path_poses := traversal_path_poses s;
     current_goal := current_goal s; num_goals := num_goals s;
     goal_sent_count := goal_sent_count s;
     goal_succeeded_count := goal_succeeded_count s;
     goal_failed_count := v; goal_rejected_count := goal_rejected_count s;
     estimated_poses_df := estimated_poses_df s;
     estimated_correction_poses_df := estimated_correction_poses_df s;
     ground_truth_poses_df := ground_truth_poses_df s;
     is_shutdown := is_shutdown s; trace := trace s |}.

Definition set_estimated_poses_df (v : DataFrame) (s : Supervisor)
  : Supervisor :=
  {| cfg := cfg s; run_started := run_started s; terminate := terminate s;
     ps_snapshot_count := ps_snapshot_count s;
     received_first_scan := received_first_scan s;
     latest_ground_truth_pose_msg := latest_ground_truth_pose_msg s;
     initial_pose := initial_pose s;
     traversal_path_poses := traversal_path_poses s;
     current_goal := current_goal s; num_goals := num_goals s;
     goal_sent_count := goal_sent_count s;
     goal_succeeded_count := goal_succeeded_count s;
     goal_failed_count := goal_failed_count s;
     goal_rejected_count := goal_rejected_count s; estimated_poses_df := v;
     estimated_correction_poses_df := estimated_correction_poses_df s;
     ground_truth_poses_df := ground_truth_poses_df s;
     is_shutdown := is_shutdown s; trace := trace s |}.

Definition set_estimated_correction_poses_df (v : DataFrame) (s : Supervisor)
  : Supervisor :=
  {| cfg := cfg s; run_started := run_started s; terminate := terminate s;
     ps_snapshot_count := ps_snapshot_count s;
     received_first_scan := received_first_scan s;
     latest_ground_truth_pose_msg := latest_ground_truth_pose_msg s;
     initial_pose := initial_pose s;
     traversal_path_poses := traversal_path_poses s;
     current_goal := current_goal s; num_goals := num_goals s;
     goal_sent_count := goal_sent_count s;
     goal_succeeded_count := goal_succeeded_count s;
     goal_failed_count := goal_failed_count s;
     goal_rejected_count := goal_rejected_count s;
     estimated_poses_df := estimated_poses_df s;
     estimated_correction_poses_df := v;
     ground_truth_poses_df := ground_truth_poses_df s;
     is_shutdown := is_shutdown s; trace := trace s |}.

Definition set_ground_truth_poses_df (v : DataFrame) (s : Supervisor)
  : Supervisor :=
  {| cfg := cfg s; run_started := run_started s; terminate := terminate s;
     ps_snapshot_count := ps_snapshot_count s;
     received_first_scan := received_first_scan s;
     latest_ground_truth_pose_msg := latest_ground_truth_pose_msg s;
     initial_pose := initial_pose s;
     traversal_path_poses := traversal_path_poses s;
     current_goal := current_goal s; num_goals := num_goals s;
     goal_sent_count := goal_sent_count s;
     goal_succeeded_count := goal_succeeded_count s;
     goal_failed_count := goal_failed_count s;
     goal_rejected_count := goal_rejected_count s;
     estimated_poses_df := estimated_poses_df s;
     estimated_correction_poses_df := estimated_correction_poses_df s;
     ground_truth_poses_df := v; is_shutdown := is_shutdown s;
     trace := trace s |}.

Definition set_is_shutdown (v : bool) (s : Supervisor)
  : Supervisor :=
  {| cfg := cfg s; run_started := run_started s; terminate := terminate s;
     ps_snapshot_count := ps_snapshot_count s;
     received_first_scan := received_first_scan s;
     latest_ground_truth_pose_msg := latest_ground_truth_pose_msg s;
     initial_pose := initial_pose s;
     traversal_path_poses := traversal_path_poses s;
     current_goal := current_goal s; num_goals := num_goals s;
     goal_sent_count := goal_sent_count s;
     goal_succeeded_count := goal_succeeded_count s;
     goal_failed_count := goal_failed_count s;
     goal_rejected_count := goal_rejected_count s;
     estimated_poses_df := estimated_poses_df s;
     estimated_correction_poses_df := estimated_correction_poses_df s;
     ground_truth_poses_df := ground_truth_poses_df s; is_shutdown := v;
     trace := trace s |}.

(** One more action at the end of the trace. *)
Definition act (a : Action) (s : Supervisor) : Supervisor :=
  {| cfg := cfg s; run_started := run_started s; terminate := terminate s;
     ps_snapshot_count := ps_snapshot_count s;
     received_first_scan := received_first_scan s;
     latest_ground_truth_pose_msg := latest_ground_truth_pose_msg s;
     initial_pose := initial_pose s;
     traversal_path_poses := traversal_path_poses s;
     current_goal := current_goal s; num_goals := num_goals s;
     goal_sent_count := goal_sent_count s;
     goal_succeeded_count := goal_succeeded_count s;
     goal_failed_count := goal_failed_count s;
     goal_rejected_count := goal_rejected_count s;
     estimated_poses_df := estimated_poses_df s;
     estimated_correction_poses_df := estimated_correction_poses_df s;
     ground_truth_poses_df := ground_truth_poses_df s;
     is_shutdown := is_shutdown s; trace := trace s ++ [a] |}.

(** A call that may raise: the state is kept in both cases. *)
Inductive attempt (A : Type) :=
| Fail (e : exn) (s : Supervisor)
| Go (a : A) (s : Supervisor).
Arguments Fail {A} e s.
Arguments Go {A} a s.

(** The node as a call leaves it, by a return or by an exception. *)
Definition state_after {A : Type} (r : attempt A) : Supervisor :=
  match r with Fail _ s => s | Go _ s => s end.

(* ================================================================= *)
(** ** Strings, paths and number formatting *)

(** The line feed character. *)
Definition newline : string := String (ascii_of_nat 10) EmptyString.

(** [str(n)] for a non-negative integer. *)
Definition nat_str (n : nat) : string :=
  NilEmpty.string_of_uint (Nat.to_uint n).

Fixpoint zeros (n : nat) : string :=
  match n with
  | 0 => EmptyString
  | S n' => String "0" (zeros n')
  end.

(** ["{i:08d}".format(i=n)]: at least eight digits, zero padded. *)
Definition format_08d (n : nat) : string :=
  let digits := nat_str n in
  zeros (8 - String.length digits) ++ digits.

(** The number a string of decimal digits stands for. *)
Definition read_nat (s : string) : option nat :=
  option_map Nat.of_uint (NilEmpty.uint_of_string s).

Fixpoint last_char (s : string) : option ascii :=
  match s with
  | EmptyString => None
  | String c EmptyString => Some c
  | String _ s' => last_char s'
  end.

(** [os.path.join(a, b)] *)
Definition path_join (a b : string) : string :=
  match b with
  | String "/" _ => b
  | _ =>
      match last_char a with
      | None => b
      | Some "/"%char => a ++ b
      | Some _ => a ++ "/" ++ b
      end
  end.

Definition benchmark_data_folder (c : Config) : string :=
  path_join (run_output_folder c) "benchmark_data".
Definition ps_output_folder (c : Config) : string :=
  path_join (benchmark_data_folder c) "ps_snapshots".
Definition estimated_poses_file_path (c : Config) : string :=
  path_join (benchmark_data_folder c) "estimated_poses.csv".
Definition estimated_correction_poses_file_path (c : Config) : string :=
  path_join (benchmark_data_folder c) "estimated_correction_poses.csv".
Definition ground_truth_poses_file_path (c : Config) : string :=
  path_join (benchmark_data_folder c) "ground_truth_poses.csv".
Definition scans_file_path (c : Config) : string :=
  path_join (benchmark_data_folder c) "scans.csv".
Definition amcl_particles_file_path (c : Config) : string :=
  path_join (benchmark_data_folder c) "amcl_particles.csv".
Definition run_events_file_path (c : Config) : string :=
  path_join (benchmark_data_folder c) "run_events.csv".

(** [del d[k]] on a dictionary with string keys; [None]: [KeyError]. *)
Fixpoint dict_del (k : string) (d : ProcessDict) : option ProcessDict :=
  match d with
  | [] => None
  | (k', v) :: d' =>
      if String.eqb k k' then Some d'
      else match dict_del k d' with
           | Some r => Some ((k', v) :: r)
           | None => None
           end
  end.

(** The exception of the first value that cannot be serialized. *)
Fixpoint first_error (l : list PyValue) : option exn :=
  match l with
  | [] => None
  | Picklable _ :: l' => first_error l'
  | Unpicklable e :: _ => Some e
  end.

(** [pickle.dump(l, file)]: the dictionaries are serialized in the
    order of the list, and the values of each in its own order; the
    first value that cannot be serialized raises its exception. *)
Definition pickle_dump (l : list ProcessDict) : exn + list ProcessDict :=
  match first_error (map snd (concat l)) with
  | Some e => inl e
  | None => inr l
  end.

(* ================================================================= *)
(** ** The supervisor's methods reached from callbacks *)

(** [write_event] (the file is assumed writable: an [IOError] is
    caught and logged, and the row is then lost). *)
Definition write_event (event : string) (s : Supervisor) : Supervisor :=
  act (Event event) s.

(** [rospy.signal_shutdown(reason)] *)
Definition signal_shutdown (reason : string) (s : Supervisor) : Supervisor :=
  set_is_shutdown true (act (SignalShutdown reason) s).

Definition ros_shutdown_callback (s : Supervisor) : Supervisor :=
  write_event "supervisor_finished" (write_event "ros_shutdown" s).

Definition end_run (s : Supervisor) : Supervisor :=
  let s := act (ToCsv (estimated_poses_file_path (cfg s))
                      (estimated_poses_df s)) s in
  let s := act (ToCsv (estimated_correction_poses_file_path (cfg s))
                      (estimated_correction_poses_df s)) s in
  act (ToCsv (ground_truth_poses_file_path (cfg s))
             (ground_truth_poses_df s)) s.

Definition run_timeout_callback (s : Supervisor) : Supervisor :=
  let s := write_event "run_timeout" s in
  let s := write_event "supervisor_finished" s in
  signal_shutdown "run_timeout" s.

(** The snapshot of one tracked process: [None] when [as_dict] raised
    [NoSuchProcess] or one of the three keys is missing. *)
Definition process_snapshot (as_dict : nat -> option ProcessDict) (pid : nat)
  : option ProcessDict :=
  match as_dict pid with
  | None => None
  | Some process_copy =>
      match dict_del "connections" process_copy with
      | None => None
      | Some d1 =>
          match dict_del "memory_maps" d1 with
          | None => None
          | Some d2 => dict_del "environ" d2
          end
      end
  end.

Definition processes_dicts_list (as_dict : nat -> option ProcessDict)
           (ps : list nat) : list ProcessDict :=
  flat_map (fun pid => match process_snapshot as_dict pid with
                       | Some d => [d]
                       | None => []
                       end) ps.

Definition ps_snapshot_file_path (s : Supervisor) : string :=
  path_join (ps_output_folder (cfg s))
            ("ps_" ++ format_08d (ps_snapshot_count s) ++ ".pkl").

(** Lines 414 and 415: the file is opened and the list is dumped.
    [open_error]: the exception [open] raises, if any; the file is
    then not created. *)
Definition dump_snapshot (open_error : option exn) (l : list ProcessDict)
           (s : Supervisor) : attempt unit :=
  match open_error with
  | Some e => Fail e s
  | None =>
      match pickle_dump l with
      | inl e => Fail e (act (PickleDump (ps_snapshot_file_path s) None) s)
      | inr data =>
          Go tt (act (PickleDump (ps_snapshot_file_path s) (Some data)) s)
      end
  end.

(** [as_dict pid]: what [process.as_dict()] gives at this tick,
    [None] when the process has exited.  Only a [TypeError] is
    caught; any other exception leaves the callback before the
    counter is incremented. *)
Definition ps_snapshot_timer_callback (as_dict : nat -> option ProcessDict)
           (open_error : option exn) (s : Supervisor) : attempt unit :=
  let l := processes_dicts_list as_dict (ps_processes (cfg s)) in
  match dump_snapshot open_error l s with
  | Fail e s =>
      if is_type_error e
      then Go tt (set_ps_snapshot_count (ps_snapshot_count s + 1) s)
      else Fail e s
  | Go _ s => Go tt (set_ps_snapshot_count (ps_snapshot_count s + 1) s)
  end.

Section Recorders.

Context {rt : PyRuntime}.

Definition scan_callback (laser_scan_msg : LaserScan) (s : Supervisor)
  : Supervisor :=
  let s := set_received_first_scan true s in
  if negb (run_started s) then s
  else
    act (AppendLine (scans_file_path (cfg s))
           (float_str (stamp (scan_header laser_scan_msg)) ++ ", "
            ++ float_str (angle_min laser_scan_msg) ++ ", "
            ++ float_str (angle_max laser_scan_msg) ++ ", "
            ++ float_str (angle_increment laser_scan_msg) ++ ", "
            ++ float_str (range_min laser_scan_msg) ++ ", "
            ++ float_str (range_max laser_scan_msg) ++ ", "
            ++ String.concat ", " (map float_str (ranges laser_scan_msg))
            ++ newline)) s.

(** One turn of [for particle_pose in pose_array_msg.poses]. *)
Definition add_particle (poses_str : string) (particle_pose : Pose)
  : string :=
  let x_ := x (position particle_pose) in
  let y_ := y (position particle_pose) in
  let theta := yaw (orientation particle_pose) in
  poses_str ++ String.concat ", " (map float_str [x_; y_; theta]).

Definition amcl_particles_line (pose_array_msg : PoseArray) : string :=
  let poses_str := fold_left add_particle (poses pose_array_msg) "" in
  float_str (stamp (particles_header pose_array_msg)) ++ ", "
  ++ frame_id (particles_header pose_array_msg) ++ ", "
  ++ nat_str (List.length (poses pose_array_msg)) ++ ", "
  ++ poses_str ++ newline.

Definition amcl_particles_callback (pose_array_msg : PoseArray)
           (s : Supervisor) : Supervisor :=
  if negb (run_started s) then s
  else act (AppendLine (amcl_particles_file_path (cfg s))
                       (amcl_particles_line pose_array_msg)) s.

(** [lookup]: the result of [tf_buffer.lookup_transform], [None] when
    it raises. *)
Definition write_estimated_pose_timer_callback
           (lookup : option TransformStamped) (s : Supervisor)
  : Supervisor :=
  if negb (run_started s) then s
  else
    match lookup with
    | None => s
    | Some transform_msg =>
        set_estimated_poses_df
          (df_append [stamp (transform_header transform_msg);
                      x (translation transform_msg);
                      y (translation transform_msg);
                      yaw (rotation transform_msg)]
                     (estimated_poses_df s)) s
    end.

(** [np.array(covariance).reshape(6, 6)[i, j]] *)
Definition covariance_mat (cov : list float) (i j : nat) : float :=
  nth (6 * i + j) cov 0%float.

Definition estimated_pose_correction_callback
           (msg : PoseWithCovarianceStamped) (s : Supervisor) : Supervisor :=
  if negb (run_started s) then s
  else if negb (List.length (covariance msg) =? 36) then s
  else
    set_estimated_correction_poses_df
      (df_append [stamp (correction_header msg);
                  x (position (correction_pose msg));
                  y (position (correction_pose msg));
                  yaw (orientation (correction_pose msg));
                  covariance_mat (covariance msg) 0 0;
                  covariance_mat (covariance msg) 0 1;
                  covariance_mat (covariance msg) 1 1;
                  covariance_mat (covariance msg) 5 5]
                 (estimated_correction_poses_df s)) s.

Definition ground_truth_pose_callback (odometry_msg : Odometry)
           (s : Supervisor) : Supervisor :=
  let s := set_latest_ground_truth_pose_msg (Some odometry_msg) s in
  if negb (run_started s) then s
  else
    set_ground_truth_poses_df
      (df_append [stamp (odometry_header odometry_msg);
                  x (position (odometry_pose odometry_msg));
                  y (position (odometry_pose odometry_msg));
                  yaw (orientation (odometry_pose odometry_msg));
                  linear_x odometry_msg;
                  linear_y odometry_msg;
                  angular_z odometry_msg]
                 (ground_truth_poses_df s)) s.

(** What the other threads do: a message on a subscribed topic, a
    timer tick, or a shutdown request handled by rospy itself.  An
    exception that leaves a callback ends in the thread that called
    it, and the main thread finds the node as the callback left it. *)
Inductive Callback :=
| OnScan (msg : LaserScan)
| OnAmclParticles (msg : PoseArray)
| OnEstimatedPoseCorrection (msg : PoseWithCovarianceStamped)
| OnGroundTruthPose (msg : Odometry)
| OnRunTimeout
| OnPsSnapshotTimer (as_dict : nat -> option ProcessDict)
                    (open_error : option exn)
| OnWriteEstimatedPoseTimer (lookup : option TransformStamped)
| OnShutdownRequest.

Definition serve (s : Supervisor) (cb : Callback) : Supervisor :=
  match cb with
  | OnScan msg => scan_callback msg s
  | OnAmclParticles msg => amcl_particles_callback msg s
  | OnEstimatedPoseCorrection msg => estimated_pose_correction_callback msg s
  | OnGroundTruthPose msg => ground_truth_pose_callback msg s
  | OnRunTimeout => run_timeout_callback s
  | OnPsSnapshotTimer as_dict open_error =>
      state_after (ps_snapshot_timer_callback as_dict open_error s)
  | OnWriteEstimatedPoseTimer lookup =>
      write_estimated_pose_timer_callback lookup s
  | OnShutdownRequest => set_is_shutdown true s
  end.

Definition serve_all (cbs : list Callback) (s : Supervisor) : Supervisor :=
  fold_left serve cbs s.

End Recorders.

(* ================================================================= *)
(** ** The environment of one run *)

(** What the outside world does during one turn of the goal loop. *)
Record Iteration := {
  (** callbacks served while [wait_for_server] blocks *)
  inbound_at_wait_for_server : list Callback;
  (** [wait_for_server(timeout=5s)] *)
  server_available : bool;
  (** callbacks served while [wait_for_result] blocks *)
  inbound_at_wait_for_result : list Callback;
  (** [KeyboardInterrupt] raised in the main thread during the wait *)
  interrupted : bool;
  (** [wait_for_result(timeout=waypoint_timeout)] *)
  result_in_time : bool;
  (** [get_state()] *)
  navigation_state : GoalStatus;
  (** callbacks served during [rospy.sleep(1.0)] *)
  inbound_at_sleep : list Callback;
  (** the sleep is interrupted ([ROSInterruptException] on a shutdown
      under simulated time, or [KeyboardInterrupt]) *)
  sleep_interrupted : bool
}.

Record Environment := {
  (** the exception [__init__] raises, if any *)
  construction : option exn;
  (** the parameters [__init__] reads *)
  parameters : Config;
  (** callbacks served during each half-second sleep of the wait for
      the first scan *)
  startup_polls : list (list Callback);
  (** once these polls are over with no scan and no shutdown:
      [KeyboardInterrupt] ([true]), or the wait goes on for ever *)
  startup_interrupted : bool;
  (** [ground_truth_map.deleaved_reduced_voronoi_graph(...)] *)
  voronoi_graph : nx.Graph;
  (** the draw of [random.choice] *)
  random_index : nat;
  (** the [k]-th orientation drawn from [np.random.uniform(-pi, pi)] *)
  random_orientation : nat -> Quaternion;
  iterations : nat -> Iteration;
  (** callbacks served during each sleep of [rospy.spin()] *)
  spin_polls : list (list Callback)
}.

(* ================================================================= *)
(** ** [start_run]: the planner *)

Definition Costs := list (node * list (node * float)).

(** [costs[i]] on a [defaultdict(dict)] *)
Definition costs_row (i : node) (costs : Costs) : list (node * float) :=
  match dict_get i costs with
  | Some row => row
  | None => []
  end.

(** One turn of the inner loop: [if i != j: costs[i][j] =
    minimum_length_costs[i][j]]; [None]: [KeyError]. *)
Definition costs_insert (minimum_length_costs : Costs) (i : node)
           (acc : option Costs) (j : node) : option Costs :=
  match acc with
  | None => None
  | Some costs =>
      if Nat.eqb i j then Some costs
      else
        match dict_get i minimum_length_costs with
        | None => None
        | Some lengths_i =>
            match dict_get j lengths_i with
            | None => None
            | Some c => Some (dict_set i (dict_set j c (costs_row i costs)) costs)
            end
        end
  end.

Definition build_costs
           (minimum_length_paths : list (node * list (node * list node)))
           (minimum_length_costs : Costs) : option Costs :=
  fold_left
    (fun acc (ip : node * list (node * list node)) =>
       fold_left (costs_insert minimum_length_costs (fst ip))
                 (keys (snd ip)) acc)
    minimum_length_paths (Some []).

Definition is_nan (v : float) : bool := negb (PrimFloat.eqb v v).

(** [np.argmin]: the first index of the least value; a NaN is least. *)
Fixpoint argmin_scan (best_i : nat) (best : float) (i : nat)
         (l : list float) : nat :=
  match l with
  | [] => best_i
  | c :: l' =>
      if PrimFloat.leb best c then argmin_scan best_i best (S i) l'
      else if is_nan c then i
           else argmin_scan i c (S i) l'
  end.

Definition argmin (l : list float) : nat :=
  match l with
  | [] => 0
  | c :: l' => if is_nan c then 0 else argmin_scan 0 c 1 l'
  end.

(** The loop [while len(nodes_queue)]. *)
Fixpoint greedy_loop (fuel : nat) (costs : Costs) (current_node : node)
         (nodes_queue : list node) (traversal_path_indices : list node)
  : option (exn + list node) :=
  match nodes_queue with
  | [] => Some (inr traversal_path_indices)
  | _ :: _ =>
      match fuel with
      | 0 => None
      | S fuel' =>
          let candidates :=
            filter (fun node_cost : node * float =>
                      mem (fst node_cost) nodes_queue)
                   (costs_row current_node costs) in
          match candidates with
          | [] => Some (inl (ValueError "not enough values to unpack"))
          | c :: _ =>
              let candidate_nodes := map fst candidates in
              let candidate_costs := map snd candidates in
              let next_node :=
                nth (argmin candidate_costs) candidate_nodes (fst c) in
              greedy_loop fuel' costs next_node
                          (set_remove next_node nodes_queue)
                          (traversal_path_indices ++ [next_node])
          end
      end
  end.

(** [random.choice(l)] with the draw [r]. *)
Definition random_choice (r : nat) (l : list node) : node :=
  nth (r mod List.length l) l 0.

(** The poses of the tour; [None]: a node without its ['vertex']. *)
Fixpoint tour_poses (g : nx.Graph) (orientations : nat -> Quaternion)
         (k : nat) (tour : list node) : option (list Pose) :=
  match tour with
  | [] => Some []
  | node_index :: tour' =>
      match dict_get node_index (nx.nodes g),
            tour_poses g orientations (S k) tour' with
      | Some vertex, Some rest =>
          Some ({| position := {| x := fst vertex; y := snd vertex |};
                   orientation := orientations k |} :: rest)
      | _, _ => None
      end
  end.

Definition too_small_components (g : nx.Graph) : list (list node) :=
  filter (fun component => List.length component <? 2)
         (nx.connected_components g).

Definition remove_component (s_g : Supervisor * nx.Graph)
           (graph_component : list node) : Supervisor * nx.Graph :=
  (act (RemoveNodesFrom graph_component) (fst s_g),
   nx.remove_nodes_from graph_component (snd s_g)).

(** The graph once the too small components are removed. *)
Definition pruned_graph (g : nx.Graph) : nx.Graph :=
  fold_left (fun g c => nx.remove_nodes_from c g) (too_small_components g) g.

(** Lines 166 to 195 of [start_run]: from the Voronoi graph to the
    pruned graph and the order in which its nodes are visited. *)
Definition traversal_path (env : Environment) (s : Supervisor)
  : attempt (nx.Graph * list node) :=
  let voronoi_graph0 := voronoi_graph env in
  let s := act (AllPairsDijkstra voronoi_graph0) s in
  let minimum_length_paths := nx.all_pairs_dijkstra_path voronoi_graph0 in
  let minimum_length_costs :=
    nx.all_pairs_dijkstra_path_length voronoi_graph0 in
  match build_costs minimum_length_paths minimum_length_costs with
  | None => Fail (KeyError "minimum_length_costs") s
  | Some costs =>
      let s := act (ConnectedComponents voronoi_graph0) s in
      let s_g := fold_left remove_component
                           (too_small_components voronoi_graph0)
                           (s, voronoi_graph0) in
      let s := fst s_g in
      let pruned := snd s_g in
      if List.length (nx.nodes pruned) <? 2 then
        Fail (RunFailException
                "insufficient number of nodes in deleaved_reduced_voronoi_graph, can not generate traversal path")
             (write_event
                "insufficient_number_of_nodes_in_deleaved_reduced_voronoi_graph"
                s)
      else
        let current_node :=
          random_choice (random_index env) (nx.node_ids pruned) in
        let s := act (NodeConnectedComponent pruned current_node) s in
        let nodes_queue := nx.node_connected_component pruned current_node in
        match greedy_loop (List.length nodes_queue) costs current_node
                          nodes_queue [] with
        | None => Fail (OtherException "bound of the greedy loop reached") s
        | Some (inl e) => Fail e s
        | Some (inr traversal_path_indices) =>
            Go (pruned, traversal_path_indices) s
        end
  end.

(** Lines 166 to 204: the queue of poses. *)
Definition plan (env : Environment) (s : Supervisor)
  : attempt (list Pose) :=
  match traversal_path env s with
  | Fail e s => Fail e s
  | Go (pruned, traversal_path_indices) s =>
      match tour_poses pruned (random_orientation env) 0
                       traversal_path_indices with
      | None => Fail (KeyError "vertex") s
      | Some l => Go l s
      end
  end.

(* ================================================================= *)
(** ** [start_run]: the goal loop *)

Section Run.

Context {rt : PyRuntime}.

(** The wait for the first scan: one poll per half second.
    [false]: no scan and no shutdown ever come. *)
Fixpoint wait_for_first_scan (polls : list (list Callback))
         (s : Supervisor) : bool * Supervisor :=
  if negb (received_first_scan s) && negb (is_shutdown s) then
    match polls with
    | [] => (false, s)
    | cbs :: polls' => wait_for_first_scan polls' (serve_all cbs s)
    end
  else (true, s).

(** Lines 224 to 242: the next pose leaves the queue and is sent. *)
Definition dispatch (it : Iteration) (s : Supervisor)
  : attempt MoveBaseGoal :=
  let s := serve_all (inbound_at_wait_for_server it) s in
  if negb (server_available it) then
    Fail (RunFailException "navigate_to_pose action server not available")
         (write_event "failed_to_communicate_with_navigation_node" s)
  else
    match traversal_path_poses s with
    | None => Fail (TypeError "object of type NoneType has no len()") s
    | Some [] =>
        Fail (RunFailException
                "insufficient number of poses in traversal path, can not send goal")
             (write_event "insufficient_number_of_poses_in_traversal_path" s)
    | Some (pose :: rest) =>
        let goal_msg := {| target_frame_id := fixed_frame (cfg s);
                           target_pose := pose |} in
        let s := set_traversal_path_poses (Some rest) s in
        let s := set_current_goal (Some goal_msg) s in
        let s := act (SendGoal goal_msg) s in
        let s := write_event "target_pose_set" s in
        let s := set_goal_sent_count (goal_sent_count s + 1) s in
        Go goal_msg s
    end.

(** Lines 244 to 247: the bounded wait for the result. *)
Definition await_result (it : Iteration) (s : Supervisor) : attempt unit :=
  let s := serve_all (inbound_at_wait_for_result it) s in
  if interrupted it then Fail KeyboardInterrupt s
  else if negb (result_in_time it) then
    Fail (RunFailException "waypoint_timeout")
         (write_event "supervisor_finished"
                      (write_event "waypoint_timeout" s))
  else Go tt s.

(** [v ** 2]: the square as the product of binary64 arithmetic (the
    power function of the C library, taken as correctly rounded).  The
    square of a Python float that is out of range raises
    [OverflowError] ([None]); that of a numpy [float64] is [inf]. *)
Definition float_sq (v : float) : option float :=
  let r := PrimFloat.mul v v in
  if negb numpy_coordinates && PrimFloat.is_infinity r
     && negb (PrimFloat.is_infinity v)
  then None
  else Some r.

(** Line 252; [None]: [OverflowError]. *)
Definition distance_from_goal (goal_position current_position : Point)
  : option float :=
  match float_sq (PrimFloat.sub (x goal_position) (x current_position)) with
  | None => None
  | Some sq_x =>
      match float_sq (PrimFloat.sub (y goal_position) (y current_position))
      with
      | None => None
      | Some sq_y => Some (PrimFloat.sqrt (PrimFloat.add sq_x sq_y))
      end
  end.

(** Lines 249 to 265: the goal is counted as succeeded or failed. *)
Definition classify (state : GoalStatus) (goal_msg : MoveBaseGoal)
           (s : Supervisor) : attempt unit :=
  if is_succeeded state then
    match latest_ground_truth_pose_msg s with
    | None =>
        Fail (AttributeError "NoneType object has no attribute pose") s
    | Some msg =>
        let goal_position := position (target_pose goal_msg) in
        let current_position := position (odometry_pose msg) in
        match distance_from_goal goal_position current_position with
        | None => Fail (OverflowError "(34, 'Numerical result out of range')") s
        | Some distance =>
            if PrimFloat.ltb distance (goal_tolerance (cfg s))
            then
              let s := write_event "target_pose_reached" s in
              let s :=
                set_goal_succeeded_count (goal_succeeded_count s + 1) s in
              Go tt (set_current_goal None s)
            else
              let s := write_event "target_pose_not_reached" s in
              let s := set_goal_failed_count (goal_failed_count s + 1) s in
              Go tt (set_current_goal None s)
        end
    end
  else
    let s := write_event "target_pose_not_reached" s in
    let s := set_goal_failed_count (goal_failed_count s + 1) s in
    Go tt (set_current_goal None s).

(** Lines 267 to 273.  [Some o]: the loop is left with [o]. *)
Definition next_or_complete (it : Iteration) (s : Supervisor)
  : option outcome * Supervisor :=
  match traversal_path_poses s with
  | Some [] =>
      (Some Returned,
       signal_shutdown "run_completed" (write_event "run_completed" s))
  | Some (_ :: _) =>
    let s := serve_all (inbound_at_sleep it) s in
    if sleep_interrupted it then (Some (Raised KeyboardInterrupt), s)
    else (None, s)
  | None => (Some (Raised (TypeError "object of type NoneType has no len()")), s)
  end.

(** One turn of [while not rospy.is_shutdown()]. *)
Definition goal_iteration (it : Iteration) (s : Supervisor)
  : option outcome * Supervisor :=
  match dispatch it s with
  | Fail e s => (Some (Raised e), s)
  | Go goal_msg s =>
      match await_result it s with
      | Fail e s => (Some (Raised e), s)
      | Go _ s =>
          match classify (navigation_state it) goal_msg s with
          | Fail e s => (Some (Raised e), s)
          | Go _ s => next_or_complete it s
          end
      end
  end.

(** The goal loop, from its turn number [k] on. *)
Fixpoint send_goals (fuel : nat) (k : nat) (its : nat -> Iteration)
         (s : Supervisor) : outcome * Supervisor :=
  match fuel with
  | 0 => (OutOfFuel, s)
  | S fuel' =>
      if is_shutdown s then (Returned, s)
      else
        match goal_iteration (its k) s with
        | (Some o, s') => (o, s')
        | (None, s') => send_goals fuel' (S k) its s'
        end
  end.

(** Lines 165 to 273: the run once the first scan is there. *)
Definition plan_and_run (env : Environment) (s : Supervisor)
  : outcome * Supervisor :=
  match plan env s with
  | Fail e s => (Raised e, s)
  | Go l s =>
      let s := set_traversal_path_poses (Some l) s in
      let s := act (PublishPath (fixed_frame (cfg s)) l) s in
      let s := set_num_goals (Some (List.length l)) s in
      let s := write_event "run_start" s in
      let s := set_run_started true s in
      send_goals (S (List.length l)) 0 (iterations env) s
  end.

Definition start_run (env : Environment) (s : Supervisor)
  : outcome * Supervisor :=
  match wait_for_first_scan (startup_polls env) s with
  | (false, s) =>
    if startup_interrupted env then (Raised KeyboardInterrupt, s)
    else (Hangs, s)
  | (true, s) => plan_and_run env s
  end.

(* =============================================================== *)
(** ** [main] *)

(** The node as [__init__] leaves it. *)
Definition init (c : Config) : Supervisor :=
  {| cfg := c;
     run_started := false;
     terminate := false;
     ps_snapshot_count := 0;
     received_first_scan := false;
     latest_ground_truth_pose_msg := None;
     initial_pose := None;
     traversal_path_poses := None;
     current_goal := None;
     num_goals := None;
     goal_sent_count := 0;
     goal_succeeded_count := 0;
     goal_failed_count := 0;
     goal_rejected_count := 0;
     estimated_poses_df :=
       {| columns := ["t"; "x"; "y"; "theta"]; rows := [] |};
     estimated_correction_poses_df :=
       {| columns := ["t"; "x"; "y"; "theta"; "cov_x_x"; "cov_x_y";
                      "cov_y_y"; "cov_theta_theta"];
          rows := [] |};
     ground_truth_poses_df :=
       {| columns := ["t"; "x"; "y"; "theta"; "v_x"; "v_y"; "v_theta"];
          rows := [] |};
     is_shutdown := false;
     (* init_run_events_file *)
     trace := [WriteFile (run_events_file_path c)
                         ("timestamp, event" ++ newline)] |}.

(** [rospy.spin()]: sleeps until the node is shut down. *)
Fixpoint spin (polls : list (list Callback)) (s : Supervisor)
  : outcome * Supervisor :=
  if is_shutdown s then (Returned, s)
  else
    match polls with
    | [] => (Hangs, s)
    | cbs :: polls' => spin polls' (serve_all cbs s)
    end.

(** The [finally] clause of [main] when [node] is not [None]. *)
Definition finally (s : Supervisor) : Supervisor :=
  let s := end_run s in
  if negb (is_shutdown s) then signal_shutdown "run_terminated" s else s.

(** The [except] clauses and the [finally] clause, [o] being how the
    [try] block ended. *)
Definition handle (o : outcome) (s : Supervisor) : outcome * Supervisor :=
  match o with
  | Returned => (Returned, finally s)
  | Raised KeyboardInterrupt => (Returned, finally (ros_shutdown_callback s))
  | Raised _ => (Returned, finally s)
  | Hangs => (Hangs, s)
  | OutOfFuel => (OutOfFuel, s)
  end.

(** The [try] block of [main] once the node is constructed. *)
Definition try_block (env : Environment) (s : Supervisor)
  : outcome * Supervisor :=
  match start_run env s with
  | (Returned, s) => spin (spin_polls env) s
  | r => r
  end.

(** [main]; the node is [None] when [__init__] raised. *)
Definition main (env : Environment) : outcome * option Supervisor :=
  match construction env with
  | Some KeyboardInterrupt =>
      (* node.ros_shutdown_callback() on None *)
      (Raised (AttributeError "NoneType object has no attribute ros_shutdown_callback"),
       None)
  | Some _ => (Returned, None)
  | None =>
      let r := try_block env (init (parameters env)) in
      let r' := handle (fst r) (snd r) in
      (fst r', Some (snd r'))
  end.

End Run.

(* ================================================================= *)
(** ** Reading the trace and the state *)

(** The rows of [run_events.csv], in order. *)
Definition events (t : list Action) : list string :=
  flat_map (fun a => match a with Event e => [e] | _ => [] end) t.

(** The goals sent to the navigation action server, in order. *)
Definition goals_sent (t : list Action) : list MoveBaseGoal :=
  flat_map (fun a => match a with SendGoal g => [g] | _ => [] end) t.

(** The data frames serialized to CSV files, with their paths, in order. *)
Definition csv_files (t : list Action) : list (string * DataFrame) :=
  flat_map (fun a => match a with ToCsv p df => [(p, df)] | _ => [] end) t.

(** The snapshot files opened for writing, with what was dumped. *)
Definition pickle_files (t : list Action)
  : list (string * option (list ProcessDict)) :=
  flat_map (fun a => match a with PickleDump p d => [(p, d)] | _ => [] end) t.

(** The lines appended to the file at [path], in order. *)
Definition lines_appended (path : string) (t : list Action) : list string :=
  flat_map (fun a => match a with
                     | AppendLine p l => if String.eqb p path then [l] else []
                     | _ => []
                     end) t.

(** The number of snapshot timer ticks among callbacks. *)
Definition snapshot_ticks (cbs : list Callback) : nat :=
  List.length (filter (fun cb => match cb with
                                 | OnPsSnapshotTimer _ _ => true
                                 | _ => false
                                 end) cbs).









Definition is_ground_truth (cb : Callback) : bool :=
  match cb with OnGroundTruthPose _ => true | _ => false end.

(** The Euclidean distance of two points, in binary64 arithmetic: the
    square root of the sum of the squares of the differences of the
    coordinates. *)
Definition euclidean_distance (p q : Point) : float :=
  let dx := PrimFloat.sub (x p) (x q) in
  let dy := PrimFloat.sub (y p) (y q) in
  PrimFloat.sqrt
    (PrimFloat.add (PrimFloat.mul dx dx) (PrimFloat.mul dy dy)).



(** The queue of poses and the counters of the goal loop agree: the
    poses left are [num_goals - goal_sent_count]. *)
Definition in_lockstep (s : Supervisor) : Prop :=
  exists tour n,
    traversal_path_poses s = Some tour /\
    num_goals s = Some n /\
    goal_sent_count s <= n /\
    List.length tour = n - goal_sent_count s.

(** Every goal sent has been counted as succeeded or failed. *)
Definition all_classified (s : Supervisor) : Prop :=
  goal_sent_count s = goal_succeeded_count s + goal_failed_count s.

(** One goal has been sent and is not counted yet. *)
Definition one_in_flight (s : Supervisor) : Prop :=
  goal_sent_count s = goal_succeeded_count s + goal_failed_count s + 1.

(** The fields only the goal loop writes, and the goals and tables
    in the trace. *)
Definition same_dispatch_state (s s' : Supervisor) : Prop :=
  cfg s' = cfg s /\
  traversal_path_poses s' = traversal_path_poses s /\
  num_goals s' = num_goals s /\
  current_goal s' = current_goal s /\
  goal_sent_count s' = goal_sent_count s /\
  goal_succeeded_count s' = goal_succeeded_count s /\
  goal_failed_count s' = goal_failed_count s /\
  goals_sent (trace s') = goals_sent (trace s) /\
  csv_files (trace s') = csv_files (trace s).

(** Several actions in a row. *)
Definition acts (l : list Action) (s : Supervisor) : Supervisor :=
  fold_left (fun s a => act a s) l s.

(** The actions of the planner: calls into networkx and events. *)
Definition is_planner_action (a : Action) : bool :=
  match a with
  | AllPairsDijkstra _ | ConnectedComponents _ | RemoveNodesFrom _
  | NodeConnectedComponent _ _ | Event _ => true
  | _ => false
  end.

(** The tables and the configuration are left alone. *)
Definition keeps_tables (s s' : Supervisor) : Prop :=
  cfg s' = cfg s /\ csv_files (trace s') = csv_files (trace s).

(** The three files [end_run] writes, with the tables of [s]. *)
Definition pose_tables (s : Supervisor) : list (string * DataFrame) :=
  [(estimated_poses_file_path (cfg s), estimated_poses_df s);
   (estimated_correction_poses_file_path (cfg s),
    estimated_correction_poses_df s);
   (ground_truth_poses_file_path (cfg s), ground_truth_poses_df s)].

(** The file of the [i]-th snapshot. *)
Definition ps_file (c : Config) (i : nat) : string :=
  path_join (ps_output_folder c) ("ps_" ++ format_08d i ++ ".pkl").

(** *** Connectivity in a graph *)

Definition adjacent (g : nx.Graph) (u v : node) : Prop :=
  In v (keys (nx.neighbors g u)).

(** [v] is reached from [u] along edges of [g]. *)
Inductive connected (g : nx.Graph) (u : node) : node -> Prop :=
| connected_refl : In u (nx.node_ids g) -> connected g u u
| connected_step : forall w v,
    connected g u w -> adjacent g w v -> connected g u v.

(** The invariant of the breadth-first search from [s]: the nodes seen
    are distinct, every node seen or in the current level is reached
    from [s], and the neighbours of a node seen are seen or in the
    current level. *)
Definition bfs_inv (g : nx.Graph) (s : node) (seen level : list node)
  : Prop :=
  NoDup seen /\
  (forall v, In v seen \/ In v level -> connected g s v) /\
  (forall v u, In v seen -> adjacent g v u -> In u seen \/ In u level).

(** The invariant of Dijkstra's search from [s]: the paths and the
    tentative distances have the same keys, in the same order; a
    settled node is a discovered node; every discovered node is
    reached from [s]; the neighbours of a settled node are
    discovered. *)
Definition dijkstra_inv (g : nx.Graph) (s : node) (st : nx.search) : Prop :=
  keys (nx.paths st) = keys (nx.seen st) /\
  NoDup (keys (nx.seen st)) /\
  NoDup (keys (nx.dist st)) /\
  incl (keys (nx.dist st)) (keys (nx.seen st)) /\
  (forall v, In v (keys (nx.seen st)) -> connected g s v) /\
  (forall v u, In v (keys (nx.dist st)) -> adjacent g v u ->
               In u (keys (nx.seen st))).

(** The pairs (i, j) the loops that fill [costs] go through. *)
Definition cost_pairs (minimum_length_paths : list (node * list (node * list node)))
  : list (node * node) :=
  flat_map (fun ip : node * list (node * list node) =>
              map (fun j => (fst ip, j)) (keys (snd ip)))
           minimum_length_paths.

(** Two lists hold the same nodes. *)
Definition same_nodes (l1 l2 : list node) : Prop :=
  forall v, In v l1 <-> In v l2.

(** The steps of the planner in the trace, in order: [0] the all-pairs
    Dijkstra, [1] the removal of a component, [2] the check of the
    number of nodes (seen through its event or through the search of
    the start component that follows a passed check). *)
Definition planner_steps (t : list Action) : list nat :=
  flat_map (fun a => match a with
                     | AllPairsDijkstra _ => [0]
                     | RemoveNodesFrom _ => [1]
                     | Event "insufficient_number_of_nodes_in_deleaved_reduced_voronoi_graph" => [2]
                     | NodeConnectedComponent _ _ => [2]
                     | _ => []
                     end) t.

(** The nodes that pruning removes. *)
Definition removed_nodes (g : nx.Graph) : list node :=
  concat (too_small_components g).

(** The actions of the planner up to the check of the number of
    nodes. *)
Definition planner_prefix (g : nx.Graph) : list Action :=
  [AllPairsDijkstra g; ConnectedComponents g]
  ++ map RemoveNodesFrom (too_small_components g).

(** The order of the steps as the specification states it: the
    removals, then the check, then (when the check passes) the
    all-pairs Dijkstra. *)
Definition stated_planner_order (steps : list nat) : Prop :=
  exists k, steps = repeat 1 k ++ [2; 0] \/ steps = repeat 1 k ++ [2].

(** The graphs the all-pairs Dijkstra was run over. *)
Definition dijkstra_inputs (t : list Action) : list nx.Graph :=
  flat_map (fun a => match a with AllPairsDijkstra g => [g] | _ => [] end) t.

(** The particle line with every field separated from the next, as
    the format [t, frame_id, n, x1,y1,theta1, x2,y2,theta2, ...]
    reads. *)
Definition separated_particles_line {rt : PyRuntime} (msg : PoseArray)
  : string :=
  String.concat ", "
    ([float_str (stamp (particles_header msg));
      frame_id (particles_header msg);
      nat_str (List.length (poses msg))]
     ++ flat_map (fun p => [float_str (x (position p));
                            float_str (y (position p));
                            float_str (yaw (orientation p))])
                 (poses msg))
  ++ newline.

(* ================================================================= *)
(** ** Further readings of the state and of the trace *)

(** The values of a row of [scans.csv], in order. *)
Definition scan_values (msg : LaserScan) : list float :=
  [stamp (scan_header msg); angle_min msg; angle_max msg;
   angle_increment msg; range_min msg; range_max msg]
  ++ ranges msg.

(** Every row of a data frame has one value per column. *)
Definition rectangular (df : DataFrame) : Prop :=
  Forall (fun row => List.length row = List.length (columns df)) (rows df).

(** The three tables have the columns [__init__] gives them, and rows
    of that width. *)
Definition tables_well_formed (s : Supervisor) : Prop :=
  columns (estimated_poses_df s) = ["t"; "x"; "y"; "theta"] /\
  columns (estimated_correction_poses_df s)
  = ["t"; "x"; "y"; "theta"; "cov_x_x"; "cov_x_y"; "cov_y_y";
     "cov_theta_theta"] /\
  columns (ground_truth_poses_df s)
  = ["t"; "x"; "y"; "theta"; "v_x"; "v_y"; "v_theta"] /\
  rectangular (estimated_poses_df s) /\
  rectangular (estimated_correction_poses_df s) /\
  rectangular (ground_truth_poses_df s).

(** No row in the three tables and no line appended by the recorders
    of scans and of particles. *)
Definition nothing_recorded (s : Supervisor) : Prop :=
  rows (estimated_poses_df s) = [] /\
  rows (estimated_correction_poses_df s) = [] /\
  rows (ground_truth_poses_df s) = [] /\
  forall path, lines_appended path (trace s) = [].

(** The number of rows of [run_events.csv] that hold [event]. *)
Definition event_count (event : string) (t : list Action) : nat :=
  List.length (filter (String.eqb event) (events t)).

(** The log of events and the goals sent agree with the counters
    of the goal loop. *)
Definition log_agrees (s : Supervisor) : Prop :=
  event_count "target_pose_set" (trace s) = goal_sent_count s /\
  event_count "target_pose_reached" (trace s) = goal_succeeded_count s /\
  event_count "target_pose_not_reached" (trace s) = goal_failed_count s /\
  List.length (goals_sent (trace s)) = goal_sent_count s.

(** A file written by [to_csv] is one of the three tables, at its
    path and with its columns, and its rows have one value per
    column. *)
Definition csv_well_formed (c : Config) (file : string * DataFrame) : Prop :=
  rectangular (snd file) /\
  ((fst file = estimated_poses_file_path c /\
    columns (snd file) = ["t"; "x"; "y"; "theta"]) \/
   (fst file = estimated_correction_poses_file_path c /\
    columns (snd file)
    = ["t"; "x"; "y"; "theta"; "cov_x_x"; "cov_x_y"; "cov_y_y";
       "cov_theta_theta"]) \/
   (fst file = ground_truth_poses_file_path c /\
    columns (snd file)
    = ["t"; "x"; "y"; "theta"; "v_x"; "v_y"; "v_theta"])).

(** The fields no method assigns after [__init__]. *)
Definition same_constants (s s' : Supervisor) : Prop :=
  cfg s' = cfg s /\
  terminate s' = terminate s /\
  initial_pose s' = initial_pose s /\
  goal_rejected_count s' = goal_rejected_count s.

(** The events written on a run timeout, the only ones a callback
    writes. *)
Definition timeout_event (e : string) : Prop :=
  e = "run_timeout" \/ e = "supervisor_finished".

(** Every goal of the tour is sent and counted: the queue is empty
    and the counters add up to [num_goals]. *)
Definition tour_completed (s : Supervisor) : Prop :=
  exists n,
    num_goals s = Some n /\
    traversal_path_poses s = Some [] /\
    goal_sent_count s = n /\
    goal_succeeded_count s + goal_failed_count s = n.

(** The node when the goal loop starts: lines 197 to 220 of
    [start_run], [l] being the queue of poses. *)
Definition run_start (l : list Pose) (s : Supervisor) : Supervisor :=
  set_run_started true
    (write_event "run_start"
       (set_num_goals (Some (List.length l))
          (act (PublishPath (fixed_frame (cfg s)) l)
             (set_traversal_path_poses (Some l) s)))).

(** The messages and timer ticks among callbacks that make a record
    once the run has started: a scan, a set of particles, a
    correction of the estimated pose with its 36 covariances, a
    ground truth pose, a tick for which the transform is found. *)
Definition is_scan (cb : Callback) : bool :=
  match cb with OnScan _ => true | _ => false end.

Definition is_particles (cb : Callback) : bool :=
  match cb with OnAmclParticles _ => true | _ => false end.

Definition is_correction (cb : Callback) : bool :=
  match cb with
  | OnEstimatedPoseCorrection msg => List.length (covariance msg) =? 36
  | _ => false
  end.

Definition is_transform_found (cb : Callback) : bool :=
  match cb with OnWriteEstimatedPoseTimer (Some _) => true | _ => false end.

Definition count_callbacks (p : Callback -> bool) (cbs : list Callback)
  : nat :=
  List.length (filter p cbs).

(** The goal the loop makes of a pose (the time stamp left out). *)
Definition goal_to (c : Config) (pose : Pose) : MoveBaseGoal :=
  {| target_frame_id := fixed_frame c; target_pose := pose |}.

(* ================================================================= *)
(** ** The run as a sequence of steps *)

(** The calls into networkx the planner makes. *)
Definition is_networkx_call (a : Action) : bool :=
  match a with
  | AllPairsDijkstra _ | ConnectedComponents _ | RemoveNodesFrom _
  | NodeConnectedComponent _ _ => true
  | _ => false
  end.

(** The events the main thread writes on a failure or an interrupt. *)
Definition failure_events : list string :=
  ["insufficient_number_of_nodes_in_deleaved_reduced_voronoi_graph";
   "failed_to_communicate_with_navigation_node";
   "insufficient_number_of_poses_in_traversal_path";
   "waypoint_timeout"; "supervisor_finished"; "ros_shutdown"].

(** One step of a run: a callback on another thread, or what the main
    thread does between two points where it blocks. *)
Inductive step {rt : PyRuntime} : Supervisor -> Supervisor -> Prop :=
(** a subscriber or timer callback *)
| step_callback (s : Supervisor) (cb : Callback) :
    step s (serve s cb)
(** lines 166 to 188: a call into networkx *)
| step_networkx (s : Supervisor) (a : Action) :
    is_networkx_call a = true -> step s (act a s)
(** lines 182, 227, 231, 245, 246, 280 and 281 *)
| step_failure_event (s : Supervisor) (e : string) :
    In e failure_events -> step s (write_event e s)
(** lines 197 to 220: the queue of poses is set and the run starts *)
| step_run_start (s : Supervisor) (l : list Pose) :
    step s (set_run_started true
              (write_event "run_start"
                 (set_num_goals (Some (List.length l))
                    (act (PublishPath (fixed_frame (cfg s)) l)
                       (set_traversal_path_poses (Some l) s)))))
(** lines 234 to 242: the first pose of the queue is sent *)
| step_send (s : Supervisor) (pose : Pose) (rest : list Pose) :
    traversal_path_poses s = Some (pose :: rest) ->
    step s (set_goal_sent_count (goal_sent_count s + 1)
              (write_event "target_pose_set"
                 (act (SendGoal (goal_to (cfg s) pose))
                    (set_current_goal (Some (goal_to (cfg s) pose))
                       (set_traversal_path_poses (Some rest) s)))))
(** lines 254, 255 and 265 *)
| step_reached (s : Supervisor) :
    step s (set_current_goal None
              (set_goal_succeeded_count (goal_succeeded_count s + 1)
                 (write_event "target_pose_reached" s)))
(** lines 258, 259 and 265, or 262, 263 and 265 *)
| step_not_reached (s : Supervisor) :
    step s (set_current_goal None
              (set_goal_failed_count (goal_failed_count s + 1)
                 (write_event "target_pose_not_reached" s)))
(** lines 269 and 270 *)
| step_completed (s : Supervisor) :
    traversal_path_poses s = Some [] ->
    step s (signal_shutdown "run_completed" (write_event "run_completed" s))
(** line 55 *)
| step_end_run (s : Supervisor) :
    step s (end_run s)
(** line 58 *)
| step_terminated (s : Supervisor) :
    is_shutdown s = false ->
    step s (signal_shutdown "run_terminated" s).

(** A run from [s] to [s']: any number of steps. *)
Inductive steps {rt : PyRuntime} (s : Supervisor) : Supervisor -> Prop :=
| steps_none : steps s s
| steps_more (s1 s2 : Supervisor) :
    steps s s1 -> step s1 s2 -> steps s s2.

(* ================================================================= *)
(** ** The greedy choice *)

(** No cost of the table is a NaN. *)
Definition no_nan_cost (costs : Costs) : bool :=
  forallb (fun row : node * list (node * float) =>
             forallb (fun node_cost : node * float =>
                        negb (is_nan (snd node_cost)))
                     (snd row))
          costs.

(** [tour] visits the nodes of [queue] from [current], each time
    going to a node of the queue whose cost from the node just
    visited is least, until the queue is empty. *)
Fixpoint nearest_first (costs : Costs) (current : node) (queue : list node)
         (tour : list node) : Prop :=
  match tour with
  | [] => queue = []
  | next :: tour' =>
      In next queue /\
      (exists c,
          In (next, c) (costs_row current costs) /\
          forall j cj,
            In j queue -> In (j, cj) (costs_row current costs) ->
            PrimFloat.leb c cj = true) /\
      nearest_first costs next (set_remove next queue) tour'
  end.

(* ================================================================= *)
(** ** Files and snapshots *)

(** The files the recorders and [end_run] write, the log of events
    included. *)
Definition benchmark_files (c : Config) : list string :=
  [estimated_poses_file_path c;
   estimated_correction_poses_file_path c;
   ground_truth_poses_file_path c;
   scans_file_path c;
   amcl_particles_file_path c;
   run_events_file_path c].

(** The keys [ps_snapshot_timer_callback] deletes from the dictionary
    of a process. *)
Definition uninteresting_keys : list string :=
  ["connections"; "memory_maps"; "environ"].

(* ================================================================= *)
(** ** Examples *)

(** A runtime for the examples: the coordinates of the vertices are
    numpy numbers; the examples print no float and decode no
    heading. *)
Definition example_runtime : PyRuntime :=
  {| numpy_coordinates := true;
     float_str := fun _ => "?";
     yaw := fun _ => 0%float |}.

(** The same with Python floats as coordinates of the vertices. *)
Definition python_runtime : PyRuntime :=
  {| numpy_coordinates := false;
     float_str := fun _ => "?";
     yaw := fun _ => 0%float |}.

Definition example_config : Config :=
  {| fixed_frame := "map";
     robot_base_frame := "base_link";
     robot_radius := 0.25%float;
     run_output_folder := "/output";
     waypoint_timeout := 60%float;
     goal_tolerance := 0.5%float;
     ps_processes := [101; 102] |}.

Definition unit_quaternion : Quaternion :=
  {| q_x := 0%float; q_y := 0%float; q_z := 0%float; q_w := 1%float |}.

Definition pose_at (px py : float) : Pose :=
  {| position := {| x := px; y := py |}; orientation := unit_quaternion |}.

Definition odometry_at (px py : float) : Odometry :=
  {| odometry_header := {| stamp := 1%float; frame_id := "map" |};
     odometry_pose := pose_at px py;
     linear_x := 0%float; linear_y := 0%float; angular_z := 0%float |}.

Definition example_scan : LaserScan :=
  {| scan_header := {| stamp := 1%float; frame_id := "laser" |};
     angle_min := 0%float; angle_max := 1%float;
     angle_increment := 0.5%float;
     range_min := 0%float; range_max := 10%float;
     ranges := [1%float; 2%float; 3%float] |}.

(** A turn of the goal loop in which navigation reports success in
    time and the robot is seen at ([px], [py]). *)
Definition turn_seen_at (px py : float) : Iteration :=
  {| inbound_at_wait_for_server := [];
     server_available := true;
     inbound_at_wait_for_result := [OnGroundTruthPose (odometry_at px py)];
     interrupted := false;
     result_in_time := true;
     navigation_state := SUCCEEDED;
     inbound_at_sleep := [];
     sleep_interrupted := false |}.

(** A turn in which navigation reports success and no callback runs. *)
Definition quiet_turn : Iteration :=
  {| inbound_at_wait_for_server := [];
     server_available := true;
     inbound_at_wait_for_result := [];
     interrupted := false;
     result_in_time := true;
     navigation_state := SUCCEEDED;
     inbound_at_sleep := [];
     sleep_interrupted := false |}.

(** A turn in which the result does not come in time. *)
Definition late_turn : Iteration :=
  {| inbound_at_wait_for_server := [];
     server_available := true;
     inbound_at_wait_for_result := [];
     interrupted := false;
     result_in_time := false;
     navigation_state := ACTIVE;
     inbound_at_sleep := [];
     sleep_interrupted := false |}.

(** Three vertices on a line, and one vertex without edge. *)
Definition line_and_dot : nx.Graph :=
  {| nx.nodes := [(0, (0, 0)%float); (1, (10, 0)%float);
                  (2, (50, 50)%float); (3, (20, 0)%float)];
     nx.edges := [(0, 1, 10%float); (1, 3, 10%float)] |}.

(** Three vertices on a line. *)
Definition line : nx.Graph :=
  {| nx.nodes := [(0, (0, 0)%float); (1, (10, 0)%float);
                  (3, (20, 0)%float)];
     nx.edges := [(0, 1, 10%float); (1, 3, 10%float)] |}.

(** Two vertices without edge. *)
Definition two_dots : nx.Graph :=
  {| nx.nodes := [(0, (0, 0)%float); (1, (10, 0)%float)];
     nx.edges := [] |}.

(** A run over [g]: the first scan comes in the first poll, and every
    turn of the goal loop goes as [turn] says. *)
Definition example_run (g : nx.Graph) (turn : nat -> Iteration)
  : Environment :=
  {| construction := None;
     parameters := example_config;
     startup_polls := [[OnScan example_scan]];
     startup_interrupted := false;
     voronoi_graph := g;
     random_index := 0;
     random_orientation := fun _ => unit_quaternion;
     iterations := turn;
     spin_polls := [] |}.

(** The node when the goal loop of the example run over [line] starts:
    the tour is planned and no goal is sent. *)
Definition example_ready : Supervisor :=
  let s := init example_config in
  let s := set_received_first_scan true s in
  let l := [pose_at 10 0; pose_at 0 0; pose_at 20 0] in
  let s := set_traversal_path_poses (Some l) s in
  let s := set_num_goals (Some 3) s in
  set_run_started true s.

(** The node of the example with the robot seen at ([px], [py]). *)
Definition example_seen_at (px py : float) : Supervisor :=
  set_latest_ground_truth_pose_msg (Some (odometry_at px py)) example_ready.

(** A coordinate whose square is out of range: two to the power 700. *)
Definition far_away : float := 0x1p+700%float.

(** The goal at the first pose of the example tour. *)
Definition example_goal : MoveBaseGoal :=
  {| target_frame_id := "map"; target_pose := pose_at 10 0 |}.

(** The binary64 number of a small natural number. *)
Fixpoint float_of_nat (n : nat) : float :=
  match n with
  | 0 => 0%float
  | S n' => PrimFloat.add (float_of_nat n') 1%float
  end.

Definition grid_point (a b : nat) : Point :=
  {| x := float_of_nat a; y := float_of_nat b |}.

(** The square of the difference of two natural numbers. *)
Definition square_of_difference (a b : nat) : nat :=
  (a - b) * (a - b) + (b - a) * (b - a).

(** What [as_dict] gives for a process, with one more field [exe]. *)
Definition process_with (exe : PyValue) : ProcessDict :=
  [("connections", Picklable "[]"); ("memory_maps", Picklable "[]");
   ("environ", Picklable "{}"); ("exe", exe)].

(** A tick at which every tracked process has the field [exe], the
    file being opened. *)
Definition tick_with (exe : PyValue) : Callback :=
  OnPsSnapshotTimer (fun _ => Some (process_with exe)) None.

(** A tick at which every tracked process has exited. *)
Definition tick_all_gone : Callback := OnPsSnapshotTimer (fun _ => None) None.

(** A particle set with two particles. *)
Definition two_particles : PoseArray :=
  {| particles_header := {| stamp := 1.5%float; frame_id := "map" |};
     poses := [pose_at 1 2; pose_at 3 4] |}.

(* ================================================================= *)
(** ** What callbacks leave alone *)

Section CallbackFacts.

Context {rt : PyRuntime}.

Lemma same_dispatch_state_refl s : same_dispatch_state s s.
Proof. repeat split. Qed.

Lemma same_dispatch_state_trans s1 s2 s3 :
  same_dispatch_state s1 s2 -> same_dispatch_state s2 s3 ->
  same_dispatch_state s1 s3.
Proof.
  unfold same_dispatch_state; intros H1 H2.
  repeat match goal with H : _ /\ _ |- _ => destruct H end.
  repeat split; congruence.
Qed.

Lemma goals_sent_app t1 t2 :
  goals_sent (t1 ++ t2) = goals_sent t1 ++ goals_sent t2.
Proof. apply flat_map_app. Qed.

Lemma csv_files_app t1 t2 :
  csv_files (t1 ++ t2) = csv_files t1 ++ csv_files t2.
Proof. apply flat_map_app. Qed.

Lemma events_app t1 t2 : events (t1 ++ t2) = events t1 ++ events t2.
Proof. apply flat_map_app. Qed.


(** A tick of the snapshot timer writes the counter of snapshots and
    adds the opening of its file to the trace, at most. *)
Lemma ps_snapshot_timer_callback_state as_dict open_error s :
  exists n,
    state_after (ps_snapshot_timer_callback as_dict open_error s)
    = set_ps_snapshot_count n s \/
    exists data,
      state_after (ps_snapshot_timer_callback as_dict open_error s)
      = set_ps_snapshot_count
          n (act (PickleDump (ps_snapshot_file_path s) data) s).
Proof.
  assert (Hsame : forall s0,
             s0 = set_ps_snapshot_count (ps_snapshot_count s0) s0)
    by (intros []; reflexivity).
  unfold ps_snapshot_timer_callback, dump_snapshot.
  destruct open_error as [e|].
  - destruct (is_type_error e); cbn [state_after]; eexists; left;
      [reflexivity|apply Hsame].
  - destruct (pickle_dump _) as [e|data];
      [destruct (is_type_error e)|]; cbn [state_after];
      eexists; right; eexists; reflexivity.
Qed.

Lemma serve_same_dispatch_state s cb : same_dispatch_state s (serve s cb).
Proof.
  unfold same_dispatch_state.
  destruct cb; cbn;
    unfold scan_callback, amcl_particles_callback,
      estimated_pose_correction_callback, ground_truth_pose_callback,
      write_estimated_pose_timer_callback, ps_snapshot_timer_callback,
      dump_snapshot; cbn;
    repeat match goal with
      | |- context [if ?b then _ else _] => destruct b; cbn
      | |- context [match ?o with Some _ => _ | None => _ end] =>
          destruct o; cbn
      | |- context [match ?o with inl _ => _ | inr _ => _ end] =>
          destruct o; cbn
      end;
    rewrite ?goals_sent_app, ?csv_files_app; cbn;
    rewrite ?app_nil_r; repeat split.
Qed.

Lemma serve_all_same_dispatch_state cbs :
  forall s, same_dispatch_state s (serve_all cbs s).
Proof.
  induction cbs as [|cb cbs IH]; intro s; cbn.
  - apply same_dispatch_state_refl.
  - eapply same_dispatch_state_trans; [apply serve_same_dispatch_state|].
    apply IH.
Qed.

End CallbackFacts.

(** The two ways a tick of the snapshot timer leaves the node. *)
Ltac snapshot_tick_cases :=
  match goal with
  | |- context [state_after (ps_snapshot_timer_callback ?d ?o ?s)] =>
      destruct (ps_snapshot_timer_callback_state d o s)
        as (? & [->|(? & ->)])
  end.

(* ================================================================= *)
(** ** The goal loop, turn by turn *)

Section GoalLoop.

Context {rt : PyRuntime}.

Lemma in_lockstep_same s s' :
  same_dispatch_state s s' -> in_lockstep s -> in_lockstep s'.
Proof.
  intros (_ & Ht & Hn & _ & Hc & _) (tour & n & H1 & H2 & H3 & H4).
  exists tour, n. rewrite Ht, Hn, Hc. auto.
Qed.

Lemma all_classified_same s s' :
  same_dispatch_state s s' -> all_classified s -> all_classified s'.
Proof.
  unfold all_classified.
  intros (_ & _ & _ & _ & Hc & Hs & Hf & _) H. congruence.
Qed.

Lemma one_in_flight_same s s' :
  same_dispatch_state s s' -> one_in_flight s -> one_in_flight s'.
Proof.
  unfold one_in_flight.
  intros (_ & _ & _ & _ & Hc & Hs & Hf & _) H. congruence.
Qed.

(** What a dispatch that sends a goal does. *)
Lemma dispatch_go it s goal_msg s1 :
  dispatch it s = Go goal_msg s1 ->
  exists rest,
    traversal_path_poses (serve_all (inbound_at_wait_for_server it) s)
    = Some (target_pose goal_msg :: rest) /\
    target_frame_id goal_msg = fixed_frame (cfg s) /\
    traversal_path_poses s1 = Some rest /\
    current_goal s1 = Some goal_msg /\
    num_goals s1 = num_goals s /\
    cfg s1 = cfg s /\
    goal_sent_count s1 = goal_sent_count s + 1 /\
    goal_succeeded_count s1 = goal_succeeded_count s /\
    goal_failed_count s1 = goal_failed_count s /\
    latest_ground_truth_pose_msg s1
    = latest_ground_truth_pose_msg
        (serve_all (inbound_at_wait_for_server it) s) /\
    is_shutdown s1
    = is_shutdown (serve_all (inbound_at_wait_for_server it) s) /\
    trace s1 = trace (serve_all (inbound_at_wait_for_server it) s)
               ++ [SendGoal goal_msg; Event "target_pose_set"].
Proof.
  unfold dispatch.
  pose proof (serve_all_same_dispatch_state
                (inbound_at_wait_for_server it) s) as Hs.
  destruct Hs as (Hcfg & Ht & Hn & Hg & Hc & Hsu & Hf & _).
  set (s0 := serve_all (inbound_at_wait_for_server it) s) in *.
  destruct (server_available it); cbn; [|discriminate].
  destruct (traversal_path_poses s0) as [[|pose rest]|] eqn:E;
    try discriminate.
  intros H; injection H as Hgoal Hs1. subst goal_msg s1. cbn.
  exists rest. rewrite <- app_assoc. cbn.
  repeat split; congruence.
Qed.

(** A dispatch that raises sends nothing and counts nothing. *)
Lemma dispatch_fail it s e s1 :
  dispatch it s = Fail e s1 ->
  same_dispatch_state s s1 /\
  latest_ground_truth_pose_msg s1
  = latest_ground_truth_pose_msg
      (serve_all (inbound_at_wait_for_server it) s).
Proof.
  unfold dispatch.
  pose proof (serve_all_same_dispatch_state
                (inbound_at_wait_for_server it) s) as Hs.
  set (s0 := serve_all (inbound_at_wait_for_server it) s) in *.
  destruct (server_available it); cbn.
  - destruct (traversal_path_poses s0) as [[|pose rest]|] eqn:E;
      try discriminate; intros H; injection H as _ Hs1; subst s1;
      (split; [|reflexivity]).
    + eapply same_dispatch_state_trans; [exact Hs|].
      unfold same_dispatch_state; cbn.
      rewrite goals_sent_app, csv_files_app; cbn.
      rewrite !app_nil_r. repeat split.
    + exact Hs.
  - intros H; injection H as _ Hs1; subst s1. split; [|reflexivity].
    eapply same_dispatch_state_trans; [exact Hs|].
    unfold same_dispatch_state; cbn.
    rewrite goals_sent_app, csv_files_app; cbn.
    rewrite !app_nil_r. repeat split.
Qed.

(** The wait changes neither the queue nor the counters. *)
Lemma await_result_same it s :
  match await_result it s with
  | Fail _ s1 | Go _ s1 => same_dispatch_state s s1
  end.
Proof.
  unfold await_result.
  pose proof (serve_all_same_dispatch_state
                (inbound_at_wait_for_result it) s) as Hs.
  set (s0 := serve_all (inbound_at_wait_for_result it) s) in *.
  destruct (interrupted it); [exact Hs|].
  destruct (result_in_time it); cbn; [exact Hs|].
  eapply same_dispatch_state_trans; [exact Hs|].
  unfold same_dispatch_state; cbn.
  rewrite !goals_sent_app, !csv_files_app; cbn.
  rewrite !app_nil_r. repeat split.
Qed.

(** A classification counts the goal once, as succeeded or as
    failed, and clears the current goal. *)
Lemma classify_go state goal_msg s s1 :
  classify state goal_msg s = Go tt s1 ->
  cfg s1 = cfg s /\
  traversal_path_poses s1 = traversal_path_poses s /\
  num_goals s1 = num_goals s /\
  goal_sent_count s1 = goal_sent_count s /\
  current_goal s1 = None /\
  is_shutdown s1 = is_shutdown s /\
  goals_sent (trace s1) = goals_sent (trace s) /\
  csv_files (trace s1) = csv_files (trace s) /\
  ((goal_succeeded_count s1 = goal_succeeded_count s + 1 /\
    goal_failed_count s1 = goal_failed_count s /\
    trace s1 = trace s ++ [Event "target_pose_reached"]) \/
   (goal_succeeded_count s1 = goal_succeeded_count s /\
    goal_failed_count s1 = goal_failed_count s + 1 /\
    trace s1 = trace s ++ [Event "target_pose_not_reached"])).
Proof.
  unfold classify.
  destruct (is_succeeded state).
  - destruct (latest_ground_truth_pose_msg s) as [msg|]; [|discriminate].
    destruct (distance_from_goal _ _) as [distance|]; [|discriminate].
    destruct (PrimFloat.ltb _ _); intros H; injection H as H; subst s1;
      cbn; rewrite goals_sent_app, csv_files_app; cbn;
      rewrite !app_nil_r; repeat split; auto.
  - intros H; injection H as H; subst s1; cbn.
    rewrite goals_sent_app, csv_files_app; cbn.
    rewrite !app_nil_r; repeat split; auto.
Qed.

(** A classification that raises changes nothing: no ground truth
    pose is known, or a square of the distance is out of range. *)
Lemma classify_fail state goal_msg s e s1 :
  classify state goal_msg s = Fail e s1 ->
  s1 = s /\ state = SUCCEEDED /\
  ((latest_ground_truth_pose_msg s = None /\
    e = AttributeError "NoneType object has no attribute pose") \/
   (exists msg,
       latest_ground_truth_pose_msg s = Some msg /\
       distance_from_goal (position (target_pose goal_msg))
                          (position (odometry_pose msg)) = None /\
       e = OverflowError "(34, 'Numerical result out of range')")).
Proof.
  unfold classify.
  destruct state; cbn; try discriminate.
  destruct (latest_ground_truth_pose_msg s) as [msg|].
  - destruct (distance_from_goal _ _) as [distance|] eqn:Hd.
    + destruct (PrimFloat.ltb _ _); discriminate.
    + intros H; injection H as He Hs.
      split; [auto|]. split; [reflexivity|]. right. exists msg. auto.
  - intros H; injection H as He Hs. auto.
Qed.

Lemma next_or_complete_same it s :
  same_dispatch_state s (snd (next_or_complete it s)).
Proof.
  unfold next_or_complete.
  destruct (traversal_path_poses s) as [[|p l]|]; cbn.
  - unfold same_dispatch_state; cbn.
    rewrite <- !app_assoc, !goals_sent_app, !csv_files_app; cbn.
    rewrite !app_nil_r. repeat split.
  - destruct (sleep_interrupted it); apply serve_all_same_dispatch_state.
  - apply same_dispatch_state_refl.
Qed.

Lemma in_lockstep_dispatch it s goal_msg s1 :
  in_lockstep s -> dispatch it s = Go goal_msg s1 -> in_lockstep s1.
Proof.
  intros Hl Hd.
  apply dispatch_go in Hd.
  destruct Hd as (rest & Ht & _ & Ht1 & _ & Hn & _ & Hc & _).
  apply (in_lockstep_same _ _ (serve_all_same_dispatch_state
                             (inbound_at_wait_for_server it) s)) in Hl.
  destruct Hl as (tour & n & H1 & H2 & H3 & H4).
  pose proof (serve_all_same_dispatch_state
                (inbound_at_wait_for_server it) s)
    as (_ & _ & Hn' & _ & Hc' & _).
  rewrite Ht in H1. injection H1 as H1. subst tour. cbn in H4.
  exists rest, n. rewrite Ht1, Hn, Hc, <- Hn', <- Hc'.
  rewrite Hc' in *. repeat split; auto; lia.
Qed.

(** One turn keeps the queue and the counters in lockstep; it ends
    with every goal classified, or it raises with the goal it sent
    unclassified. *)
Lemma goal_iteration_lockstep it s :
  in_lockstep s -> all_classified s ->
  in_lockstep (snd (goal_iteration it s)) /\
  (all_classified (snd (goal_iteration it s)) \/
   (one_in_flight (snd (goal_iteration it s)) /\
    exists e, fst (goal_iteration it s) = Some (Raised e))).
Proof.
  intros Hl Hc. unfold goal_iteration.
  destruct (dispatch it s) as [e s1|goal_msg s1] eqn:Hd.
  - apply dispatch_fail in Hd. destruct Hd as [Hd _]. cbn.
    split; [eapply in_lockstep_same; eauto|].
    left. eapply all_classified_same; eauto.
  - pose proof (in_lockstep_dispatch it s _ _ Hl Hd) as Hl1.
    assert (Hf1 : one_in_flight s1).
    { apply dispatch_go in Hd.
      destruct Hd as (rest & _ & _ & _ & _ & _ & _ & H1 & H2 & H3 & _).
      unfold one_in_flight, all_classified in *. lia. }
    pose proof (await_result_same it s1) as Ha.
    destruct (await_result it s1) as [e s2|[] s2]; cbn.
    + split; [eapply in_lockstep_same; eauto|].
      right. split; [eapply one_in_flight_same; eauto|eauto].
    + assert (Hl2 : in_lockstep s2) by (eapply in_lockstep_same; eauto).
      assert (Hf2 : one_in_flight s2) by (eapply one_in_flight_same; eauto).
      destruct (classify (navigation_state it) goal_msg s2)
        as [e s3|[] s3] eqn:Hk.
      * apply classify_fail in Hk. destruct Hk as (-> & _). cbn.
        split; [exact Hl2|]. right. split; [exact Hf2|eauto].
      * apply classify_go in Hk.
        destruct Hk as (_ & Ht & Hn & Hs & _ & _ & _ & _ & Hcount).
        assert (Hl3 : in_lockstep s3).
        { destruct Hl2 as (tour & n & H1 & H2 & H3 & H4).
          exists tour, n. rewrite Ht, Hn, Hs. auto. }
        assert (Hc3 : all_classified s3).
        { unfold all_classified, one_in_flight in *.
          destruct Hcount as [(? & ? & _)|(? & ? & _)]; lia. }
        pose proof (next_or_complete_same it s3) as Hx.
        split; [eapply in_lockstep_same; eauto|].
        left. eapply all_classified_same; eauto.
Qed.

Lemma send_goals_lockstep its fuel :
  forall k s,
    in_lockstep s -> all_classified s ->
    in_lockstep (snd (send_goals fuel k its s)) /\
    (all_classified (snd (send_goals fuel k its s)) \/
     (one_in_flight (snd (send_goals fuel k its s)) /\
      exists e, fst (send_goals fuel k its s) = Raised e)).
Proof.
  induction fuel as [|fuel IH]; intros k s Hl Hc; cbn.
  - auto.
  - destruct (is_shutdown s); cbn; [auto|].
    pose proof (goal_iteration_lockstep (its k) s Hl Hc) as [Hl' Hc'].
    destruct (goal_iteration (its k) s) as [[o|] s'] eqn:Hg; cbn in *.
    + split; [exact Hl'|].
      destruct Hc' as [Hc'|[Hf (e & He)]]; [auto|].
      right. split; [exact Hf|]. injection He as ->. eauto.
    + destruct Hc' as [Hc'|[_ (e & He)]]; [|discriminate].
      apply IH; auto.
Qed.

End GoalLoop.

Section GoalLoopClaims.

Context {rt : PyRuntime}.

(** A turn that lets the loop go on has taken one pose from a queue
    that still holds another; a turn that stops the loop returns or
    raises. *)
Lemma goal_iteration_outcome it s :
  match goal_iteration it s with
  | (None, s') =>
      exists p q rest,
        traversal_path_poses s = Some (p :: q :: rest) /\
        traversal_path_poses s' = Some (q :: rest)
  | (Some Returned, _) | (Some (Raised _), _) => True
  | (Some _, _) => False
  end.
Proof.
  unfold goal_iteration.
  destruct (dispatch it s) as [e s1|goal_msg s1] eqn:Hd; [exact I|].
  pose proof (await_result_same it s1) as Ha.
  destruct (await_result it s1) as [e s2|[] s2]; [exact I|].
  destruct (classify (navigation_state it) goal_msg s2)
    as [e s3|[] s3] eqn:Hk; [exact I|].
  apply dispatch_go in Hd. destruct Hd as (rest & Ht & _ & Ht1 & _).
  apply classify_go in Hk. destruct Hk as (_ & Ht3 & _).
  destruct Ha as (_ & Ht2 & _).
  pose proof (serve_all_same_dispatch_state
                (inbound_at_wait_for_server it) s) as (_ & Ht0 & _).
  unfold next_or_complete. rewrite Ht3, Ht2, Ht1.
  destruct rest as [|q rest]; [exact I|].
  pose proof (serve_all_same_dispatch_state (inbound_at_sleep it) s3)
    as (_ & Ht4 & _).
  destruct (sleep_interrupted it); [exact I|].
  exists (target_pose goal_msg), q, rest. split; congruence.
Qed.

(** The goal loop ends within one turn per pose of the queue. *)
Lemma send_goals_ends its fuel :
  forall k s tour,
    traversal_path_poses s = Some tour ->
    List.length tour < fuel ->
    fst (send_goals fuel k its s) = Returned \/
    exists e, fst (send_goals fuel k its s) = Raised e.
Proof.
  induction fuel as [|fuel IH]; intros k s tour Ht Hlen; [lia|].
  cbn. destruct (is_shutdown s); [left; reflexivity|].
  pose proof (goal_iteration_outcome (its k) s) as Ho.
  destruct (goal_iteration (its k) s) as [[o|] s'].
  - destruct o; cbn; try contradiction; eauto.
  - destruct Ho as (p & q & rest & H1 & H2).
    rewrite Ht in H1. injection H1 as ->.
    apply (IH (S k) s' (q :: rest) H2). cbn in *. lia.
Qed.

(** C2.  In a state where the queue of poses and the counters agree
    and every goal sent is classified: a dispatch takes exactly the
    first pose of the queue, sends it and adds one to
    [goal_sent_count]; a classification adds one to exactly one of
    [goal_succeeded_count] and [goal_failed_count]; and after any
    number of turns of the goal loop the poses left are still
    [num_goals - goal_sent_count] and the goals sent are the goals
    succeeded plus the goals failed, but for a goal left unclassified
    when the loop is left by an exception. *)
Theorem dispatcher_counters_in_lockstep
        (its : nat -> Iteration) (s : Supervisor)
        (Hqueue : in_lockstep s) (Hcounted : all_classified s) :
  (forall it goal_msg s1,
      dispatch it s = Go goal_msg s1 ->
      (exists rest,
          traversal_path_poses s = Some (target_pose goal_msg :: rest) /\
          traversal_path_poses s1 = Some rest) /\
      goals_sent (trace s1) = goals_sent (trace s) ++ [goal_msg] /\
      goal_sent_count s1 = goal_sent_count s + 1 /\
      goal_succeeded_count s1 = goal_succeeded_count s /\
      goal_failed_count s1 = goal_failed_count s /\
      in_lockstep s1 /\
      forall s2 s3,
        await_result it s1 = Go tt s2 ->
        classify (navigation_state it) goal_msg s2 = Go tt s3 ->
        ((goal_succeeded_count s3 = goal_succeeded_count s + 1 /\
          goal_failed_count s3 = goal_failed_count s) \/
         (goal_succeeded_count s3 = goal_succeeded_count s /\
          goal_failed_count s3 = goal_failed_count s + 1)) /\
        goal_sent_count s3 = goal_sent_count s1 /\
        traversal_path_poses s3 = traversal_path_poses s1 /\
        in_lockstep s3 /\ all_classified s3) /\
  (forall fuel k,
      in_lockstep (snd (send_goals fuel k its s)) /\
      (all_classified (snd (send_goals fuel k its s)) \/
       (one_in_flight (snd (send_goals fuel k its s)) /\
        exists e, fst (send_goals fuel k its s) = Raised e))).
Proof.
  split; [|intros fuel k; apply send_goals_lockstep; assumption].
  intros it goal_msg s1 Hd.
  pose proof (in_lockstep_dispatch it s _ _ Hqueue Hd) as Hl1.
  pose proof (dispatch_go _ _ _ _ Hd)
    as (rest & Ht & _ & Ht1 & _ & Hn & _ & Hc & Hsu & Hfa & _ & _ & Htr).
  pose proof (serve_all_same_dispatch_state
                (inbound_at_wait_for_server it) s)
    as (_ & Ht0 & _ & _ & _ & _ & _ & Hgs & _).
  split; [exists rest; split; congruence|].
  split.
  { rewrite Htr, goals_sent_app, Hgs. reflexivity. }
  repeat (split; [assumption|]).
  intros s2 s3 Ha Hk.
  pose proof (await_result_same it s1) as Hsame. rewrite Ha in Hsame.
  destruct Hsame as (_ & Ht2 & Hn2 & _ & Hc2 & Hsu2 & Hfa2 & _).
  pose proof (classify_go _ _ _ _ Hk)
    as (_ & Ht3 & Hn3 & Hc3 & _ & _ & _ & _ & Hcount).
  assert (Hl3 : in_lockstep s3).
  { destruct Hl1 as (tour & n & H1 & H2 & H3 & H4).
    exists tour, n. rewrite Ht3, Hn3, Hc3, Ht2, Hn2, Hc2. auto. }
  unfold all_classified in *.
  split; [destruct Hcount as [(? & ? & _)|(? & ? & _)]; [left|right]; lia|].
  split; [congruence|]. split; [congruence|]. split; [exact Hl3|].
  destruct Hcount as [(? & ? & _)|(? & ? & _)]; lia.
Qed.

(** The state in which the goal loop starts (lines 198 to 220). *)
Lemma plan_and_run_starts_in_lockstep l s :
  let s0 :=
    set_run_started true
      (write_event "run_start"
         (set_num_goals (Some (List.length l))
            (act (PublishPath (fixed_frame (cfg s)) l)
               (set_traversal_path_poses (Some l) s)))) in
  in_lockstep s0 <-> goal_sent_count s = 0.
Proof.
  cbn. unfold in_lockstep; cbn. split.
  - intros (tour & n & H1 & H2 & H3 & H4).
    injection H1 as <-. injection H2 as <-.
    lia.
  - intros ->. exists l, (List.length l). repeat split; lia.
Qed.

End GoalLoopClaims.

(** The theorem on the queue planned for the line of three vertices:
    its state is in lockstep, and so is every state the loop reaches. *)
Lemma dispatcher_counters_in_lockstep_witness :
  in_lockstep example_ready /\ all_classified example_ready /\
  (forall fuel k,
      in_lockstep (snd (@send_goals example_runtime fuel k
                          (fun _ => turn_seen_at 10 0) example_ready))).
Proof.
  assert (Hq : in_lockstep example_ready).
  { exists [pose_at 10 0; pose_at 0 0; pose_at 20 0], 3.
    repeat split; cbn; lia. }
  assert (Hc : all_classified example_ready) by reflexivity.
  split; [exact Hq|]. split; [exact Hc|].
  intros fuel k.
  exact (proj1 (proj2 (@dispatcher_counters_in_lockstep example_runtime
                         (fun _ => turn_seen_at 10 0) example_ready Hq Hc)
                      fuel k)).
Defined.

Section TurnClaims.

Context {rt : PyRuntime}.




Lemma serve_all_no_ground_truth cbs :
  forall s,
    existsb is_ground_truth cbs = false ->
    latest_ground_truth_pose_msg (serve_all cbs s)
    = latest_ground_truth_pose_msg s.
Proof.
  unfold serve_all.
  induction cbs as [|cb cbs IH]; intros s H; cbn in *; [reflexivity|].
  apply orb_false_iff in H. destruct H as [H1 H2].
  rewrite (IH _ H2).
  destruct cb; cbn in *; try discriminate;
    unfold scan_callback, amcl_particles_callback,
      estimated_pose_correction_callback,
      write_estimated_pose_timer_callback, ps_snapshot_timer_callback,
      dump_snapshot; cbn;
    repeat match goal with
      | |- context [if ?b then _ else _] => destruct b; cbn
      | |- context [match ?o with Some _ => _ | None => _ end] =>
          destruct o; cbn
      | |- context [match ?o with inl _ => _ | inr _ => _ end] =>
          destruct o; cbn
      end; reflexivity.
Qed.

(** C10.  With no ground truth pose received so far (the reference
    is still [None]) and none coming during the turn, a goal that
    navigation reports as succeeded is not classified: the check
    raises [AttributeError], no counter of outcomes moves and the
    goal stays the current goal; [main] treats the error as any
    other exception.  The reference is set by every ground truth
    message, whether the run has started or not. *)
Theorem succeeded_without_ground_truth
        (it : Iteration) (s : Supervisor) (pose : Pose) (rest : list Pose)
        (Hnone : latest_ground_truth_pose_msg s = None)
        (Hquiet1 : existsb is_ground_truth (inbound_at_wait_for_server it)
                   = false)
        (Hquiet2 : existsb is_ground_truth (inbound_at_wait_for_result it)
                   = false)
        (Hserver : server_available it = true)
        (Hqueue : traversal_path_poses s = Some (pose :: rest))
        (Hwait : interrupted it = false)
        (Hresult : result_in_time it = true)
        (Hstate : navigation_state it = SUCCEEDED) :
  (exists s',
      goal_iteration it s
      = (Some (Raised
                 (AttributeError "NoneType object has no attribute pose")),
         s') /\
      goal_sent_count s' = goal_sent_count s + 1 /\
      goal_succeeded_count s' = goal_succeeded_count s /\
      goal_failed_count s' = goal_failed_count s /\
      current_goal s'
      = Some {| target_frame_id := fixed_frame (cfg s);
                target_pose := pose |} /\
      handle (Raised (AttributeError "NoneType object has no attribute pose"))
             s'
      = (Returned, finally s')) /\
  latest_ground_truth_pose_msg (init (cfg s)) = None /\
  (forall msg s0,
      latest_ground_truth_pose_msg (ground_truth_pose_callback msg s0)
      = Some msg).
Proof.
  split; [|split; [reflexivity|]].
  - unfold goal_iteration.
    destruct (dispatch it s) as [e s1|goal_msg s1] eqn:Hd.
    { exfalso. unfold dispatch in Hd. rewrite Hserver in Hd. cbn in Hd.
      pose proof (serve_all_same_dispatch_state
                    (inbound_at_wait_for_server it) s) as (_ & Ht & _).
      rewrite Ht, Hqueue in Hd. discriminate. }
    pose proof (dispatch_go _ _ _ _ Hd)
      as (rest' & Ht & Hfr & Ht1 & Hg & Hn & Hcfg & Hc & Hsu & Hfa & Hl
          & _ & _).
    pose proof (serve_all_same_dispatch_state
                  (inbound_at_wait_for_server it) s) as (_ & Ht0 & _).
    rewrite Ht0, Hqueue in Ht. injection Ht as Hpose Hrest.
    rewrite serve_all_no_ground_truth in Hl by assumption.
    pose proof (await_result_same it s1) as Ha.
    unfold await_result in *. rewrite Hwait, Hresult in *. cbn in *.
    set (s2 := serve_all (inbound_at_wait_for_result it) s1) in *.
    assert (Hl2 : latest_ground_truth_pose_msg s2 = None).
    { subst s2. rewrite serve_all_no_ground_truth by assumption.
      congruence. }
    unfold classify. rewrite Hstate. cbn. rewrite Hl2.
    destruct Ha as (_ & _ & _ & Hg2 & Hc2 & Hsu2 & Hfa2 & _).
    exists s2. split; [reflexivity|].
    repeat split; try congruence.
    rewrite Hg2, Hg. destruct goal_msg as [fr tp]; cbn in *. congruence.
  - intros msg s0. unfold ground_truth_pose_callback; cbn.
    destruct (run_started s0); reflexivity.
Qed.

End TurnClaims.


(** C3, as the specification states it, does not hold when the
    coordinates are Python floats and the robot is seen so far from
    the goal that the square of a difference is out of range: the
    Euclidean distance is not below the tolerance, yet the check
    raises [OverflowError], the goal is counted neither as failed nor
    as succeeded, no event [target_pose_not_reached] is written, and
    the run over the line of three vertices ends at its first goal
    instead of going on to the next. *)
Lemma distance_check_overflow_counterexample :
  PrimFloat.ltb
    (euclidean_distance (position (target_pose example_goal))
                        (position (odometry_pose (odometry_at far_away 0))))
    (goal_tolerance example_config)
  = false /\
  @classify python_runtime SUCCEEDED example_goal
            (example_seen_at far_away 0)
  = Fail (OverflowError "(34, 'Numerical result out of range')")
         (example_seen_at far_away 0) /\
  fst (@send_goals python_runtime 4 0 (fun _ => turn_seen_at far_away 0)
                   example_ready)
  = Raised (OverflowError "(34, 'Numerical result out of range')") /\
  match @main python_runtime
          (example_run line (fun _ => turn_seen_at far_away 0)) with
  | (o, Some s) =>
      (o, events (trace s),
       (goal_sent_count s, goal_succeeded_count s, goal_failed_count s))
  | (o, None) => (o, [], (0, 0, 0))
  end
  = (Returned, ["run_start"; "target_pose_set"], (1, 0, 0)).
Proof. repeat split; vm_compute; reflexivity. Qed.

(** A first turn in which navigation reports success and no ground
    truth pose has ever been received. *)
Lemma succeeded_without_ground_truth_witness :
  fst (@goal_iteration example_runtime quiet_turn example_ready)
  = Some (Raised (AttributeError "NoneType object has no attribute pose")).
Proof.
  destruct (@succeeded_without_ground_truth example_runtime quiet_turn
              example_ready (pose_at 10 0) [pose_at 0 0; pose_at 20 0]
              eq_refl eq_refl eq_refl eq_refl eq_refl eq_refl eq_refl
              eq_refl)
    as ((s' & Hg & _) & _).
  rewrite Hg. reflexivity.
Defined.

(* ================================================================= *)
(** ** The run as a whole: what reaches the trace, and how it ends *)

Section WholeRun.

Context {rt : PyRuntime}.

Lemma acts_app l1 l2 s : acts (l1 ++ l2) s = acts l2 (acts l1 s).
Proof. apply fold_left_app. Qed.

Lemma trace_acts l : forall s, trace (acts l s) = trace s ++ l.
Proof.
  induction l as [|a l IH]; intro s; cbn.
  - symmetry; apply app_nil_r.
  - unfold acts in IH. rewrite IH. cbn. rewrite <- app_assoc. reflexivity.
Qed.

Lemma trace_act a s : trace (act a s) = trace s ++ [a].
Proof. reflexivity. Qed.

Lemma trace_write_event e s : trace (write_event e s) = trace s ++ [Event e].
Proof. reflexivity. Qed.

Lemma acts_planner_same l :
  forall s, forallb is_planner_action l = true ->
            same_dispatch_state s (acts l s)
            /\ is_shutdown (acts l s) = is_shutdown s
            /\ latest_ground_truth_pose_msg (acts l s)
               = latest_ground_truth_pose_msg s.
Proof.
  induction l as [|a l IH]; intros s H.
  - split; [apply same_dispatch_state_refl|auto].
  - cbn in H. apply andb_true_iff in H. destruct H as [Ha Hl].
    change (acts (a :: l) s) with (acts l (act a s)).
    destruct (IH (act a s) Hl) as (H1 & H2 & H3).
    split; [|split; [rewrite H2|rewrite H3]; reflexivity].
    eapply same_dispatch_state_trans; [|exact H1].
    unfold same_dispatch_state; cbn.
    rewrite goals_sent_app, csv_files_app.
    destruct a; cbn in *; try discriminate;
      rewrite !app_nil_r; repeat split.
Qed.

(** The removal loop of the planner: its actions and its graph. *)
Lemma remove_components_split cs :
  forall s g,
    fold_left remove_component cs (s, g)
    = (acts (map RemoveNodesFrom cs) s,
       fold_left (fun g c => nx.remove_nodes_from c g) cs g).
Proof.
  induction cs as [|c cs IH]; intros s g; cbn; [reflexivity|].
  unfold remove_component at 2. cbn. apply IH.
Qed.

(** The planner adds its own actions to the trace, and nothing else
    changes. *)
Lemma traversal_path_acts env s :
  exists l,
    forallb is_planner_action l = true /\
    match traversal_path env s with
    | Fail _ s' | Go _ s' => s' = acts l s
    end.
Proof.
  unfold traversal_path.
  destruct (build_costs _ _) as [costs|].
  2:{ exists [AllPairsDijkstra (voronoi_graph env)]. split; reflexivity. }
  rewrite remove_components_split. cbn [fst snd].
  set (cs := too_small_components (voronoi_graph env)).
  set (s2 := acts (map RemoveNodesFrom cs) _).
  assert (Hs2 : s2 = acts ([AllPairsDijkstra (voronoi_graph env);
                            ConnectedComponents (voronoi_graph env)]
                           ++ map RemoveNodesFrom cs) s).
  { subst s2. rewrite acts_app. reflexivity. }
  assert (Hcs : forallb is_planner_action (map RemoveNodesFrom cs) = true).
  { clear. induction cs; cbn; auto. }
  destruct (_ <? 2).
  - eexists (_ ++ [_]). rewrite acts_app, <- Hs2. split; [|reflexivity].
    rewrite forallb_app. cbn. rewrite Hcs. reflexivity.
  - match goal with
    | |- context [act ?a s2] =>
        assert (Hs3 : act a s2
                      = acts (([AllPairsDijkstra (voronoi_graph env);
                                ConnectedComponents (voronoi_graph env)]
                               ++ map RemoveNodesFrom cs) ++ [a]) s)
          by (rewrite acts_app, <- Hs2; reflexivity);
        rewrite Hs3
    end.
    eexists. split; [|destruct (greedy_loop _ _ _ _ _) as [[e|l]|];
                       reflexivity].
    rewrite forallb_app. cbn. rewrite Hcs. reflexivity.
Qed.

Lemma plan_same env s :
  match plan env s with
  | Fail _ s' | Go _ s' =>
      same_dispatch_state s s' /\ is_shutdown s' = is_shutdown s
      /\ latest_ground_truth_pose_msg s' = latest_ground_truth_pose_msg s
  end.
Proof.
  unfold plan.
  destruct (traversal_path_acts env s) as (l & Hl & Ht).
  destruct (traversal_path env s) as [e s'|[pruned tour] s']; subst s'.
  - apply acts_planner_same; assumption.
  - destruct (tour_poses _ _ _ _); apply acts_planner_same; assumption.
Qed.

Lemma keeps_tables_same s s' : same_dispatch_state s s' -> keeps_tables s s'.
Proof. intros (H1 & _ & _ & _ & _ & _ & _ & _ & H2). split; assumption. Qed.

Lemma keeps_tables_trans s1 s2 s3 :
  keeps_tables s1 s2 -> keeps_tables s2 s3 -> keeps_tables s1 s3.
Proof. intros [H1 H2] [H3 H4]. split; congruence. Qed.

Lemma goal_iteration_keeps_tables it s :
  keeps_tables s (snd (goal_iteration it s)).
Proof.
  unfold goal_iteration.
  destruct (dispatch it s) as [e s1|goal_msg s1] eqn:Hd; cbn.
  { apply dispatch_fail in Hd. apply keeps_tables_same, Hd. }
  assert (H1 : keeps_tables s s1).
  { apply dispatch_go in Hd.
    destruct Hd as (rest & _ & _ & _ & _ & _ & Hcfg & _ & _ & _ & _ & _
                    & Htr).
    split; [exact Hcfg|]. rewrite Htr, csv_files_app; cbn.
    rewrite app_nil_r.
    apply (serve_all_same_dispatch_state (inbound_at_wait_for_server it) s). }
  pose proof (await_result_same it s1) as Ha.
  destruct (await_result it s1) as [e s2|[] s2]; cbn.
  { eapply keeps_tables_trans; [exact H1|apply keeps_tables_same, Ha]. }
  assert (H2 : keeps_tables s s2).
  { eapply keeps_tables_trans; [exact H1|apply keeps_tables_same, Ha]. }
  destruct (classify (navigation_state it) goal_msg s2)
    as [e s3|[] s3] eqn:Hk; cbn.
  { apply classify_fail in Hk. destruct Hk as (-> & _). exact H2. }
  apply classify_go in Hk.
  destruct Hk as (Hc & _ & _ & _ & _ & _ & _ & Hcsv & _).
  eapply keeps_tables_trans; [exact H2|].
  eapply keeps_tables_trans; [split; [exact Hc|exact Hcsv]|].
  apply keeps_tables_same, next_or_complete_same.
Qed.

Lemma send_goals_keeps_tables its fuel :
  forall k s, keeps_tables s (snd (send_goals fuel k its s)).
Proof.
  induction fuel as [|fuel IH]; intros k s; cbn; [split; reflexivity|].
  destruct (is_shutdown s); [split; reflexivity|].
  pose proof (goal_iteration_keeps_tables (its k) s) as H.
  destruct (goal_iteration (its k) s) as [[o|] s']; cbn in *; [exact H|].
  eapply keeps_tables_trans; [exact H|apply IH].
Qed.

Lemma wait_for_first_scan_spec polls :
  forall s,
    same_dispatch_state s (snd (wait_for_first_scan polls s)) /\
    (fst (wait_for_first_scan polls s) = false ->
     is_shutdown (snd (wait_for_first_scan polls s)) = false).
Proof.
  induction polls as [|cbs polls IH]; intro s; cbn.
  - destruct (received_first_scan s), (is_shutdown s) eqn:E; cbn;
      (split; [apply same_dispatch_state_refl|]); auto; discriminate.
  - destruct (received_first_scan s), (is_shutdown s) eqn:E; cbn;
      try (split; [apply same_dispatch_state_refl|discriminate]).
    destruct (IH (serve_all cbs s)) as [H1 H2].
    split; [|exact H2].
    eapply same_dispatch_state_trans;
      [apply serve_all_same_dispatch_state|exact H1].
Qed.

(** From the first scan on, the run returns or raises: the goal loop
    is given enough turns. *)
Lemma plan_and_run_spec env s :
  keeps_tables s (snd (plan_and_run env s)) /\
  (fst (plan_and_run env s) = Returned \/
   exists e, fst (plan_and_run env s) = Raised e).
Proof.
  unfold plan_and_run.
  pose proof (plan_same env s) as Hp.
  destruct (plan env s) as [e s'|l s'].
  - cbn. split; [apply keeps_tables_same, Hp|eauto].
  - match goal with
    | |- context [send_goals _ _ _ ?st] => set (s0 := st)
    end.
    assert (H0 : keeps_tables s s0).
    { destruct Hp as ((Hcfg & _ & _ & _ & _ & _ & _ & _ & Hcsv) & _).
      split; cbn; [exact Hcfg|].
      rewrite <- app_assoc, csv_files_app; cbn.
      rewrite app_nil_r. exact Hcsv. }
    split.
    + eapply keeps_tables_trans; [exact H0|apply send_goals_keeps_tables].
    + apply send_goals_ends with (tour := l); [reflexivity|lia].
Qed.

Lemma start_run_spec env s :
  keeps_tables s (snd (start_run env s)) /\
  (fst (start_run env s) = Returned \/
   (exists e, fst (start_run env s) = Raised e) \/
   (fst (start_run env s) = Hangs /\
    is_shutdown (snd (start_run env s)) = false)).
Proof.
  unfold start_run.
  destruct (wait_for_first_scan_spec (startup_polls env) s) as [Hw Hh].
  destruct (wait_for_first_scan (startup_polls env) s) as [[|] s1];
    cbn in *.
  - destruct (plan_and_run_spec env s1) as [H1 H2].
    split; [|tauto].
    eapply keeps_tables_trans; [apply keeps_tables_same, Hw|exact H1].
  - destruct (startup_interrupted env); cbn.
    + split; [apply keeps_tables_same, Hw|]. right; left. eauto.
    + split; [apply keeps_tables_same, Hw|]. right; right. auto.
Qed.

Lemma spin_spec polls :
  forall s,
    same_dispatch_state s (snd (spin polls s)) /\
    ((fst (spin polls s) = Returned /\
      is_shutdown (snd (spin polls s)) = true) \/
     (fst (spin polls s) = Hangs /\
      is_shutdown (snd (spin polls s)) = false)).
Proof.
  induction polls as [|cbs polls IH]; intro s; cbn.
  - destruct (is_shutdown s) eqn:E; cbn;
      (split; [apply same_dispatch_state_refl|]); auto.
  - destruct (is_shutdown s) eqn:E; cbn.
    + split; [apply same_dispatch_state_refl|]; auto.
    + destruct (IH (serve_all cbs s)) as [H1 H2]. split; [|exact H2].
      eapply same_dispatch_state_trans;
        [apply serve_all_same_dispatch_state|exact H1].
Qed.

(** The [finally] clause writes the three tables once and leaves the
    node shut down. *)
Lemma finally_spec s :
  csv_files (trace (finally s)) = csv_files (trace s) ++ pose_tables s /\
  pose_tables (finally s) = pose_tables s /\
  is_shutdown (finally s) = true.
Proof.
  unfold finally, end_run.
  destruct (is_shutdown s) eqn:E; cbn; rewrite E; cbn;
    rewrite <- ?app_assoc, !csv_files_app; cbn; auto.
Qed.

Lemma try_block_spec env s :
  keeps_tables s (snd (try_block env s)) /\
  (fst (try_block env s) = Returned \/
   (exists e, fst (try_block env s) = Raised e) \/
   (fst (try_block env s) = Hangs /\
    is_shutdown (snd (try_block env s)) = false)).
Proof.
  unfold try_block.
  destruct (start_run_spec env s) as [H1 H2].
  destruct (start_run env s) as [o s1]; cbn in *.
  destruct o; try (split; [exact H1|exact H2]).
  destruct (spin_spec (spin_polls env) s1) as [H3 H4].
  split.
  - eapply keeps_tables_trans; [exact H1|apply keeps_tables_same, H3].
  - destruct H4 as [[-> _]|[-> H4]]; auto.
Qed.

(** C6.  Once the node is constructed, [main] either blocks for ever
    with the node not shut down (no scan ever comes, or nothing ever
    shuts the node down) or returns; when it returns, whatever ended
    the run (completion, run timeout, interrupt, planning failure or
    any other exception), the trace holds exactly one serialization
    of each of the three buffered pose tables, to its own file and
    with the content the table has at the end. *)
Theorem finalization_exactly_once
        (env : Environment) (Hnode : construction env = None) :
  exists s,
    snd (main env) = Some s /\
    ((fst (main env) = Returned /\
      csv_files (trace s) = pose_tables s /\
      is_shutdown s = true) \/
     (fst (main env) = Hangs /\
      csv_files (trace s) = [] /\
      is_shutdown s = false)).
Proof.
  unfold main. rewrite Hnode. cbn.
  destruct (try_block_spec env (init (parameters env))) as [[Hc Ht] Ho].
  cbn in Ht.
  destruct (try_block env (init (parameters env))) as [o s1]; cbn in *.
  eexists; split; [reflexivity|].
  assert (Hfin : forall s2,
             cfg s2 = cfg s1 ->
             csv_files (trace s2) = [] ->
             estimated_poses_df s2 = estimated_poses_df s1 ->
             estimated_correction_poses_df s2
             = estimated_correction_poses_df s1 ->
             ground_truth_poses_df s2 = ground_truth_poses_df s1 ->
             csv_files (trace (finally s2)) = pose_tables (finally s2) /\
             is_shutdown (finally s2) = true).
  { intros s2 E1 E2 E3 E4 E5.
    destruct (finally_spec s2) as (F1 & F2 & F3).
    rewrite F1, F2, E2. auto. }
  destruct Ho as [->|[[e ->]|[-> Hs]]]; cbn.
  - left. split; [reflexivity|]. apply Hfin; auto.
  - left. destruct e; cbn; (split; [reflexivity|]); apply Hfin; auto.
    cbn. rewrite <- app_assoc, csv_files_app. cbn.
    rewrite app_nil_r. exact Ht.
  - right. auto.
Qed.

End WholeRun.

Section TimeoutClaim.

Context {rt : PyRuntime}.

(** With the server there and a pose in the queue, a goal is sent. *)
Lemma dispatch_sends it s pose rest :
  server_available it = true ->
  traversal_path_poses s = Some (pose :: rest) ->
  exists s1,
    dispatch it s
    = Go {| target_frame_id := fixed_frame (cfg s); target_pose := pose |}
         s1.
Proof.
  intros Hserver Hqueue. unfold dispatch. rewrite Hserver. cbn.
  pose proof (serve_all_same_dispatch_state
                (inbound_at_wait_for_server it) s) as (Hc & Ht & _).
  rewrite Ht, Hqueue, Hc. eexists. reflexivity.
Qed.

(** C4.  In a running goal loop with a pose to send, when the result
    of the goal does not come within the waypoint timeout: the goal
    was sent once, the events [waypoint_timeout] and
    [supervisor_finished] are the last two actions of the trace, the
    loop is left by [RunFailException] (the goal is not sent again),
    and [main] catches it and writes the three pose tables once. *)
Theorem waypoint_timeout_aborts
        (its : nat -> Iteration) (k fuel : nat) (s : Supervisor)
        (pose : Pose) (rest : list Pose)
        (Hrunning : is_shutdown s = false)
        (Hserver : server_available (its k) = true)
        (Hqueue : traversal_path_poses s = Some (pose :: rest))
        (Hwait : interrupted (its k) = false)
        (Hlate : result_in_time (its k) = false)
        (Hfresh : csv_files (trace s) = []) :
  exists s' t,
    send_goals (S fuel) k its s
    = (Raised (RunFailException "waypoint_timeout"), s') /\
    trace s' = t ++ [Event "waypoint_timeout"; Event "supervisor_finished"] /\
    goals_sent (trace s')
    = goals_sent (trace s)
      ++ [{| target_frame_id := fixed_frame (cfg s);
             target_pose := pose |}] /\
    handle (Raised (RunFailException "waypoint_timeout")) s'
    = (Returned, finally s') /\
    csv_files (trace (finally s')) = pose_tables (finally s').
Proof.
  destruct (dispatch_sends (its k) s pose rest Hserver Hqueue) as (s1 & Hd).
  pose proof (dispatch_go _ _ _ _ Hd)
    as (rest' & _ & _ & _ & _ & _ & Hcfg & _ & _ & _ & _ & _ & Htr).
  pose proof (serve_all_same_dispatch_state
                (inbound_at_wait_for_server (its k)) s)
    as (_ & _ & _ & _ & _ & _ & _ & Hgs0 & Hcsv0).
  pose proof (serve_all_same_dispatch_state
                (inbound_at_wait_for_result (its k)) s1)
    as (Hcfg2 & _ & _ & _ & _ & _ & _ & Hgs2 & Hcsv2).
  cbn [send_goals]. rewrite Hrunning.
  unfold goal_iteration. rewrite Hd.
  unfold await_result. rewrite Hwait, Hlate. cbn [negb].
  set (s2 := serve_all (inbound_at_wait_for_result (its k)) s1) in *.
  eexists. exists (trace s2). split; [reflexivity|].
  split; [cbn; rewrite <- app_assoc; reflexivity|].
  split.
  { cbn. rewrite <- app_assoc, goals_sent_app. cbn. rewrite app_nil_r.
    rewrite Hgs2, Htr, goals_sent_app, Hgs0. reflexivity. }
  split; [reflexivity|].
  match goal with |- context [finally ?st] => set (s3 := st) end.
  destruct (finally_spec s3) as (F1 & F2 & _).
  rewrite F1, F2.
  replace (csv_files (trace s3)) with (@nil (string * DataFrame));
    [reflexivity|].
  subst s3. cbn. rewrite <- app_assoc, csv_files_app. cbn.
  rewrite app_nil_r, Hcsv2, Htr, csv_files_app. cbn.
  rewrite app_nil_r, Hcsv0. symmetry; exact Hfresh.
Qed.

End TimeoutClaim.

(** The first goal of the example tour is not reached in time. *)
Lemma waypoint_timeout_aborts_witness :
  exists s',
    @send_goals example_runtime 4 0 (fun _ => late_turn) example_ready
    = (Raised (RunFailException "waypoint_timeout"), s') /\
    events (trace s')
    = ["target_pose_set"; "waypoint_timeout"; "supervisor_finished"] /\
    csv_files (trace (finally s')) = pose_tables (finally s').
Proof.
  destruct (@waypoint_timeout_aborts example_runtime (fun _ => late_turn)
              0 3 example_ready (pose_at 10 0) [pose_at 0 0; pose_at 20 0]
              eq_refl eq_refl eq_refl eq_refl eq_refl eq_refl)
    as (s' & t & Hrun & Htrace & _ & _ & Hcsv).
  exists s'. split; [exact Hrun|]. split; [|exact Hcsv].
  vm_compute in Hrun. injection Hrun as <-. reflexivity.
Defined.

(** A run over the line of three vertices in which navigation reports
    every goal as succeeded: [main] returns after one serialization of
    the three tables. *)
Lemma finalization_exactly_once_witness :
  exists s,
    @main example_runtime (example_run line (fun _ => turn_seen_at 10 0))
    = (Returned, Some s) /\
    csv_files (trace s) = pose_tables s /\
    is_shutdown s = true.
Proof.
  destruct (@finalization_exactly_once example_runtime
              (example_run line (fun _ => turn_seen_at 10 0)) eq_refl)
    as (s & Hs & [(Ho & Hc & Hd)|(Ho & _)]).
  - exists s. split; [|split; assumption].
    rewrite (surjective_pairing (main _)), Ho, Hs. reflexivity.
  - vm_compute in Ho. discriminate.
Defined.

(* ================================================================= *)
(** ** Recorders: the particle line and the snapshot files *)

Section StringFacts.

Lemma string_length_append (a b : string) :
  String.length (a ++ b) = String.length a + String.length b.
Proof. induction a as [|c a IH]; cbn; [reflexivity|]. rewrite IH; reflexivity. Qed.

Lemma string_append_assoc (a b c : string) :
  ((a ++ b) ++ c = a ++ (b ++ c))%string.
Proof. induction a as [|ch a IH]; cbn; [reflexivity|]. rewrite IH; reflexivity. Qed.

Lemma string_append_nil_r (a : string) : (a ++ "" = a)%string.
Proof. induction a as [|ch a IH]; cbn; [reflexivity|]. rewrite IH; reflexivity. Qed.

Lemma string_append_cancel_l (p a b : string) :
  (p ++ a = p ++ b)%string -> a = b.
Proof.
  induction p as [|c p IH]; cbn; intro H; [exact H|].
  injection H as H. auto.
Qed.


Lemma read_nat_str n : read_nat (nat_str n) = Some n.
Proof.
  unfold read_nat, nat_str. rewrite NilEmpty.usu. cbn.
  rewrite DecimalNat.Unsigned.of_to. reflexivity.
Qed.

Lemma read_zeros k s : read_nat (zeros k ++ s) = read_nat s.
Proof.
  induction k as [|k IH]; cbn; [reflexivity|].
  unfold read_nat in *. cbn.
  destruct (NilEmpty.uint_of_string (zeros k ++ s)) as [d|] eqn:E,
           (NilEmpty.uint_of_string s) as [d'|] eqn:E';
    cbn in *; try discriminate; auto.
Qed.


(** A relative name is appended to a prefix fixed by the folder. *)
Lemma path_join_relative a :
  exists pre, forall c b,
      c <> "/"%char ->
      path_join a (String c b) = (pre ++ String c b)%string.
Proof.
  destruct (last_char a) as [l|] eqn:E.
  - destruct (Ascii.ascii_dec l "/") as [->|Hl].
    + exists a. intros c b Hc. unfold path_join. rewrite E.
      destruct c as [[] [] [] [] [] [] [] []]; try reflexivity.
      contradiction Hc; reflexivity.
    + exists (a ++ "/")%string. intros c b Hc. unfold path_join. rewrite E.
      rewrite string_append_assoc.
      destruct c as [[] [] [] [] [] [] [] []];
        try (contradiction Hc; reflexivity);
        destruct l as [[] [] [] [] [] [] [] []];
        try reflexivity; contradiction Hl; reflexivity.
  - exists "". intros c b Hc. unfold path_join. rewrite E.
    destruct c as [[] [] [] [] [] [] [] []]; reflexivity.
Qed.


End StringFacts.

Section RecorderClaims.

Context {rt : PyRuntime}.

Lemma fold_add_particle ps :
  forall acc,
    fold_left add_particle ps acc
    = (acc ++ String.concat ""
                (map (fun p => String.concat ", "
                                 (map float_str
                                    [x (position p); y (position p);
                                     yaw (orientation p)])) ps))%string.
Proof.
  induction ps as [|p ps IH]; intro acc.
  - cbn. symmetry. apply string_append_nil_r.
  - cbn [fold_left map]. rewrite IH. unfold add_particle.
    rewrite string_append_assoc. f_equal.
    destruct ps; cbn; [apply string_append_nil_r|reflexivity].
Qed.

(** Once the run has started, a particle set adds one line to the
    particle file: the stamp, the frame, the number of particles,
    then the fields of the particles, three per particle, with
    nothing between one particle and the next. *)
Lemma amcl_particles_callback_line msg s :
  run_started s = true ->
  trace (amcl_particles_callback msg s)
  = trace s
    ++ [AppendLine
          (amcl_particles_file_path (cfg s))
          (float_str (stamp (particles_header msg)) ++ ", "
           ++ frame_id (particles_header msg) ++ ", "
           ++ nat_str (List.length (poses msg)) ++ ", "
           ++ String.concat ""
                (map (fun p => String.concat ", "
                                 (map float_str
                                    [x (position p); y (position p);
                                     yaw (orientation p)]))
                     (poses msg))
           ++ newline)].
Proof.
  intro H. unfold amcl_particles_callback. rewrite H. cbn.
  unfold amcl_particles_line. rewrite fold_add_particle. reflexivity.
Qed.

(** C7, at a particle set of two particles.  The line the recorder
    writes has the heading of the first particle followed at once
    by the x of the second, where the format of the file puts the
    separator: the line is two characters shorter than the line
    with every field separated. *)
Theorem amcl_particles_line_two_particles :
  amcl_particles_line two_particles
  = (float_str 1.5 ++ ", " ++ "map" ++ ", " ++ "2" ++ ", "
     ++ (float_str 1 ++ ", " ++ float_str 2 ++ ", "
         ++ float_str (yaw unit_quaternion))
     ++ (float_str 3 ++ ", " ++ float_str 4 ++ ", "
         ++ float_str (yaw unit_quaternion))
     ++ newline)%string /\
  separated_particles_line two_particles
  = (float_str 1.5 ++ ", " ++ "map" ++ ", " ++ "2" ++ ", "
     ++ (float_str 1 ++ ", " ++ float_str 2 ++ ", "
         ++ float_str (yaw unit_quaternion))
     ++ ", "
     ++ (float_str 3 ++ ", " ++ float_str 4 ++ ", "
         ++ float_str (yaw unit_quaternion))
     ++ newline)%string /\
  String.length (separated_particles_line two_particles)
  = String.length (amcl_particles_line two_particles) + 2 /\
  amcl_particles_line two_particles
  <> separated_particles_line two_particles.
Proof.
  assert (H1 : amcl_particles_line two_particles
               = (float_str 1.5 ++ ", " ++ "map" ++ ", " ++ "2" ++ ", "
                  ++ (float_str 1 ++ ", " ++ float_str 2 ++ ", "
                      ++ float_str (yaw unit_quaternion))
                  ++ (float_str 3 ++ ", " ++ float_str 4 ++ ", "
                      ++ float_str (yaw unit_quaternion))
                  ++ newline)%string).
  { unfold amcl_particles_line. rewrite fold_add_particle.
    repeat (progress cbn || rewrite string_append_assoc). reflexivity. }
  assert (H2 : separated_particles_line two_particles
               = (float_str 1.5 ++ ", " ++ "map" ++ ", " ++ "2" ++ ", "
                  ++ (float_str 1 ++ ", " ++ float_str 2 ++ ", "
                      ++ float_str (yaw unit_quaternion))
                  ++ ", "
                  ++ (float_str 3 ++ ", " ++ float_str 4 ++ ", "
                      ++ float_str (yaw unit_quaternion))
                  ++ newline)%string).
  { unfold separated_particles_line.
    repeat (progress cbn || rewrite string_append_assoc). reflexivity. }
  assert (H3 : String.length (separated_particles_line two_particles)
               = String.length (amcl_particles_line two_particles) + 2).
  { rewrite H1, H2. rewrite !string_length_append. cbn. lia. }
  repeat split; auto.
  intro E. rewrite E in H3. lia.
Qed.









End RecorderClaims.

(** C8, as the specification states it, does not hold at a tick whose
    dump fails with an exception other than [TypeError]: the file
    numbered by the counter is opened, the exception leaves the
    callback, and the counter is not incremented, so that the next
    tick opens the file of the same number again.  After two ticks
    on a new node one file has been opened twice and the counter is
    one. *)
Lemma snapshot_number_reused_counterexample :
  exists s1,
    ps_snapshot_timer_callback
      (fun _ => Some (process_with (Unpicklable (PicklingError "Can't pickle"))))
      None (init example_config)
    = Fail (PicklingError "Can't pickle") s1 /\
    ps_snapshot_count s1 = ps_snapshot_count (init example_config) /\
    pickle_files (trace s1)
    = [("/output/benchmark_data/ps_snapshots/ps_00000000.pkl", None)] /\
    snapshot_ticks
      [tick_with (Unpicklable (PicklingError "Can't pickle")); tick_all_gone]
    = 2 /\
    ps_snapshot_count
      (@serve_all example_runtime
         [tick_with (Unpicklable (PicklingError "Can't pickle"));
          tick_all_gone]
         (init example_config))
    = 1 /\
    pickle_files
      (trace (@serve_all example_runtime
                [tick_with (Unpicklable (PicklingError "Can't pickle"));
                 tick_all_gone]
                (init example_config)))
    = [("/output/benchmark_data/ps_snapshots/ps_00000000.pkl", None);
       ("/output/benchmark_data/ps_snapshots/ps_00000000.pkl", Some [])] /\
    ~ NoDup
        (map fst
           (pickle_files
              (trace (@serve_all example_runtime
                        [tick_with
                           (Unpicklable (PicklingError "Can't pickle"));
                         tick_all_gone]
                        (init example_config))))).
Proof.
  eexists. split; [vm_compute; reflexivity|].
  repeat (split; [vm_compute; reflexivity|]).
  intro Hnodup. vm_compute in Hnodup.
  inversion Hnodup as [|p l Hnotin _]. apply Hnotin. left. reflexivity.
Qed.

(* ================================================================= *)
(** ** Dictionaries over nodes *)

Section DictFacts.

Variable V : Type.

Lemma mem_In k l : mem k l = true <-> In k l.
Proof.
  unfold mem. rewrite existsb_exists. split.
  - intros (y & Hy & E). apply Nat.eqb_eq in E. subst; assumption.
  - intro H. exists k. split; [assumption|apply Nat.eqb_refl].
Qed.

Lemma mem_false k l : mem k l = false <-> ~ In k l.
Proof.
  rewrite <- mem_In. destruct (mem k l); split; congruence.
Qed.

Lemma mem_app k l1 l2 : mem k (l1 ++ l2) = mem k l1 || mem k l2.
Proof. apply existsb_app. Qed.

Lemma dict_get_In (d : list (node * V)) k :
  In k (keys d) <-> exists v, dict_get k d = Some v.
Proof.
  unfold keys.
  induction d as [|[k' v'] d IH]; cbn.
  - split; [contradiction|intros (v & H); discriminate].
  - destruct (Nat.eqb_spec k k') as [->|Hne].
    + split; eauto.
    + rewrite <- IH. split; [intros [H|H]; [congruence|auto]|auto].
Qed.

Lemma dict_get_None (d : list (node * V)) k :
  ~ In k (keys d) <-> dict_get k d = None.
Proof.
  rewrite dict_get_In.
  destruct (dict_get k d); split; intro H;
    try congruence; try (intros (v0 & ?); discriminate).
  exfalso; apply H; eauto.
Qed.

Lemma keys_dict_set (d : list (node * V)) k v :
  keys (dict_set k v d) = if mem k (keys d) then keys d else keys d ++ [k].
Proof.
  unfold keys.
  induction d as [|[k' v'] d IH]; cbn; [reflexivity|].
  rewrite (Nat.eqb_sym k k').
  destruct (Nat.eqb_spec k' k) as [->|Hne]; cbn; [reflexivity|].
  rewrite IH. unfold mem. destruct (existsb _ _); reflexivity.
Qed.

Lemma In_keys_dict_set (d : list (node * V)) k v j :
  In j (keys (dict_set k v d)) <-> j = k \/ In j (keys d).
Proof.
  rewrite keys_dict_set.
  destruct (mem k (keys d)) eqn:E.
  - apply mem_In in E. split; [auto|intros [->|H]; auto].
  - rewrite in_app_iff; cbn. split; [intros [H|[H|[]]]; auto|].
    intros [->|H]; auto.
Qed.

Lemma NoDup_keys_dict_set (d : list (node * V)) k v :
  NoDup (keys d) -> NoDup (keys (dict_set k v d)).
Proof.
  intro H. rewrite keys_dict_set.
  destruct (mem k (keys d)) eqn:E; [assumption|].
  apply mem_false in E.
  apply NoDup_app; [assumption|repeat constructor; auto| ].
  intros a Ha [<-|[]]. contradiction.
Qed.

Lemma dict_get_dict_set (d : list (node * V)) k v j :
  dict_get j (dict_set k v d)
  = if Nat.eqb j k then Some v else dict_get j d.
Proof.
  induction d as [|[k' v'] d IH]; cbn.
  - reflexivity.
  - destruct (Nat.eqb_spec k k') as [->|Hne]; cbn.
    + destruct (Nat.eqb j k'); reflexivity.
    + rewrite IH. destruct (Nat.eqb_spec j k') as [->|Hj].
      * destruct (Nat.eqb_spec k' k); [congruence|reflexivity].
      * reflexivity.
Qed.

End DictFacts.

(* ================================================================= *)
(** ** Connectivity *)

Section GraphFacts.

Variable g : nx.Graph.

Lemma has_node_In v : nx.has_node g v = true <-> In v (nx.node_ids g).
Proof. apply mem_In. Qed.

Lemma neighbors_spec u v w :
  In (v, w) (nx.neighbors g u) <->
  (In (u, v, w) (nx.edges g) \/ In (v, u, w) (nx.edges g)) /\
  In u (nx.node_ids g) /\ In v (nx.node_ids g).
Proof.
  unfold nx.neighbors. rewrite in_flat_map. split.
  - intros ([[a b] w'] & He & Hin).
    destruct (nx.has_node g a) eqn:Ha, (nx.has_node g b) eqn:Hb;
      cbn in Hin; try contradiction.
    apply has_node_In in Ha, Hb.
    destruct (Nat.eqb_spec a u) as [->|Hau].
    + destruct Hin as [E|[]]. injection E as -> ->. auto.
    + destruct (Nat.eqb_spec b u) as [->|Hbu]; [|contradiction].
      destruct Hin as [E|[]]. injection E as -> ->. auto.
  - intros ([He|He] & Hu & Hv); apply has_node_In in Hu, Hv.
    + exists (u, v, w). split; [assumption|].
      rewrite Hu, Hv, Nat.eqb_refl. cbn. auto.
    + exists (v, u, w). split; [assumption|].
      rewrite Hu, Hv, Nat.eqb_refl. cbn.
      destruct (Nat.eqb_spec v u) as [->|]; cbn; auto.
Qed.

Lemma adjacent_spec u v :
  adjacent g u v <->
  exists w,
    (In (u, v, w) (nx.edges g) \/ In (v, u, w) (nx.edges g)) /\
    In u (nx.node_ids g) /\ In v (nx.node_ids g).
Proof.
  unfold adjacent, keys. rewrite in_map_iff. split.
  - intros ([v' w] & E & H). cbn in E. subst v'.
    exists w. apply neighbors_spec, H.
  - intros (w & H). exists (v, w). split; [reflexivity|].
    apply neighbors_spec, H.
Qed.

Lemma adjacent_sym u v : adjacent g u v -> adjacent g v u.
Proof.
  rewrite !adjacent_spec. intros (w & H & Hu & Hv).
  exists w. tauto.
Qed.

Lemma adjacent_nodes u v :
  adjacent g u v -> In u (nx.node_ids g) /\ In v (nx.node_ids g).
Proof. rewrite adjacent_spec. intros (w & _ & H). exact H. Qed.

Lemma connected_nodes u v :
  connected g u v -> In u (nx.node_ids g) /\ In v (nx.node_ids g).
Proof.
  induction 1 as [Hu|w v Hc IH Ha]; [auto|].
  split; [apply IH|apply (adjacent_nodes _ _ Ha)].
Qed.

Lemma connected_trans u v w :
  connected g u v -> connected g v w -> connected g u w.
Proof.
  intros Huv Hvw. induction Hvw as [Hv|w' w Hc IH Ha]; [assumption|].
  eapply connected_step; eauto.
Qed.

Lemma connected_sym u v : connected g u v -> connected g v u.
Proof.
  induction 1 as [Hu|w v Hc IH Ha]; [constructor; assumption|].
  apply connected_trans with (v := w); [|assumption].
  apply connected_step with (w := v);
    [constructor; apply (adjacent_nodes _ _ Ha)|apply adjacent_sym, Ha].
Qed.

(** A set of nodes that holds [s], only nodes reached from [s], and
    every neighbour of its nodes, is the set of nodes reached from
    [s]. *)
Lemma closed_set_is_component s (l : list node) :
  In s l ->
  (forall v, In v l -> connected g s v) ->
  (forall v u, In v l -> adjacent g v u -> In u l) ->
  forall v, In v l <-> connected g s v.
Proof.
  intros Hs Hreach Hclosed v. split; [apply Hreach|].
  induction 1 as [_|w v Hc IH Ha]; [assumption|].
  eapply Hclosed; eauto.
Qed.

(** *** The breadth-first search *)

(** One level of the search. *)
Lemma bfs_level_spec level :
  forall seen next,
    let acc := fold_left (nx.bfs_visit g) level (seen, next) in
    incl seen (fst acc) /\
    incl next (snd acc) /\
    incl level (fst acc) /\
    (forall v, In v (fst acc) -> In v seen \/ In v level) /\
    (NoDup seen -> NoDup (fst acc)) /\
    (forall u, In u (snd acc) ->
               In u next \/
               exists v, In v level /\ adjacent g v u) /\
    (forall v u, In v (fst acc) -> ~ In v seen -> adjacent g v u ->
                 In u (snd acc)) /\
    List.length seen <= List.length (fst acc) /\
    (List.length (fst acc) = List.length seen -> snd acc = next).
Proof.
  induction level as [|a level IH]; intros seen next.
  - cbn. repeat split; auto using incl_refl; try tauto.
    intros v [].
  - cbn zeta. cbn [fold_left].
    assert (E : nx.bfs_visit g (seen, next) a
                = if mem a seen then (seen, next)
                  else (seen ++ [a], next ++ keys (nx.neighbors g a)))
      by reflexivity.
    rewrite E. clear E.
    destruct (mem a seen) eqn:Ea.
    + apply mem_In in Ea.
      specialize (IH seen next). cbn in IH.
      destruct IH as (H1 & H2 & H3 & H4 & H5 & H6 & H7 & H8 & H9).
      repeat apply conj.
      * exact H1.
      * exact H2.
      * intros v [<-|Hv]; [apply H1, Ea|apply H3, Hv].
      * intros v Hv. destruct (H4 v Hv); [left|right; right]; assumption.
      * exact H5.
      * intros u Hu. destruct (H6 u Hu) as [|(v & Hv & Ha)]; [auto|].
        right. exists v. split; [right|]; assumption.
      * exact H7.
      * exact H8.
      * exact H9.
    + apply mem_false in Ea.
      specialize (IH (seen ++ [a]) (next ++ keys (nx.neighbors g a))).
      cbn in IH.
      destruct IH as (H1 & H2 & H3 & H4 & H5 & H6 & H7 & H8 & H9).
      rewrite length_app in H8, H9. cbn in H8, H9.
      repeat apply conj.
      * intros v Hv. apply H1, in_or_app; auto.
      * intros v Hv. apply H2, in_or_app; auto.
      * intros v [<-|Hv]; [apply H1, in_or_app; cbn; auto|apply H3, Hv].
      * intros v Hv. destruct (H4 v Hv) as [H|H]; [|right; right; exact H].
        apply in_app_or in H.
        destruct H as [H|[<-|[]]]; [left; exact H|right; left; reflexivity].
      * intro Hnd. apply H5.
        apply NoDup_app; [assumption|repeat constructor; auto|].
        intros b Hb [<-|[]]. contradiction.
      * intros u Hu. destruct (H6 u Hu) as [H|(v & Hv & Ha)].
        -- apply in_app_or in H. destruct H as [H|H]; [left; exact H|].
           right. exists a. split; [left; reflexivity|exact H].
        -- right. exists v. split; [right|]; assumption.
      * intros v u Hv Hns Ha.
        destruct (Nat.eq_dec v a) as [->|Hva].
        -- apply H2, in_or_app. right. exact Ha.
        -- apply (H7 v u Hv); [|assumption].
           rewrite in_app_iff. cbn. intros [H|[H|[]]]; auto.
      * lia.
      * intro. lia.
Qed.

Variable s : node.
Hypothesis s_node : In s (nx.node_ids g).

Lemma NoDup_nodes_length (l : list node) :
  NoDup l -> incl l (nx.node_ids g) ->
  List.length l <= List.length (nx.nodes g).
Proof.
  intros Hnd Hincl. apply NoDup_incl_length in Hincl; [|assumption].
  unfold nx.node_ids, keys in Hincl. rewrite length_map in Hincl.
  exact Hincl.
Qed.

Lemma bfs_levels_spec fuel :
  forall seen level,
    bfs_inv g s seen level ->
    List.length (nx.nodes g) < fuel + List.length seen ->
    let r := nx.bfs_levels fuel g seen level in
    NoDup r /\ incl seen r /\ incl level r /\
    (forall v, In v r -> connected g s v) /\
    (forall v u, In v r -> adjacent g v u -> In u r).
Proof.
  induction fuel as [|fuel IH]; intros seen level (Hnd & Hreach & Hadj) Hlen.
  - exfalso.
    assert (List.length seen <= List.length (nx.nodes g)); [|cbn in *; lia].
    apply NoDup_nodes_length; [assumption|].
    intros v Hv. apply (connected_nodes _ _ (Hreach v (or_introl Hv))).
  - cbn [nx.bfs_levels]. destruct level as [|a level].
    + cbn. repeat split; auto using incl_refl.
      * intros v [].
      * intros v u Hv Ha. destruct (Hadj v u Hv Ha) as [|[]]; assumption.
    + set (lv := a :: level) in *.
      pose proof (bfs_level_spec lv seen []) as Hl. cbn zeta in Hl.
      set (acc := fold_left (nx.bfs_visit g) lv (seen, [])) in *.
      destruct Hl as (H1 & H2 & H3 & H4 & H5 & H6 & H7 & H8 & H9).
      assert (Hinv : bfs_inv g s (fst acc) (snd acc)).
      { split; [auto|]. split.
        - intros v [Hv|Hv].
          + apply Hreach. destruct (H4 v Hv); auto.
          + destruct (H6 v Hv) as [[]|(w & Hw & Ha)].
            eapply connected_step; [|exact Ha]. apply Hreach; auto.
        - intros v u Hv Ha.
          destruct (in_dec Nat.eq_dec v seen) as [Hs|Hs].
          + left. destruct (Hadj v u Hs Ha) as [H|H]; auto.
          + right. eapply H7; eauto. }
      destruct (Nat.eq_dec (List.length (fst acc)) (List.length seen))
        as [Heq|Hne].
      * (* nothing new: the next level is empty *)
        rewrite (H9 Heq).
        assert (Hr : nx.bfs_levels fuel g (fst acc) [] = fst acc)
          by (destruct fuel; reflexivity).
        rewrite Hr. destruct Hinv as (I1 & I2 & I3).
        rewrite (H9 Heq) in I2, I3.
        repeat split; auto.
        intros v u Hv Ha. destruct (I3 v u Hv Ha) as [|[]]; assumption.
      * assert (Hlen' : List.length (nx.nodes g)
                        < fuel + List.length (fst acc)) by lia.
        destruct (IH _ _ Hinv Hlen') as (R1 & R2 & R3 & R4 & R5).
        repeat split; auto.
        -- intros v Hv. apply R2, H1, Hv.
        -- intros v Hv. apply R2, H3, Hv.
Qed.

(** The search from a node of the graph gives, without repetition,
    the nodes reached from it. *)
Lemma plain_bfs_spec :
  NoDup (nx.plain_bfs g s) /\
  forall v, In v (nx.plain_bfs g s) <-> connected g s v.
Proof.
  unfold nx.plain_bfs.
  assert (Hinv : bfs_inv g s [] [s]).
  { split; [constructor|]. split.
    - intros v [[]|[<-|[]]]. constructor. exact s_node.
    - intros v u []. }
  destruct (bfs_levels_spec (S (S (List.length (nx.nodes g)))) _ _ Hinv)
    as (R1 & R2 & R3 & R4 & R5); [cbn; lia|].
  split; [exact R1|].
  apply closed_set_is_component; auto.
  apply R3. left; reflexivity.
Qed.

End GraphFacts.

(* ================================================================= *)
(** ** Dijkstra's search reaches the component of its source *)

Section DijkstraFacts.

Variable g : nx.Graph.

Lemma least_entry_In l :
  forall best, In (nx.least_entry best l) (best :: l).
Proof.
  induction l as [|e l IH]; intro best; cbn; [auto|].
  destruct (IH (if nx.entry_ltb e best then e else best)) as [H|H];
    [|auto].
  destruct (nx.entry_ltb e best); rewrite <- H; auto.
Qed.

Lemma fringe_In st e :
  In e (nx.fringe st) <->
  In e (nx.seen st) /\ ~ In (fst e) (keys (nx.dist st)).
Proof.
  unfold nx.fringe. rewrite filter_In, negb_true_iff, mem_false.
  reflexivity.
Qed.

Lemma pop_Some st v d :
  nx.pop st = Some (v, d) ->
  In v (keys (nx.seen st)) /\ ~ In v (keys (nx.dist st)).
Proof.
  unfold nx.pop. destruct (nx.fringe st) as [|e l] eqn:E; [discriminate|].
  intro H. injection H as <- _.
  pose proof (least_entry_In l e) as Hin. rewrite <- E in Hin.
  apply fringe_In in Hin. destruct Hin as [H1 H2].
  split; [|exact H2]. apply in_map. exact H1.
Qed.

Lemma pop_None st :
  nx.pop st = None -> incl (keys (nx.seen st)) (keys (nx.dist st)).
Proof.
  unfold nx.pop. destruct (nx.fringe st) as [|e l] eqn:E; [|discriminate].
  intros _ v Hv.
  destruct (in_dec Nat.eq_dec v (keys (nx.dist st))) as [H|H]; [exact H|].
  exfalso. unfold keys in Hv. apply in_map_iff in Hv.
  destruct Hv as (e & <- & He).
  assert (Hf : In e (nx.fringe st)) by (apply fringe_In; auto).
  rewrite E in Hf. exact Hf.
Qed.

(** One edge out of the node that was settled. *)
Lemma relax_spec v d st ue :
  let st' := nx.relax v d st ue in
  nx.dist st' = nx.dist st /\
  (keys (nx.paths st) = keys (nx.seen st) ->
   keys (nx.paths st') = keys (nx.seen st')) /\
  (NoDup (keys (nx.seen st)) -> NoDup (keys (nx.seen st'))) /\
  incl (keys (nx.seen st)) (keys (nx.seen st')) /\
  (forall u, In u (keys (nx.seen st')) ->
             In u (keys (nx.seen st)) \/ u = fst ue) /\
  (In (fst ue) (keys (nx.dist st)) \/ In (fst ue) (keys (nx.seen st'))).
Proof.
  unfold nx.relax. cbn zeta.
  destruct (mem (fst ue) (keys (nx.dist st))) eqn:Ed.
  { apply mem_In in Ed. repeat apply conj; auto using incl_refl. }
  assert (Hset : forall t p,
             let st' := {| nx.dist := nx.dist st;
                           nx.seen := dict_set (fst ue) t (nx.seen st);
                           nx.paths := dict_set (fst ue) p (nx.paths st);
                           nx.pushes := S (nx.pushes st) |} in
             nx.dist st' = nx.dist st /\
             (keys (nx.paths st) = keys (nx.seen st) ->
              keys (nx.paths st') = keys (nx.seen st')) /\
             (NoDup (keys (nx.seen st)) -> NoDup (keys (nx.seen st'))) /\
             incl (keys (nx.seen st)) (keys (nx.seen st')) /\
             (forall u, In u (keys (nx.seen st')) ->
                        In u (keys (nx.seen st)) \/ u = fst ue) /\
             (In (fst ue) (keys (nx.dist st))
              \/ In (fst ue) (keys (nx.seen st')))).
  { intros t p. cbn [nx.dist nx.seen nx.paths]. repeat apply conj.
    - reflexivity.
    - intro H. rewrite !keys_dict_set, H. reflexivity.
    - apply NoDup_keys_dict_set.
    - intros u Hu. apply In_keys_dict_set. auto.
    - intros u Hu. apply In_keys_dict_set in Hu. tauto.
    - right. apply In_keys_dict_set. auto. }
  destruct (dict_get (fst ue) (nx.seen st)) as [[seen_u c]|] eqn:Es.
  - destruct (PrimFloat.ltb _ _); [apply Hset|].
    repeat apply conj; auto using incl_refl.
    right. apply dict_get_In. eauto.
  - apply Hset.
Qed.

(** All the edges out of the node that was settled. *)
Lemma relax_all_spec v d nbrs :
  forall st,
    let st' := fold_left (nx.relax v d) nbrs st in
    nx.dist st' = nx.dist st /\
    (keys (nx.paths st) = keys (nx.seen st) ->
     keys (nx.paths st') = keys (nx.seen st')) /\
    (NoDup (keys (nx.seen st)) -> NoDup (keys (nx.seen st'))) /\
    incl (keys (nx.seen st)) (keys (nx.seen st')) /\
    (forall u, In u (keys (nx.seen st')) ->
               In u (keys (nx.seen st)) \/ In u (keys nbrs)) /\
    (forall u, In u (keys nbrs) ->
               In u (keys (nx.dist st)) \/ In u (keys (nx.seen st'))).
Proof.
  induction nbrs as [|ue nbrs IH]; intro st.
  - cbn. repeat apply conj; auto using incl_refl. intros u [].
  - cbn zeta. cbn [fold_left].
    pose proof (relax_spec v d st ue) as Hr. cbn zeta in Hr.
    destruct Hr as (R1 & R2 & R3 & R4 & R5 & R6).
    specialize (IH (nx.relax v d st ue)). cbn zeta in IH.
    destruct IH as (H1 & H2 & H3 & H4 & H5 & H6).
    repeat apply conj.
    + congruence.
    + auto.
    + auto.
    + intros u Hu. apply H4, R4, Hu.
    + intros u Hu. destruct (H5 u Hu) as [H|H].
      * destruct (R5 u H) as [H' | ->]; [auto|]. right; left; reflexivity.
      * right; right; exact H.
    + intros u [<-|Hu].
      * destruct R6 as [H|H]; [auto|]. right. apply H4, H.
      * rewrite <- R1. apply H6, Hu.
Qed.

Variable s : node.
Hypothesis s_node : In s (nx.node_ids g).

(** Settling the node that was popped keeps the invariant. *)
Lemma settle_inv st v d :
  dijkstra_inv g s st ->
  nx.pop st = Some (v, d) ->
  dijkstra_inv g s (nx.settle g st v d) /\
  List.length (nx.dist (nx.settle g st v d)) = S (List.length (nx.dist st)) /\
  incl (keys (nx.seen st)) (keys (nx.seen (nx.settle g st v d))) /\
  connected g s v.
Proof.
  intros (I1 & I2 & I3 & I4 & I5 & I6) Ep.
  apply pop_Some in Ep. destruct Ep as [Hv Hnv].
  unfold nx.settle.
  set (st1 := {| nx.dist := nx.dist st ++ [(v, d)];
                 nx.seen := nx.seen st;
                 nx.paths := nx.paths st;
                 nx.pushes := nx.pushes st |}).
  pose proof (relax_all_spec v d (nx.neighbors g v) st1) as Hr.
  cbn zeta in Hr.
  set (st2 := fold_left (nx.relax v d) (nx.neighbors g v) st1) in *.
  destruct Hr as (R1 & R2 & R3 & R4 & R5 & R6). cbn in R1, R2, R3, R4, R5.
  assert (Hd2 : keys (nx.dist st2) = keys (nx.dist st) ++ [v]).
  { rewrite R1. cbn. unfold keys. rewrite map_app. reflexivity. }
  split; [|split; [|split]].
  - repeat apply conj.
    + auto.
    + auto.
    + rewrite Hd2. apply NoDup_app; [assumption|repeat constructor; auto|].
      intros a Ha [<-|[]]. contradiction.
    + rewrite Hd2. intros u Hu. apply in_app_or in Hu.
      destruct Hu as [Hu|[<-|[]]]; apply R4; auto.
    + intros u Hu. destruct (R5 u Hu) as [H|H]; [auto|].
      eapply connected_step; [apply I5, Hv|exact H].
    + rewrite Hd2. intros x u Hx Ha. apply in_app_or in Hx.
      destruct Hx as [Hx|[<-|[]]].
      * apply R4. eapply I6; eauto.
      * destruct (R6 u Ha) as [H|H]; [|exact H].
        cbn in H. unfold keys in H. rewrite map_app in H.
        apply in_app_or in H. destruct H as [H|[<-|[]]].
        -- apply R4, I4, H.
        -- apply R4, Hv.
  - rewrite R1. cbn. rewrite length_app. cbn. lia.
  - exact R4.
  - apply I5, Hv.
Qed.

Lemma dijkstra_settled_length st :
  dijkstra_inv g s st -> List.length (nx.dist st) <= List.length (nx.nodes g).
Proof.
  intros (I1 & I2 & I3 & I4 & I5 & I6).
  assert (List.length (keys (nx.dist st)) <= List.length (nx.nodes g)).
  { apply NoDup_nodes_length; [assumption|].
    intros v Hv. apply (connected_nodes _ _ _ (I5 v (I4 v Hv))). }
  unfold keys in H. rewrite length_map in H. exact H.
Qed.

Lemma dijkstra_loop_spec fuel :
  forall st,
    dijkstra_inv g s st ->
    List.length (nx.nodes g) < fuel + List.length (nx.dist st) ->
    let r := nx.dijkstra_loop fuel g st in
    dijkstra_inv g s r /\
    incl (keys (nx.seen r)) (keys (nx.dist r)) /\
    incl (keys (nx.seen st)) (keys (nx.seen r)).
Proof.
  induction fuel as [|fuel IH]; intros st Hinv Hlen.
  - exfalso. pose proof (dijkstra_settled_length st Hinv). cbn in Hlen. lia.
  - cbn zeta. cbn [nx.dijkstra_loop].
    destruct (nx.pop st) as [[v d]|] eqn:Ep.
    2:{ split; [exact Hinv|].
        split; [apply pop_None, Ep|apply incl_refl]. }
    destruct (settle_inv st v d Hinv Ep) as (Hinv2 & Hlen2 & Hincl & _).
    destruct (IH (nx.settle g st v d) Hinv2) as (F1 & F2 & F3); [lia|].
    split; [exact F1|]. split; [exact F2|].
    intros u Hu. apply F3, Hincl, Hu.
Qed.

(** With enough turns to settle every node, more turns change nothing. *)
Lemma dijkstra_loop_more_fuel fuel :
  forall st extra,
    dijkstra_inv g s st ->
    List.length (nx.nodes g) < fuel + List.length (nx.dist st) ->
    nx.dijkstra_loop (fuel + extra) g st = nx.dijkstra_loop fuel g st.
Proof.
  induction fuel as [|fuel IH]; intros st extra Hinv Hlen.
  - exfalso. pose proof (dijkstra_settled_length st Hinv). cbn in Hlen. lia.
  - cbn [Nat.add nx.dijkstra_loop].
    destruct (nx.pop st) as [[v d]|] eqn:Ep; [|reflexivity].
    destruct (settle_inv st v d Hinv Ep) as (Hinv2 & Hlen2 & _).
    apply IH; [exact Hinv2|lia].
Qed.

(** The search from a node of the graph: the keys of the paths are,
    without repetition, the nodes reached from the source, and each
    of them has a distance. *)
Lemma dijkstra_spec :
  NoDup (keys (nx.paths (nx.dijkstra g s))) /\
  (forall v, In v (keys (nx.paths (nx.dijkstra g s))) <-> connected g s v) /\
  (forall v, In v (keys (nx.paths (nx.dijkstra g s))) ->
             exists c, dict_get v (nx.dist (nx.dijkstra g s)) = Some c).
Proof.
  unfold nx.dijkstra.
  set (st0 := {| nx.dist := []; nx.seen := [(s, (0%float, 0))];
                 nx.paths := [(s, [s])]; nx.pushes := 1 |}).
  assert (Hinv : dijkstra_inv g s st0).
  { repeat apply conj; cbn.
    - reflexivity.
    - repeat constructor. intros [].
    - constructor.
    - intros v [].
    - intros v [<-|[]]. constructor. exact s_node.
    - intros v u []. }
  destruct (dijkstra_loop_spec (S (List.length (nx.nodes g))) st0 Hinv)
    as ((I1 & I2 & I3 & I4 & I5 & I6) & F2 & F3); [cbn; lia|].
  set (r := nx.dijkstra_loop _ g st0) in *.
  rewrite I1. split; [exact I2|]. split.
  - apply closed_set_is_component.
    + apply F3. left; reflexivity.
    + exact I5.
    + intros v u Hv Ha. eapply I6; eauto.
  - intros v Hv. apply dict_get_In, F2, Hv.
Qed.

End DijkstraFacts.

(* ================================================================= *)
(** ** Components and the pruned graph *)

Section ComponentFacts.

Variable g : nx.Graph.

Lemma same_nodes_length (l1 l2 : list node) :
  NoDup l1 -> NoDup l2 -> same_nodes l1 l2 ->
  List.length l1 = List.length l2.
Proof.
  intros H1 H2 H. apply Permutation_length.
  apply NoDup_Permutation; assumption.
Qed.

(** Nodes of one component have the same component. *)
Lemma plain_bfs_connected u v :
  connected g u v -> same_nodes (nx.plain_bfs g u) (nx.plain_bfs g v).
Proof.
  intros Huv w.
  destruct (connected_nodes _ _ _ Huv) as [Hu Hv].
  rewrite (proj2 (plain_bfs_spec g u Hu) w),
          (proj2 (plain_bfs_spec g v Hv) w).
  split; intro H.
  - eapply connected_trans; [apply connected_sym, Huv|exact H].
  - eapply connected_trans; [exact Huv|exact H].
Qed.

Lemma plain_bfs_length u v :
  connected g u v ->
  List.length (nx.plain_bfs g u) = List.length (nx.plain_bfs g v).
Proof.
  intro H. destruct (connected_nodes _ _ _ H) as [Hu Hv].
  apply same_nodes_length.
  - apply (plain_bfs_spec g u Hu).
  - apply (plain_bfs_spec g v Hv).
  - apply plain_bfs_connected, H.
Qed.

(** Every component listed is the component of a node, and every
    node is in a component listed or already seen. *)
Lemma components_from_spec vs :
  forall seen,
    incl vs (nx.node_ids g) ->
    (forall c, In c (nx.components_from g vs seen) ->
               exists r, In r vs /\ c = nx.plain_bfs g r) /\
    (forall v, In v vs ->
               In v seen \/
               exists c, In c (nx.components_from g vs seen) /\ In v c).
Proof.
  induction vs as [|a vs IH]; intros seen Hincl.
  - cbn. split; [intros c []|intros v []].
  - assert (Ha : In a (nx.node_ids g)) by (apply Hincl; left; reflexivity).
    assert (Hvs : incl vs (nx.node_ids g))
      by (intros v Hv; apply Hincl; right; exact Hv).
    cbn [nx.components_from]. destruct (mem a seen) eqn:Ea.
    + destruct (IH seen Hvs) as [H1 H2]. split.
      * intros c Hc. destruct (H1 c Hc) as (r & Hr & E).
        exists r. split; [right|]; assumption.
      * intros v [<-|Hv]; [left; apply mem_In, Ea|apply H2, Hv].
    + destruct (IH (seen ++ nx.plain_bfs g a) Hvs) as [H1 H2]. split.
      * intros c [<-|Hc].
        -- exists a. split; [left|]; reflexivity.
        -- destruct (H1 c Hc) as (r & Hr & E).
           exists r. split; [right|]; assumption.
      * intros v [<-|Hv].
        -- right. exists (nx.plain_bfs g a). split; [left; reflexivity|].
           apply (plain_bfs_spec g a Ha). constructor. exact Ha.
        -- destruct (H2 v Hv) as [H|(c & Hc & Hvc)].
           ++ apply in_app_or in H. destruct H as [H|H]; [left; exact H|].
              right. exists (nx.plain_bfs g a).
              split; [left; reflexivity|exact H].
           ++ right. exists c. split; [right|]; assumption.
Qed.

Lemma connected_components_spec :
  (forall c, In c (nx.connected_components g) ->
             exists r, In r (nx.node_ids g) /\ c = nx.plain_bfs g r) /\
  (forall v, In v (nx.node_ids g) ->
             exists c, In c (nx.connected_components g) /\ In v c).
Proof.
  destruct (components_from_spec (nx.node_ids g) [] (incl_refl _))
    as [H1 H2].
  split; [exact H1|].
  intros v Hv. destruct (H2 v Hv) as [[]|H]. exact H.
Qed.

(** Removing several sets of nodes, one after the other. *)
Lemma remove_all_spec cs :
  forall g0,
    let g' := fold_left (fun g c => nx.remove_nodes_from c g) cs g0 in
    (forall n, In n (nx.nodes g') <->
               In n (nx.nodes g0) /\ forall c, In c cs -> ~ In (fst n) c) /\
    (forall a b w, In (a, b, w) (nx.edges g') <->
                   In (a, b, w) (nx.edges g0) /\
                   forall c, In c cs -> ~ In a c /\ ~ In b c) /\
    (NoDup (nx.node_ids g0) -> NoDup (nx.node_ids g')).
Proof.
  induction cs as [|c cs IH]; intro g0.
  - cbn. repeat apply conj; auto; intros; tauto.
  - cbn zeta. cbn [fold_left].
    specialize (IH (nx.remove_nodes_from c g0)). cbn zeta in IH.
    destruct IH as (H1 & H2 & H3).
    repeat apply conj.
    + intro n. rewrite H1. cbn. rewrite filter_In, negb_true_iff, mem_false.
      split.
      * intros [[Hn Hc] Hcs]. split; [exact Hn|].
        intros c' [<-|Hc']; auto.
      * intros [Hn Hcs]. split; [split|].
        -- exact Hn.
        -- apply Hcs. left; reflexivity.
        -- intros c' Hc'. apply Hcs. right; exact Hc'.
    + intros a b w. rewrite H2. cbn.
      rewrite filter_In, andb_true_iff, !negb_true_iff, !mem_false.
      split.
      * intros [[He Hc] Hcs]. split; [exact He|].
        intros c' [<-|Hc']; auto.
      * intros [He Hcs]. split; [split; [exact He|split]|].
        -- apply (Hcs c). left; reflexivity.
        -- apply (Hcs c). left; reflexivity.
        -- intros c' Hc'. apply Hcs. right; assumption.
    + intro Hnd. apply H3. unfold nx.node_ids, keys in *. cbn.
      clear -Hnd. induction (nx.nodes g0) as [|n l IHl]; cbn; [constructor|].
      cbn in Hnd. inversion Hnd as [|? ? Hn Hl]; subst.
      destruct (negb (mem (fst n) c)); cbn; [|auto].
      constructor; [|auto].
      intro H. apply Hn. apply in_map_iff in H.
      destruct H as (m & E & Hm). apply filter_In in Hm.
      apply in_map_iff. exists m. tauto.
Qed.

Lemma In_node_ids (g0 : nx.Graph) v :
  In v (nx.node_ids g0) <-> exists p, In (v, p) (nx.nodes g0).
Proof.
  unfold nx.node_ids, keys. rewrite in_map_iff. split.
  - intros ([v' p] & E & H). cbn in E. subst. eauto.
  - intros (p & H). exists (v, p). auto.
Qed.

(** A node stays in the pruned graph when its component has two
    nodes or more. *)
Lemma pruned_node v :
  In v (nx.node_ids (pruned_graph g)) <->
  In v (nx.node_ids g) /\ 2 <= List.length (nx.plain_bfs g v).
Proof.
  unfold pruned_graph.
  pose proof (remove_all_spec (too_small_components g) g) as Hr.
  cbn zeta in Hr. destruct Hr as (H1 & _ & _).
  destruct connected_components_spec as [C1 C2].
  rewrite !In_node_ids. split.
  - intros (p & Hp). apply H1 in Hp. cbn in Hp. destruct Hp as [Hn Hcs].
    split; [eauto|].
    assert (Hv : In v (nx.node_ids g)) by (apply In_node_ids; eauto).
    destruct (C2 v Hv) as (c & Hc & Hvc).
    destruct (C1 c Hc) as (r & Hr & ->).
    assert (Hrv : connected g r v) by (apply (plain_bfs_spec g r Hr), Hvc).
    rewrite <- (plain_bfs_length _ _ Hrv).
    destruct (le_lt_dec 2 (List.length (nx.plain_bfs g r))) as [|Hlt];
      [assumption|].
    exfalso. apply (Hcs (nx.plain_bfs g r)); [|exact Hvc].
    unfold too_small_components. apply filter_In. split; [exact Hc|].
    apply Nat.ltb_lt. exact Hlt.
  - intros [(p & Hp) Hlen]. exists p. apply H1. split; [exact Hp|].
    cbn. intros c Hc Hvc.
    unfold too_small_components in Hc. apply filter_In in Hc.
    destruct Hc as [Hc Hsmall]. apply Nat.ltb_lt in Hsmall.
    destruct (C1 c Hc) as (r & Hr & ->).
    assert (Hrv : connected g r v) by (apply (plain_bfs_spec g r Hr), Hvc).
    rewrite (plain_bfs_length _ _ Hrv) in Hsmall. lia.
Qed.

Lemma pruned_edge a b w :
  In (a, b, w) (nx.edges (pruned_graph g)) <->
  In (a, b, w) (nx.edges g) /\
  forall c, In c (too_small_components g) -> ~ In a c /\ ~ In b c.
Proof.
  unfold pruned_graph.
  pose proof (remove_all_spec (too_small_components g) g) as Hr.
  cbn zeta in Hr. destruct Hr as (_ & H2 & _). apply H2.
Qed.

Lemma pruned_node_not_small v c :
  In v (nx.node_ids (pruned_graph g)) ->
  In c (too_small_components g) -> ~ In v c.
Proof.
  intros Hv Hc Hvc. apply In_node_ids in Hv. destruct Hv as (p & Hp).
  unfold pruned_graph in Hp.
  pose proof (remove_all_spec (too_small_components g) g) as Hr.
  cbn zeta in Hr. destruct Hr as (H1 & _ & _).
  apply H1 in Hp. destruct Hp as [_ Hcs]. apply (Hcs c Hc Hvc).
Qed.

(** In the pruned graph two nodes are neighbours when they are
    neighbours in the graph and both stay. *)
Lemma pruned_adjacent u v :
  adjacent (pruned_graph g) u v <->
  adjacent g u v /\
  In u (nx.node_ids (pruned_graph g)) /\
  In v (nx.node_ids (pruned_graph g)).
Proof.
  rewrite !adjacent_spec. split.
  - intros (w & He & Hu & Hv). split; [|auto].
    exists w. rewrite !pruned_edge in He.
    apply pruned_node in Hu, Hv. tauto.
  - intros ((w & He & _ & _) & Hu & Hv).
    exists w. split; [|auto]. rewrite !pruned_edge.
    destruct He as [He|He]; [left|right]; (split; [exact He|]);
      intros c Hc; split; apply pruned_node_not_small; assumption.
Qed.

(** Pruning removes whole components: from a node that stays, the
    same nodes are reached in the pruned graph and in the graph. *)
Lemma pruned_connected u v :
  In u (nx.node_ids (pruned_graph g)) ->
  (connected (pruned_graph g) u v <-> connected g u v).
Proof.
  intro Hu. split.
  - induction 1 as [H|w v Hc IH Ha].
    + constructor. apply pruned_node in H. tauto.
    + eapply connected_step; [exact IH|].
      apply pruned_adjacent in Ha. tauto.
  - induction 1 as [H|w v Hc IH Ha].
    + constructor. exact Hu.
    + eapply connected_step; [exact IH|].
      apply pruned_adjacent. split; [exact Ha|].
      assert (Hw : In w (nx.node_ids (pruned_graph g)))
        by (apply (connected_nodes _ _ _ IH)).
      split; [exact Hw|].
      apply pruned_node. apply pruned_node in Hw.
      destruct Hw as [Hw Hlen]. split; [apply (adjacent_nodes _ _ _ Ha)|].
      rewrite <- (plain_bfs_length w v); [exact Hlen|].
      eapply connected_step; [constructor; exact Hw|exact Ha].
Qed.

(** The component of a node of the pruned graph: the same nodes as
    in the graph, two or more. *)
Lemma pruned_component u :
  In u (nx.node_ids (pruned_graph g)) ->
  NoDup (nx.plain_bfs (pruned_graph g) u) /\
  (forall v, In v (nx.plain_bfs (pruned_graph g) u) <-> connected g u v) /\
  2 <= List.length (nx.plain_bfs (pruned_graph g) u).
Proof.
  intro Hu.
  destruct (plain_bfs_spec (pruned_graph g) u Hu) as [Hnd Hin].
  assert (Hsame : forall v, In v (nx.plain_bfs (pruned_graph g) u)
                            <-> connected g u v).
  { intro v. rewrite Hin. apply pruned_connected, Hu. }
  split; [exact Hnd|]. split; [exact Hsame|].
  apply pruned_node in Hu. destruct Hu as [Hu Hlen].
  rewrite (same_nodes_length (nx.plain_bfs (pruned_graph g) u)
                             (nx.plain_bfs g u)); [exact Hlen|exact Hnd| |].
  - apply (plain_bfs_spec g u Hu).
  - intro v. rewrite Hsame. symmetry. apply (plain_bfs_spec g u Hu).
Qed.

End ComponentFacts.

(* ================================================================= *)
(** ** The table of costs and the greedy loop *)

Section CostFacts.

Lemma costs_row_dict_set i r (costs : Costs) i' :
  costs_row i' (dict_set i r costs)
  = if Nat.eqb i' i then r else costs_row i' costs.
Proof.
  unfold costs_row. rewrite dict_get_dict_set.
  destruct (Nat.eqb i' i); reflexivity.
Qed.

Lemma fold_costs_row L i js :
  forall acc,
    fold_left (fun acc (ij : node * node) =>
                 costs_insert L (fst ij) acc (snd ij))
              (map (fun j => (i, j)) js) acc
    = fold_left (costs_insert L i) js acc.
Proof.
  induction js as [|j js IH]; intro acc; cbn; [reflexivity|apply IH].
Qed.

Lemma build_costs_pairs P L :
  build_costs P L
  = fold_left (fun acc (ij : node * node) =>
                 costs_insert L (fst ij) acc (snd ij))
              (cost_pairs P) (Some []).
Proof.
  unfold build_costs, cost_pairs.
  generalize (Some (@nil (node * list (node * float)))).
  induction P as [|[i d] P IH]; intro acc; [reflexivity|].
  cbn [fold_left flat_map fst snd].
  rewrite fold_left_app, IH, fold_costs_row. reflexivity.
Qed.

Lemma fold_costs_spec L pairs :
  forall costs0,
    (forall i j, In (i, j) pairs -> i <> j ->
                 exists li c, dict_get i L = Some li /\
                              dict_get j li = Some c) ->
    (forall i, NoDup (keys (costs_row i costs0))) ->
    exists costs,
      fold_left (fun acc (ij : node * node) =>
                   costs_insert L (fst ij) acc (snd ij))
                pairs (Some costs0) = Some costs /\
      (forall i, NoDup (keys (costs_row i costs))) /\
      (forall i j, In j (keys (costs_row i costs)) <->
                   In j (keys (costs_row i costs0)) \/
                   (In (i, j) pairs /\ i <> j)).
Proof.
  induction pairs as [|[a b] pairs IH]; intros costs0 Hget Hnd.
  - exists costs0. cbn. repeat split; auto. tauto.
  - cbn [fold_left fst snd]. unfold costs_insert at 2.
    destruct (Nat.eqb_spec a b) as [->|Hab].
    + destruct (IH costs0) as (costs & H1 & H2 & H3); auto.
      { intros i j Hij. apply Hget. right; exact Hij. }
      exists costs. split; [exact H1|]. split; [exact H2|].
      intros i j. rewrite H3. cbn. split; [tauto|].
      intros [H|[[E|H] Hne]]; auto.
      injection E as <- <-. contradiction.
    + destruct (Hget a b (or_introl eq_refl) Hab) as (li & c & E1 & E2).
      rewrite E1, E2.
      set (costs1 := dict_set a (dict_set b c (costs_row a costs0)) costs0).
      destruct (IH costs1) as (costs & H1 & H2 & H3).
      { intros i j Hij. apply Hget. right; exact Hij. }
      { intro i. subst costs1. rewrite costs_row_dict_set.
        destruct (Nat.eqb i a); [apply NoDup_keys_dict_set|]; apply Hnd. }
      exists costs. split; [exact H1|]. split; [exact H2|].
      intros i j. rewrite H3. subst costs1. rewrite costs_row_dict_set.
      destruct (Nat.eqb_spec i a) as [->|Hia].
      * rewrite In_keys_dict_set. cbn. split.
        -- intros [[->|H]|[H Hne]]; auto.
        -- intros [H|[[E|H] Hne]]; auto.
           injection E as <-. auto.
      * cbn. split; [tauto|].
        intros [H|[[E|H] Hne]]; auto.
        injection E as <- <-. contradiction.
Qed.

Lemma dict_get_map {V : Type} (f : node -> V) l i :
  dict_get i (map (fun n => (n, f n)) l)
  = if mem i l then Some (f i) else None.
Proof.
  induction l as [|a l IH]; cbn; [reflexivity|].
  destruct (Nat.eqb_spec i a) as [->|Hne]; cbn; [reflexivity|exact IH].
Qed.

(** The table of costs built from the all-pairs Dijkstra over [g]:
    the row of a node holds, once each, the other nodes reached
    from it. *)
Lemma build_costs_dijkstra g :
  exists costs,
    build_costs (nx.all_pairs_dijkstra_path g)
                (nx.all_pairs_dijkstra_path_length g) = Some costs /\
    (forall i, NoDup (keys (costs_row i costs))) /\
    (forall i j, In j (keys (costs_row i costs)) <->
                 connected g i j /\ i <> j).
Proof.
  rewrite build_costs_pairs.
  assert (Hpairs : forall i j,
             In (i, j) (cost_pairs (nx.all_pairs_dijkstra_path g))
             <-> connected g i j).
  { intros i j. unfold cost_pairs, nx.all_pairs_dijkstra_path.
    rewrite in_flat_map. split.
    - intros ([i' d] & Hin & Hj). apply in_map_iff in Hin.
      destruct Hin as (n & E & Hn). injection E as <- <-.
      cbn in Hj. apply in_map_iff in Hj. destruct Hj as (j' & E & Hj).
      injection E as <- <-.
      apply (dijkstra_spec g n Hn), Hj.
    - intro Hc. destruct (connected_nodes _ _ _ Hc) as [Hi _].
      exists (i, nx.paths (nx.dijkstra g i)). split.
      + apply in_map_iff. exists i. auto.
      + cbn. apply in_map_iff. exists j. split; [reflexivity|].
        apply (dijkstra_spec g i Hi), Hc. }
  destruct (fold_costs_spec (nx.all_pairs_dijkstra_path_length g)
              (cost_pairs (nx.all_pairs_dijkstra_path g)) [])
    as (costs & H1 & H2 & H3).
  - intros i j Hij Hne. apply Hpairs in Hij.
    destruct (connected_nodes _ _ _ Hij) as [Hi _].
    exists (nx.dist (nx.dijkstra g i)).
    destruct (dijkstra_spec g i Hi) as (_ & Hk & Hd).
    destruct (Hd j (proj2 (Hk j) Hij)) as (c & Hc).
    exists c. split; [|exact Hc].
    unfold nx.all_pairs_dijkstra_path_length. rewrite dict_get_map.
    apply mem_In in Hi. rewrite Hi. reflexivity.
  - intro i. constructor.
  - exists costs. split; [exact H1|]. split; [exact H2|].
    intros i j. rewrite H3, Hpairs. cbn. tauto.
Qed.

Lemma argmin_scan_bound l :
  forall best_i best i,
    best_i < i -> argmin_scan best_i best i l < i + List.length l.
Proof.
  induction l as [|c l IH]; intros best_i best i H; cbn; [lia|].
  destruct (PrimFloat.leb best c).
  - specialize (IH best_i best (S i)). lia.
  - destruct (is_nan c); [lia|].
    specialize (IH i c (S i)). lia.
Qed.

(** [np.argmin] of a non-empty sequence is an index of the sequence. *)
Lemma argmin_lt l : l <> [] -> argmin l < List.length l.
Proof.
  destruct l as [|c l]; [contradiction|]. intros _. cbn.
  destruct (is_nan c); [lia|].
  pose proof (argmin_scan_bound l 0 c 1). lia.
Qed.

Lemma set_remove_spec k (q : list node) :
  NoDup q -> In k q ->
  NoDup (set_remove k q) /\
  (forall v, In v (set_remove k q) <-> In v q /\ v <> k) /\
  Permutation (k :: set_remove k q) q /\
  S (List.length (set_remove k q)) = List.length q.
Proof.
  intros Hnd Hk. unfold set_remove.
  assert (Hin : forall v, In v (filter (fun x => negb (Nat.eqb k x)) q)
                          <-> In v q /\ v <> k).
  { intro v. rewrite filter_In, negb_true_iff, Nat.eqb_neq.
    split; intros [H1 H2]; split; auto. }
  assert (Hnd' : NoDup (filter (fun x => negb (Nat.eqb k x)) q))
    by (apply NoDup_filter, Hnd).
  assert (Hp : Permutation (k :: filter (fun x => negb (Nat.eqb k x)) q) q).
  { apply NoDup_Permutation; [|exact Hnd|].
    - constructor; [|exact Hnd']. rewrite Hin. tauto.
    - intro v. cbn. rewrite Hin.
      destruct (Nat.eq_dec v k) as [->|Hne]; [tauto|].
      split; [intros [H|H]; [congruence|tauto]|tauto]. }
  split; [exact Hnd'|]. split; [exact Hin|]. split; [exact Hp|].
  apply Permutation_length in Hp. exact Hp.
Qed.

(** The greedy loop over a set of nodes in which the row of each
    node holds the other nodes of the set: every node of the queue
    is visited once. *)
Lemma greedy_loop_spec (costs : Costs) (component : list node) :
  (forall c j, In c component ->
               (In j (keys (costs_row c costs)) <->
                In j component /\ j <> c)) ->
  forall fuel nodes_queue current_node tour,
    NoDup nodes_queue ->
    incl nodes_queue component ->
    In current_node component ->
    ~ In current_node nodes_queue \/ 2 <= List.length nodes_queue ->
    List.length nodes_queue <= fuel ->
    exists visited,
      greedy_loop fuel costs current_node nodes_queue tour
      = Some (inr (tour ++ visited)) /\
      Permutation visited nodes_queue.
Proof.
  intro Hrow.
  induction fuel as [|fuel IH];
    intros queue current tour Hnd Hincl Hcur Hother Hlen.
  - destruct queue; [|cbn in Hlen; lia].
    exists []. rewrite app_nil_r. split; [reflexivity|constructor].
  - destruct queue as [|q0 queue'].
    { exists []. rewrite app_nil_r. split; [reflexivity|constructor]. }
    assert (Hex : exists j, In j (q0 :: queue') /\ j <> current).
    { destruct Hother as [Hno|Htwo].
      - exists q0. split; [left; reflexivity|].
        intros ->. apply Hno. left; reflexivity.
      - destruct queue' as [|q1 queue'']; [cbn in Htwo; lia|].
        destruct (Nat.eq_dec q0 current) as [->|Hne].
        + exists q1. split; [right; left; reflexivity|].
          intros ->. inversion Hnd as [|? ? Hn _]. apply Hn.
          left; reflexivity.
        + exists q0. split; [left; reflexivity|exact Hne]. }
    cbn [greedy_loop].
    set (queue := q0 :: queue') in *.
    set (candidates :=
           filter (fun node_cost : node * float =>
                     mem (fst node_cost) queue)
                  (costs_row current costs)).
    assert (Hcand : forall j, In j (map fst candidates)
                              <-> In j queue /\ j <> current).
    { intro j. subst candidates. rewrite in_map_iff. split.
      - intros ([j' c] & E & H). cbn in E. subst j'.
        apply filter_In in H. destruct H as [H1 H2]. cbn [fst] in H2.
        apply mem_In in H2. split; [exact H2|].
        apply (Hrow current j Hcur).
        apply in_map_iff. exists (j, c). auto.
      - intros [Hj Hne].
        assert (Hk : In j (keys (costs_row current costs)))
          by (apply (Hrow current j Hcur); auto).
        apply in_map_iff in Hk. destruct Hk as ([j' c] & E & H).
        cbn in E. subst j'. exists (j, c). split; [reflexivity|].
        apply filter_In. split; [exact H|]. cbn [fst]. apply mem_In, Hj. }
    destruct candidates as [|c0 cands] eqn:Ec.
    { exfalso. destruct Hex as (j & Hj). apply Hcand in Hj. exact Hj. }
    rewrite <- Ec in *.
    set (next_node := nth (argmin (map snd candidates))
                          (map fst candidates) (fst c0)).
    assert (Hnext : In next_node (map fst candidates)).
    { subst next_node. apply nth_In.
      rewrite length_map, <- (length_map snd). apply argmin_lt.
      rewrite Ec. discriminate. }
    apply Hcand in Hnext. destruct Hnext as [Hnq Hnc].
    destruct (set_remove_spec next_node queue Hnd Hnq)
      as (R1 & R2 & R3 & R4).
    destruct (IH (set_remove next_node queue) next_node
                 (tour ++ [next_node])) as (visited & Hv & Hp).
    + exact R1.
    + intros v Hv. apply Hincl, R2, Hv.
    + apply Hincl, Hnq.
    + left. rewrite R2. tauto.
    + lia.
    + exists (next_node :: visited). split.
      * rewrite Hv, <- app_assoc. reflexivity.
      * eapply Permutation_trans; [|exact R3].
        constructor. exact Hp.
Qed.

Lemma random_choice_In r l : l <> [] -> In (random_choice r l) l.
Proof.
  intro H. unfold random_choice. apply nth_In.
  apply Nat.mod_upper_bound. destruct l; [contradiction|discriminate].
Qed.

Lemma tour_poses_length g orientations tour :
  forall k,
    incl tour (nx.node_ids g) ->
    exists l,
      tour_poses g orientations k tour = Some l /\
      List.length l = List.length tour.
Proof.
  induction tour as [|v tour IH]; intros k Hincl; cbn.
  - exists []. auto.
  - assert (Hv : In v (keys (nx.nodes g)))
      by (apply Hincl; left; reflexivity).
    apply dict_get_In in Hv. destruct Hv as (vertex & ->).
    destruct (IH (S k)) as (l & -> & Hl).
    { intros u Hu. apply Hincl. right; exact Hu. }
    eexists. split; [reflexivity|]. cbn. rewrite Hl. reflexivity.
Qed.

End CostFacts.

(* ================================================================= *)
(** ** The costs before and after pruning *)

Section PrunedCosts.

Variable g : nx.Graph.

Lemma remove_nodes_from_twice c1 c2 (g0 : nx.Graph) :
  nx.remove_nodes_from c2 (nx.remove_nodes_from c1 g0)
  = nx.remove_nodes_from (c1 ++ c2) g0.
Proof.
  unfold nx.remove_nodes_from. cbn. f_equal.
  - induction (nx.nodes g0) as [|n l IH]; cbn; [reflexivity|].
    rewrite mem_app.
    destruct (mem (fst n) c1); cbn; [exact IH|].
    destruct (mem (fst n) c2); cbn; rewrite IH; reflexivity.
  - induction (nx.edges g0) as [|[[a b] w] l IH]; cbn; [reflexivity|].
    rewrite !mem_app.
    destruct (mem a c1); cbn; [exact IH|].
    destruct (mem b c1); cbn; [rewrite IH, ?andb_false_r; reflexivity|].
    destruct (mem a c2); cbn; [exact IH|].
    destruct (mem b c2); cbn; rewrite IH; reflexivity.
Qed.

Lemma remove_nodes_from_nil (g0 : nx.Graph) :
  nx.remove_nodes_from [] g0 = g0.
Proof.
  destruct g0 as [ns es]. unfold nx.remove_nodes_from. cbn. f_equal.
  - induction ns as [|n l IH]; cbn; [reflexivity|]. rewrite IH; reflexivity.
  - induction es as [|[[a b] w] l IH]; cbn; [reflexivity|].
    rewrite IH; reflexivity.
Qed.

Lemma remove_all_at_once cs :
  forall R (g0 : nx.Graph),
    fold_left (fun g c => nx.remove_nodes_from c g) cs
              (nx.remove_nodes_from R g0)
    = nx.remove_nodes_from (R ++ concat cs) g0.
Proof.
  induction cs as [|c cs IH]; intros R g0; cbn.
  - rewrite app_nil_r. reflexivity.
  - rewrite remove_nodes_from_twice, IH, <- app_assoc. reflexivity.
Qed.

Lemma pruned_graph_removed :
  pruned_graph g = nx.remove_nodes_from (removed_nodes g) g.
Proof.
  unfold pruned_graph, removed_nodes.
  pose proof (remove_all_at_once (too_small_components g) [] g) as H.
  rewrite remove_nodes_from_nil in H. exact H.
Qed.

Lemma node_ids_remove R (g0 : nx.Graph) :
  nx.node_ids (nx.remove_nodes_from R g0)
  = filter (fun n => negb (mem n R)) (nx.node_ids g0).
Proof.
  unfold nx.node_ids, keys, nx.remove_nodes_from. cbn.
  induction (nx.nodes g0) as [|n l IH]; cbn; [reflexivity|].
  destruct (mem (fst n) R); cbn; rewrite IH; reflexivity.
Qed.

Lemma has_node_remove R (g0 : nx.Graph) a :
  nx.has_node (nx.remove_nodes_from R g0) a
  = nx.has_node g0 a && negb (mem a R).
Proof.
  unfold nx.has_node. rewrite node_ids_remove.
  destruct (mem a (nx.node_ids g0)) eqn:E1, (mem a R) eqn:E2; cbn.
  - apply mem_false. rewrite filter_In, negb_true_iff. intros [_ H].
    congruence.
  - apply mem_In. rewrite filter_In, negb_true_iff.
    split; [apply mem_In, E1|exact E2].
  - apply mem_false. rewrite filter_In. intros [H _].
    apply mem_In in H. congruence.
  - apply mem_false. rewrite filter_In. intros [H _].
    apply mem_In in H. congruence.
Qed.

Lemma pruned_node_kept v :
  In v (nx.node_ids (pruned_graph g)) <->
  In v (nx.node_ids g) /\ mem v (removed_nodes g) = false.
Proof.
  rewrite pruned_graph_removed, node_ids_remove, filter_In, negb_true_iff.
  reflexivity.
Qed.

(** A neighbour of a node that stays, stays. *)
Lemma pruned_neighbor_stays v u :
  In v (nx.node_ids (pruned_graph g)) -> adjacent g v u ->
  In u (nx.node_ids (pruned_graph g)).
Proof.
  intros Hv Ha. apply pruned_node. apply pruned_node in Hv.
  destruct Hv as [Hv Hlen]. split; [apply (adjacent_nodes _ _ _ Ha)|].
  rewrite <- (plain_bfs_length g v u); [exact Hlen|].
  eapply connected_step; [constructor; exact Hv|exact Ha].
Qed.

(** A node that stays has the same neighbours, in the same order. *)
Lemma pruned_neighbors v :
  In v (nx.node_ids (pruned_graph g)) ->
  nx.neighbors (pruned_graph g) v = nx.neighbors g v.
Proof.
  intro Hv. rewrite pruned_graph_removed.
  assert (Hv' : mem v (removed_nodes g) = false) by (apply pruned_node_kept, Hv).
  assert (Hn : forall u, adjacent g v u -> mem u (removed_nodes g) = false).
  { intros u Ha. apply pruned_node_kept.
    apply (pruned_neighbor_stays v u Hv Ha). }
  unfold nx.neighbors at 1. cbn [nx.edges nx.remove_nodes_from].
  unfold nx.neighbors.
  assert (Hgen : forall l,
             incl l (nx.edges g) ->
             flat_map
               (fun e : node * node * float =>
                  let '(a, b, w) := e in
                  if nx.has_node (nx.remove_nodes_from (removed_nodes g) g) a
                     && nx.has_node (nx.remove_nodes_from (removed_nodes g) g) b
                  then if Nat.eqb a v then [(b, w)]
                       else if Nat.eqb b v then [(a, w)] else []
                  else [])
               (filter (fun e : node * node * float =>
                          let '(a, b, _) := e in
                          negb (mem a (removed_nodes g))
                          && negb (mem b (removed_nodes g))) l)
             = flat_map
                 (fun e : node * node * float =>
                    let '(a, b, w) := e in
                    if nx.has_node g a && nx.has_node g b
                    then if Nat.eqb a v then [(b, w)]
                         else if Nat.eqb b v then [(a, w)] else []
                    else [])
                 l).
  { induction l as [|[[a b] w] l IH]; intro Hincl; [reflexivity|].
    assert (He : In (a, b, w) (nx.edges g)) by (apply Hincl; left; reflexivity).
    assert (Hl : incl l (nx.edges g))
      by (intros e H; apply Hincl; right; exact H).
    cbn [filter flat_map].
    destruct (mem a (removed_nodes g)) eqn:Ea; cbn [negb andb].
    - rewrite (IH Hl).
      destruct (nx.has_node g a) eqn:Ha, (nx.has_node g b) eqn:Hb;
        cbn [andb]; try reflexivity.
      destruct (Nat.eqb_spec a v) as [->|Hav]; [congruence|].
      destruct (Nat.eqb_spec b v) as [->|Hbv]; [|reflexivity].
      exfalso.
      assert (Hadj : adjacent g v a).
      { apply adjacent_spec. exists w. split; [right; exact He|].
        split; apply has_node_In; assumption. }
      rewrite (Hn a Hadj) in Ea. discriminate.
    - destruct (mem b (removed_nodes g)) eqn:Eb; cbn [negb andb].
      + rewrite (IH Hl).
        destruct (nx.has_node g a) eqn:Ha, (nx.has_node g b) eqn:Hb;
          cbn [andb]; try reflexivity.
        destruct (Nat.eqb_spec a v) as [->|Hav].
        * exfalso.
          assert (Hadj : adjacent g v b).
          { apply adjacent_spec. exists w. split; [left; exact He|].
            split; apply has_node_In; assumption. }
          rewrite (Hn b Hadj) in Eb. discriminate.
        * destruct (Nat.eqb_spec b v) as [->|Hbv]; [congruence|reflexivity].
      + cbn [flat_map]. rewrite (IH Hl).
        rewrite !has_node_remove, Ea, Eb. cbn [negb].
        rewrite !andb_true_r. reflexivity. }
  apply Hgen, incl_refl.
Qed.

Variable s : node.
Hypothesis s_stays : In s (nx.node_ids (pruned_graph g)).

Lemma dijkstra_loop_pruned fuel :
  forall st,
    dijkstra_inv g s st ->
    nx.dijkstra_loop fuel (pruned_graph g) st = nx.dijkstra_loop fuel g st.
Proof.
  induction fuel as [|fuel IH]; intros st Hinv; [reflexivity|].
  cbn [nx.dijkstra_loop].
  destruct (nx.pop st) as [[v d]|] eqn:Ep; [|reflexivity].
  destruct (settle_inv g s st v d Hinv Ep) as (Hinv2 & _ & _ & Hv).
  assert (Hv' : In v (nx.node_ids (pruned_graph g))).
  { apply (pruned_connected g s v s_stays) in Hv.
    apply (connected_nodes _ _ _ Hv). }
  unfold nx.settle at 1. rewrite (pruned_neighbors v Hv').
  fold (nx.settle g st v d). apply IH, Hinv2.
Qed.

Lemma dijkstra_start_inv (g0 : nx.Graph) :
  In s (nx.node_ids g0) ->
  dijkstra_inv g0 s {| nx.dist := []; nx.seen := [(s, (0%float, 0))];
                       nx.paths := [(s, [s])]; nx.pushes := 1 |}.
Proof.
  intro Hs. repeat apply conj; cbn.
  - reflexivity.
  - repeat constructor. intros [].
  - constructor.
  - intros v [].
  - intros v [<-|[]]. constructor. exact Hs.
  - intros v u [].
Qed.

(** From a node that stays, Dijkstra's search gives the same result
    over the pruned graph and over the graph. *)
Lemma dijkstra_pruned : nx.dijkstra (pruned_graph g) s = nx.dijkstra g s.
Proof.
  unfold nx.dijkstra.
  set (st0 := {| nx.dist := []; nx.seen := [(s, (0%float, 0))];
                 nx.paths := [(s, [s])]; nx.pushes := 1 |}).
  assert (Hs : In s (nx.node_ids g)) by (apply (pruned_node g s), s_stays).
  assert (Hlen : List.length (nx.nodes (pruned_graph g))
                 <= List.length (nx.nodes g)).
  { rewrite pruned_graph_removed. cbn. apply filter_length_le. }
  rewrite <- (dijkstra_loop_pruned (S (List.length (nx.nodes g))) st0
                                   (dijkstra_start_inv g Hs)).
  replace (S (List.length (nx.nodes g)))
    with (S (List.length (nx.nodes (pruned_graph g)))
          + (List.length (nx.nodes g)
             - List.length (nx.nodes (pruned_graph g)))) by lia.
  symmetry.
  apply (dijkstra_loop_more_fuel (pruned_graph g) s).
  - apply dijkstra_start_inv, s_stays.
  - cbn. lia.
Qed.

End PrunedCosts.

Section PrunedCostTable.

Variable g : nx.Graph.

(** From a node that pruning removes, Dijkstra's search reaches that
    node only. *)
Lemma removed_node_paths n :
  In n (nx.node_ids g) ->
  ~ In n (nx.node_ids (pruned_graph g)) ->
  keys (nx.paths (nx.dijkstra g n)) = [n].
Proof.
  intros Hn Hgone.
  destruct (dijkstra_spec g n Hn) as (Hnd & Hk & _).
  destruct (plain_bfs_spec g n Hn) as [Hbnd Hb].
  assert (Hsmall : List.length (nx.plain_bfs g n) < 2).
  { destruct (le_lt_dec 2 (List.length (nx.plain_bfs g n))) as [H|H];
      [|exact H].
    exfalso. apply Hgone, pruned_node. auto. }
  assert (Hself : connected g n n) by (constructor; exact Hn).
  assert (Honly : forall v, connected g n v -> v = n).
  { intros v Hv. apply Hb in Hv, Hself.
    destruct (nx.plain_bfs g n) as [|a [|b l]]; cbn in Hsmall;
      [contradiction| |lia].
    destruct Hv as [<-|[]], Hself as [<-|[]]. reflexivity. }
  assert (Hin : In n (keys (nx.paths (nx.dijkstra g n))))
    by (apply Hk, Hself).
  destruct (keys (nx.paths (nx.dijkstra g n))) as [|a [|b l]].
  - contradiction.
  - destruct Hin as [->|[]]. reflexivity.
  - exfalso.
    assert (a = n) by (apply Honly, Hk; left; reflexivity).
    assert (b = n) by (apply Honly, Hk; right; left; reflexivity).
    subst. inversion Hnd as [|? ? Hnot _]. apply Hnot. left; reflexivity.
Qed.

Lemma costs_insert_ext L1 L2 i acc j :
  dict_get i L1 = dict_get i L2 ->
  costs_insert L1 i acc j = costs_insert L2 i acc j.
Proof. unfold costs_insert. intros ->. reflexivity. Qed.

Lemma fold_costs_insert_ext L1 L2 i js :
  dict_get i L1 = dict_get i L2 ->
  forall acc,
    fold_left (costs_insert L1 i) js acc = fold_left (costs_insert L2 i) js acc.
Proof.
  intro H. induction js as [|j js IH]; intro acc; cbn; [reflexivity|].
  rewrite (costs_insert_ext L1 L2 i acc j H). apply IH.
Qed.

(** The table of costs is the same over the graph and over the pruned
    graph: a node that pruning removes has no row. *)
Lemma build_costs_pruned :
  build_costs (nx.all_pairs_dijkstra_path g)
              (nx.all_pairs_dijkstra_path_length g)
  = build_costs (nx.all_pairs_dijkstra_path (pruned_graph g))
                (nx.all_pairs_dijkstra_path_length (pruned_graph g)).
Proof.
  unfold build_costs, nx.all_pairs_dijkstra_path.
  rewrite (pruned_graph_removed g) at 1.
  rewrite node_ids_remove.
  generalize (Some (@nil (node * list (node * float)))).
  assert (Hgen : forall l,
             incl l (nx.node_ids g) ->
             forall acc,
               fold_left
                 (fun acc (ip : node * list (node * list node)) =>
                    fold_left
                      (costs_insert (nx.all_pairs_dijkstra_path_length g)
                                    (fst ip))
                      (keys (snd ip)) acc)
                 (map (fun n => (n, nx.paths (nx.dijkstra g n))) l) acc
               = fold_left
                   (fun acc (ip : node * list (node * list node)) =>
                      fold_left
                        (costs_insert
                           (nx.all_pairs_dijkstra_path_length (pruned_graph g))
                           (fst ip))
                        (keys (snd ip)) acc)
                   (map (fun n => (n, nx.paths
                                        (nx.dijkstra (pruned_graph g) n)))
                        (filter (fun n => negb (mem n (removed_nodes g))) l))
                   acc).
  { induction l as [|n l IH]; intros Hincl acc; [reflexivity|].
    assert (Hn : In n (nx.node_ids g)) by (apply Hincl; left; reflexivity).
    assert (Hl : incl l (nx.node_ids g))
      by (intros v H; apply Hincl; right; exact H).
    cbn [map fold_left filter fst snd].
    destruct (mem n (removed_nodes g)) eqn:En; cbn [negb].
    - rewrite removed_node_paths; [|exact Hn|].
      + cbn [fold_left]. rewrite <- (IH Hl). f_equal.
        unfold costs_insert. destruct acc; [|reflexivity].
        rewrite Nat.eqb_refl. reflexivity.
      + rewrite pruned_node_kept. intros [_ H]. congruence.
    - assert (Hstay : In n (nx.node_ids (pruned_graph g)))
        by (apply pruned_node_kept; auto).
      cbn [map fold_left fst snd].
      rewrite (dijkstra_pruned g n Hstay), <- (IH Hl). f_equal.
      apply fold_costs_insert_ext.
      unfold nx.all_pairs_dijkstra_path_length. rewrite !dict_get_map.
      apply mem_In in Hn, Hstay. rewrite Hn, Hstay.
      rewrite (dijkstra_pruned g n); [reflexivity|].
      apply mem_In, Hstay. }
  intro acc. apply Hgen, incl_refl.
Qed.

End PrunedCostTable.

(* ================================================================= *)
(** ** The planner *)

Section PlannerClaims.

(** [traversal_path], with the table of costs and the pruned graph
    named. *)
Lemma traversal_path_unfold env s :
  let g := voronoi_graph env in
  let pruned := pruned_graph g in
  let s2 := acts (planner_prefix g) s in
  exists costs,
    build_costs (nx.all_pairs_dijkstra_path g)
                (nx.all_pairs_dijkstra_path_length g) = Some costs /\
    (forall i j, In j (keys (costs_row i costs)) <->
                 connected g i j /\ i <> j) /\
    traversal_path env s
    = if List.length (nx.nodes pruned) <? 2 then
        Fail (RunFailException
                "insufficient number of nodes in deleaved_reduced_voronoi_graph, can not generate traversal path")
             (write_event
                "insufficient_number_of_nodes_in_deleaved_reduced_voronoi_graph"
                s2)
      else
        let start := random_choice (random_index env) (nx.node_ids pruned) in
        let s3 := act (NodeConnectedComponent pruned start) s2 in
        let nodes_queue := nx.node_connected_component pruned start in
        match greedy_loop (List.length nodes_queue) costs start
                          nodes_queue [] with
        | None => Fail (OtherException "bound of the greedy loop reached") s3
        | Some (inl e) => Fail e s3
        | Some (inr tour) => Go (pruned, tour) s3
        end.
Proof.
  cbn zeta.
  destruct (build_costs_dijkstra (voronoi_graph env))
    as (costs & Hb & _ & Hrow).
  exists costs. split; [exact Hb|]. split; [exact Hrow|].
  unfold traversal_path. rewrite Hb, remove_components_split.
  cbn [fst snd]. fold (pruned_graph (voronoi_graph env)).
  unfold planner_prefix. rewrite acts_app. reflexivity.
Qed.

(** C1.  When the pruned graph has two vertices or more, whatever
    vertex the random choice picks as start, the planner returns a
    tour that is a permutation of the connected component of the
    start vertex in the pruned graph: each vertex of the component,
    the start vertex included, is in the tour once, no other vertex
    is, and that component has two vertices or more.  The queue of
    poses has the length of the tour, and for a graph of one
    component without repeated vertex that length is the number of
    vertices. *)
Theorem tour_visits_start_component_once
        (env : Environment) (s : Supervisor)
        (Hsize : 2 <= List.length
                        (nx.nodes (pruned_graph (voronoi_graph env)))) :
  let pruned := pruned_graph (voronoi_graph env) in
  let start := random_choice (random_index env) (nx.node_ids pruned) in
  let component := nx.node_connected_component pruned start in
  exists tour s',
    traversal_path env s = Go (pruned, tour) s' /\
    In start (nx.node_ids pruned) /\
    2 <= List.length component /\
    NoDup component /\
    Permutation tour component /\
    NoDup tour /\
    In start tour /\
    (forall v, In v tour <-> connected pruned start v) /\
    (exists l, plan env s = Go l s' /\
               List.length l = List.length tour) /\
    (forall c,
        nx.connected_components pruned = [c] ->
        NoDup (nx.node_ids pruned) ->
        List.length tour = List.length (nx.nodes pruned)).
Proof.
  cbn zeta.
  set (g := voronoi_graph env) in *.
  set (pruned := pruned_graph g) in *.
  set (start := random_choice (random_index env) (nx.node_ids pruned)).
  unfold nx.node_connected_component.
  set (component := nx.plain_bfs pruned start).
  assert (Hstart : In start (nx.node_ids pruned)).
  { apply random_choice_In. unfold nx.node_ids, keys.
    destruct (nx.nodes pruned); [cbn in Hsize; lia|discriminate]. }
  destruct (pruned_component g start Hstart) as (Hnd & Hcomp & Hlen).
  fold pruned in Hnd, Hcomp, Hlen. fold component in Hnd, Hcomp, Hlen.
  destruct (plain_bfs_spec pruned start Hstart) as [_ Hcomp'].
  fold component in Hcomp'.
  assert (Hstart_g : In start (nx.node_ids g))
    by (apply (pruned_node g start), Hstart).
  assert (Hin : In start component)
    by (apply Hcomp; constructor; exact Hstart_g).
  destruct (traversal_path_unfold env s) as (costs & _ & Hrow & Htp).
  cbn zeta in Htp. fold g in Hrow, Htp. fold pruned in Htp.
  fold start in Htp. unfold nx.node_connected_component in Htp.
  fold component in Htp.
  assert (Hbig : (List.length (nx.nodes pruned) <? 2) = false)
    by (apply Nat.ltb_ge; exact Hsize).
  rewrite Hbig in Htp.
  destruct (greedy_loop_spec costs component) with
    (fuel := List.length component) (nodes_queue := component)
    (current_node := start) (tour := @nil node)
    as (tour & Hloop & Hperm).
  { intros c j Hc. rewrite Hrow, !Hcomp. apply Hcomp in Hc.
    split.
    - intros [Hcj Hne]. split; [|auto].
      eapply connected_trans; eauto.
    - intros [Hsj Hne]. split; [|auto].
      eapply connected_trans; [apply connected_sym; exact Hc|exact Hsj]. }
  { exact Hnd. }
  { apply incl_refl. }
  { exact Hin. }
  { right; exact Hlen. }
  { apply le_n. }
  cbn [app] in Hloop. rewrite Hloop in Htp.
  assert (Hnd_tour : NoDup tour).
  { eapply Permutation_NoDup; [apply Permutation_sym; exact Hperm|].
    exact Hnd. }
  assert (Hin_tour : forall v, In v tour <-> In v component).
  { intro v. split; apply Permutation_in;
      [exact Hperm|apply Permutation_sym; exact Hperm]. }
  eexists tour, _. split; [exact Htp|].
  split; [exact Hstart|]. split; [exact Hlen|]. split; [exact Hnd|].
  split; [exact Hperm|]. split; [exact Hnd_tour|].
  split; [apply Hin_tour, Hin|].
  split; [intro v; rewrite Hin_tour; apply Hcomp'|].
  split.
  - unfold plan. rewrite Htp.
    destruct (tour_poses_length pruned (random_orientation env) tour 0)
      as (l & Hl & Hlen_l).
    { intros v Hv. apply Hin_tour, Hcomp' in Hv.
      apply (connected_nodes _ _ _ Hv). }
    rewrite Hl. exists l. split; [reflexivity|exact Hlen_l].
  - intros c Hone Hnd_ids.
    rewrite (Permutation_length Hperm).
    destruct (connected_components_spec pruned) as [C1 C2].
    rewrite Hone in C1, C2.
    destruct (C1 c (or_introl eq_refl)) as (r & Hr & Hc).
    assert (Hall : forall v, In v (nx.node_ids pruned) -> connected pruned r v).
    { intros v Hv. destruct (C2 v Hv) as (c' & [<-|[]] & Hvc).
      subst c. apply (plain_bfs_spec pruned r Hr), Hvc. }
    replace (List.length (nx.nodes pruned))
      with (List.length (nx.node_ids pruned))
      by (unfold nx.node_ids, keys; apply length_map).
    apply same_nodes_length; [exact Hnd|exact Hnd_ids|].
    intro v. rewrite Hcomp'. split.
    + intro H. apply (connected_nodes _ _ _ H).
    + intro Hv. eapply connected_trans; [|apply Hall, Hv].
      apply connected_sym, Hall, Hstart.
Qed.

End PlannerClaims.

(** The planner on the line of three vertices with one vertex aside:
    the tour from vertex 0 goes through 1, 0 and 3. *)
Lemma tour_visits_start_component_once_witness :
  exists tour s',
    traversal_path (example_run line_and_dot (fun _ => quiet_turn))
                   (init example_config)
    = Go (pruned_graph line_and_dot, tour) s' /\
    Permutation tour [0; 1; 3].
Proof.
  assert (Hsize : 2 <= List.length
                         (nx.nodes
                            (pruned_graph
                               (voronoi_graph
                                  (example_run line_and_dot
                                               (fun _ => quiet_turn))))))
    by (vm_compute; lia).
  destruct (tour_visits_start_component_once
              (example_run line_and_dot (fun _ => quiet_turn))
              (init example_config) Hsize)
    as (tour & s' & Htp & _ & _ & _ & Hperm & _).
  exists tour, s'. split; [exact Htp|].
  exact Hperm.
Defined.

Section PlannerFailureClaims.

Context {rt : PyRuntime}.

Lemma finally_keeps s :
  goal_sent_count (finally s) = goal_sent_count s /\
  goals_sent (trace (finally s)) = goals_sent (trace s) /\
  events (trace (finally s)) = events (trace s).
Proof.
  unfold finally, end_run.
  destruct (is_shutdown s) eqn:E; cbn; rewrite E; cbn;
    rewrite <- ?app_assoc, !goals_sent_app, !events_app; cbn;
    rewrite !app_nil_r; auto.
Qed.

Lemma planner_prefix_reads g :
  goals_sent (planner_prefix g) = [] /\
  events (planner_prefix g) = [] /\
  planner_steps (planner_prefix g)
  = 0 :: repeat 1 (List.length (too_small_components g)) /\
  dijkstra_inputs (planner_prefix g) = [g].
Proof.
  unfold planner_prefix.
  induction (too_small_components g) as [|c cs (H1 & H2 & H3 & H4)];
    cbn in *; auto.
  repeat split; auto. injection H3 as H3. rewrite H3. reflexivity.
Qed.

(** C5.  When fewer than two vertices are left after the removal of
    the components of fewer than two vertices, the planner writes
    the event
    [insufficient_number_of_nodes_in_deleaved_reduced_voronoi_graph]
    as its last action and raises [RunFailException]; the run from
    the first scan on raises it too, with no goal sent and
    [goal_sent_count] unchanged; and [main], once the node is
    constructed and the first scan has come, ends with
    [goal_sent_count] at zero and no goal sent. *)
Theorem too_few_nodes_fails_planning
        (env : Environment) (s : Supervisor)
        (Hsmall : List.length
                    (nx.nodes (pruned_graph (voronoi_graph env))) < 2) :
  exists s',
    traversal_path env s
    = Fail (RunFailException
              "insufficient number of nodes in deleaved_reduced_voronoi_graph, can not generate traversal path")
           s' /\
    trace s'
    = trace s ++ planner_prefix (voronoi_graph env)
      ++ [Event
            "insufficient_number_of_nodes_in_deleaved_reduced_voronoi_graph"] /\
    plan_and_run env s
    = (Raised
         (RunFailException
            "insufficient number of nodes in deleaved_reduced_voronoi_graph, can not generate traversal path"),
       s') /\
    goal_sent_count s' = goal_sent_count s /\
    goals_sent (trace s') = goals_sent (trace s) /\
    (construction env = None ->
     fst (wait_for_first_scan (startup_polls env) (init (parameters env)))
     = true ->
     exists s_end,
       main env = (Returned, Some s_end) /\
       goal_sent_count s_end = 0 /\
       goals_sent (trace s_end) = [] /\
       In "insufficient_number_of_nodes_in_deleaved_reduced_voronoi_graph"
          (events (trace s_end))).
Proof.
  assert (Hplan : forall s0,
             exists s',
               traversal_path env s0
               = Fail (RunFailException
                         "insufficient number of nodes in deleaved_reduced_voronoi_graph, can not generate traversal path")
                      s' /\
               trace s'
               = trace s0 ++ planner_prefix (voronoi_graph env)
                 ++ [Event
                       "insufficient_number_of_nodes_in_deleaved_reduced_voronoi_graph"] /\
               plan_and_run env s0
               = (Raised
                    (RunFailException
                       "insufficient number of nodes in deleaved_reduced_voronoi_graph, can not generate traversal path"),
                  s') /\
               goal_sent_count s' = goal_sent_count s0 /\
               goals_sent (trace s') = goals_sent (trace s0)).
  { intro s0.
    destruct (traversal_path_unfold env s0) as (costs & _ & _ & Htp).
    cbn zeta in Htp.
    apply Nat.ltb_lt in Hsmall. rewrite Hsmall in Htp.
    eexists. split; [exact Htp|].
    destruct (planner_prefix_reads (voronoi_graph env)) as (Hg & _).
    destruct (acts_planner_same (planner_prefix (voronoi_graph env)) s0)
      as ((_ & _ & _ & _ & Hc & _ & _ & Hgs & _) & _).
    { unfold planner_prefix. cbn.
      induction (too_small_components (voronoi_graph env)); cbn; auto. }
    split.
    { rewrite trace_write_event, trace_acts, <- app_assoc. reflexivity. }
    split.
    { unfold plan_and_run, plan. rewrite Htp. reflexivity. }
    split; [exact Hc|].
    rewrite trace_write_event, goals_sent_app, Hgs. cbn. apply app_nil_r. }
  destruct (Hplan s) as (s' & H1 & H2 & H3 & H4 & H5).
  exists s'. repeat (split; [assumption|]).
  intros Hnode Hscan.
  unfold main. rewrite Hnode. unfold try_block, start_run.
  destruct (wait_for_first_scan_spec (startup_polls env)
                                     (init (parameters env)))
    as [(_ & _ & _ & _ & Wc & _ & _ & Wg & _) _].
  destruct (wait_for_first_scan (startup_polls env) (init (parameters env)))
    as [b s1]. cbn in Hscan, Wc, Wg. subst b.
  destruct (Hplan s1) as (s1' & P1 & P2 & P3 & P4 & P5).
  rewrite P3. cbn [fst snd handle].
  destruct (finally_keeps s1') as (F1 & F2 & F3).
  eexists. split; [reflexivity|].
  split; [congruence|]. split; [congruence|].
  rewrite F3, P2, !events_app. apply in_or_app. right.
  apply in_or_app. right. left. reflexivity.
Qed.

(** C9, as the code has it.  The planner first runs the all-pairs
    Dijkstra over the Voronoi graph as it is received, then removes
    the components of fewer than two vertices, then checks the
    number of vertices left.  The costs the greedy selection uses are
    computed over the graph before the removal; the table is the one
    the same computation gives over the pruned graph, and for a vertex
    that is left its row holds exactly the other vertices of the
    component of that vertex in the pruned graph. *)
Theorem costs_computed_before_pruning (env : Environment) (s : Supervisor) :
  let g := voronoi_graph env in
  let pruned := pruned_graph g in
  exists last costs,
    match traversal_path env s with
    | Fail _ s' | Go _ s' => trace s' = trace s ++ planner_prefix g ++ [last]
    end /\
    planner_steps (planner_prefix g ++ [last])
    = [0] ++ repeat 1 (List.length (too_small_components g)) ++ [2] /\
    dijkstra_inputs (planner_prefix g ++ [last]) = [g] /\
    build_costs (nx.all_pairs_dijkstra_path g)
                (nx.all_pairs_dijkstra_path_length g) = Some costs /\
    build_costs (nx.all_pairs_dijkstra_path pruned)
                (nx.all_pairs_dijkstra_path_length pruned) = Some costs /\
    (forall i j,
        In i (nx.node_ids pruned) ->
        (In j (keys (costs_row i costs)) <->
         In j (nx.node_connected_component pruned i) /\ j <> i)).
Proof.
  cbn zeta.
  destruct (traversal_path_unfold env s) as (costs & Hb & Hrow & Htp).
  cbn zeta in Htp.
  destruct (planner_prefix_reads (voronoi_graph env))
    as (_ & _ & Hsteps & Hin).
  assert (Hreads : forall last,
             planner_steps [last] = [2] ->
             dijkstra_inputs [last] = [] ->
             planner_steps (planner_prefix (voronoi_graph env) ++ [last])
             = [0] ++ repeat 1 (List.length
                                  (too_small_components (voronoi_graph env)))
                   ++ [2] /\
             dijkstra_inputs (planner_prefix (voronoi_graph env) ++ [last])
             = [voronoi_graph env]).
  { intros last L1 L2. unfold planner_steps, dijkstra_inputs in *.
    rewrite !flat_map_app. rewrite Hsteps, Hin, L1, L2. auto. }
  assert (Hrows : forall i j,
             In i (nx.node_ids (pruned_graph (voronoi_graph env))) ->
             (In j (keys (costs_row i costs)) <->
              In j (nx.node_connected_component
                      (pruned_graph (voronoi_graph env)) i) /\ j <> i)).
  { intros i j Hi. rewrite Hrow.
    destruct (pruned_component (voronoi_graph env) i Hi) as (_ & Hc & _).
    unfold nx.node_connected_component. rewrite Hc.
    split; intros [H1 H2]; auto. }
  assert (Hb' : build_costs
                  (nx.all_pairs_dijkstra_path
                     (pruned_graph (voronoi_graph env)))
                  (nx.all_pairs_dijkstra_path_length
                     (pruned_graph (voronoi_graph env))) = Some costs)
    by (rewrite <- build_costs_pruned; exact Hb).
  destruct (List.length (nx.nodes (pruned_graph (voronoi_graph env))) <? 2).
  - eexists (Event _), costs. rewrite Htp.
    split; [rewrite trace_write_event, trace_acts, <- app_assoc;
            reflexivity|].
    destruct (Hreads (Event
                        "insufficient_number_of_nodes_in_deleaved_reduced_voronoi_graph")
                     eq_refl eq_refl) as [R1 R2].
    auto.
  - eexists (NodeConnectedComponent _ _), costs.
    split.
    { rewrite Htp.
      destruct (greedy_loop _ _ _ _ _) as [[e|tour]|];
        rewrite trace_act, trace_acts, <- app_assoc; reflexivity. }
    destruct (Hreads (NodeConnectedComponent
                        (pruned_graph (voronoi_graph env))
                        (random_choice (random_index env)
                           (nx.node_ids (pruned_graph (voronoi_graph env)))))
                     eq_refl eq_refl) as [R1 R2].
    auto.
Qed.

End PlannerFailureClaims.

(** Two vertices without an edge: nothing is left after pruning. *)
Lemma too_few_nodes_fails_planning_witness :
  exists s_end,
    @main example_runtime (example_run two_dots (fun _ => quiet_turn))
    = (Returned, Some s_end) /\
    goal_sent_count s_end = 0 /\
    goals_sent (trace s_end) = [] /\
    In "insufficient_number_of_nodes_in_deleaved_reduced_voronoi_graph"
       (events (trace s_end)).
Proof.
  assert (Hsmall : List.length
                     (nx.nodes
                        (pruned_graph
                           (voronoi_graph
                              (example_run two_dots (fun _ => quiet_turn)))))
                   < 2) by (vm_compute; lia).
  destruct (@too_few_nodes_fails_planning example_runtime
              (example_run two_dots (fun _ => quiet_turn))
              (init example_config) Hsmall)
    as (s' & _ & _ & _ & _ & _ & Hmain).
  apply Hmain; reflexivity.
Defined.

(** C9, as the specification states it, does not hold on the line of
    three vertices with one vertex aside: the all-pairs Dijkstra is
    the first step, before the removal of the vertex aside and the
    check, and it runs over the graph that still holds that vertex. *)
Lemma planner_order_counterexample :
  exists s',
    traversal_path (example_run line_and_dot (fun _ => quiet_turn))
                   (init example_config)
    = Go (line, [1; 0; 3]) s' /\
    pruned_graph line_and_dot = line /\
    nx.node_ids line = [0; 1; 3] /\
    planner_steps (trace s') = [0; 1; 2] /\
    dijkstra_inputs (trace s') = [line_and_dot] /\
    nx.node_ids line_and_dot = [0; 1; 2; 3] /\
    ~ stated_planner_order (planner_steps (trace s')).
Proof.
  eexists. split; [vm_compute; reflexivity|].
  repeat (split; [vm_compute; reflexivity|]).
  change (~ stated_planner_order [0; 1; 2]).
  intros (k & [H|H]).
  - destruct k as [|[|[|k]]]; cbn in H; discriminate.
  - destruct k as [|[|[|k]]]; cbn in H; discriminate.
Qed.

(* ================================================================= *)
(** ** The recorders *)

Section RecorderFacts.

Context {rt : PyRuntime}.

Lemma lines_appended_app path t1 t2 :
  lines_appended path (t1 ++ t2)
  = lines_appended path t1 ++ lines_appended path t2.
Proof. unfold lines_appended. apply flat_map_app. Qed.

(** [', '.join] of two fields or more. *)
Lemma concat_cons2 sep (a b : string) l :
  String.concat sep (a :: b :: l)
  = (a ++ sep ++ String.concat sep (b :: l))%string.
Proof. reflexivity. Qed.

Lemma concat_cons1 sep (a : string) : String.concat sep [a] = a.
Proof. reflexivity. Qed.

(** X1.  Once the run has started, a scan adds one line to
    [scans.csv].  With one range or more the line is the seven
    fields and the further ranges, each separated from the next by a
    comma and a space, and a line feed.  With no range, the six
    fields of the header are followed by a separator and an empty
    last field. *)
Theorem scan_row_separates_every_field
        (msg : LaserScan) (s : Supervisor)
        (Hrun : run_started s = true) :
  exists line,
    trace (scan_callback msg s)
    = trace s ++ [AppendLine (scans_file_path (cfg s)) line] /\
    received_first_scan (scan_callback msg s) = true /\
    line
    = match ranges msg with
      | [] =>
          (String.concat ", "
             (map float_str
                [stamp (scan_header msg); angle_min msg; angle_max msg;
                 angle_increment msg; range_min msg; range_max msg])
           ++ ", " ++ newline)%string
      | _ :: _ =>
          (String.concat ", " (map float_str (scan_values msg))
           ++ newline)%string
      end.
Proof.
  unfold scan_callback.
  change (run_started (set_received_first_scan true s)) with (run_started s).
  rewrite Hrun. cbn [negb]. rewrite trace_act.
  eexists. split; [reflexivity|]. split; [reflexivity|].
  unfold scan_values.
  destruct (ranges msg) as [|r rs]; cbn [app map].
  - rewrite !concat_cons2, concat_cons1.
    change (String.concat ", " []) with "".
    rewrite !string_append_assoc. reflexivity.
  - rewrite !concat_cons2.
    rewrite !string_append_assoc. reflexivity.
Qed.

End RecorderFacts.

(** The line of the example scan, of three ranges. *)
Lemma scan_row_separates_every_field_witness :
  exists line,
    trace (@scan_callback example_runtime example_scan example_ready)
    = trace example_ready
      ++ [AppendLine (scans_file_path (cfg example_ready)) line] /\
    line
    = (String.concat ", "
         (map (@float_str example_runtime) (scan_values example_scan))
       ++ newline)%string.
Proof.
  destruct (@scan_row_separates_every_field
              example_runtime example_scan example_ready eq_refl)
    as (line & Ht & _ & Hl).
  exists line. split; [exact Ht|exact Hl].
Defined.

(* ================================================================= *)
(** ** The run as a sequence of steps *)

Section RunSteps.

Context {rt : PyRuntime}.

Lemma steps_trans s1 s2 s3 : steps s1 s2 -> steps s2 s3 -> steps s1 s3.
Proof.
  intros H12 H23. induction H23; [assumption|].
  eapply steps_more; eassumption.
Qed.

Lemma steps_one s1 s2 : step s1 s2 -> steps s1 s2.
Proof. intro H. eapply steps_more; [apply steps_none|exact H]. Qed.

Lemma steps_serve_all cbs : forall s, steps s (serve_all cbs s).
Proof.
  unfold serve_all.
  induction cbs as [|cb cbs IH]; intro s; cbn [fold_left].
  - apply steps_none.
  - eapply steps_trans; [apply steps_one, step_callback|apply IH].
Qed.

Lemma steps_networkx l :
  forall s, forallb is_networkx_call l = true -> steps s (acts l s).
Proof.
  unfold acts.
  induction l as [|a l IH]; intros s H; cbn [fold_left].
  - apply steps_none.
  - cbn in H. apply andb_true_iff in H as [Ha Hl].
    eapply steps_trans; [apply steps_one, step_networkx, Ha|apply IH, Hl].
Qed.

Lemma steps_failure_event e s :
  In e failure_events -> steps s (write_event e s).
Proof. intro H. apply steps_one, step_failure_event, H. Qed.

Lemma planner_prefix_networkx g :
  forallb is_networkx_call (planner_prefix g) = true.
Proof.
  unfold planner_prefix. cbn.
  induction (too_small_components g); cbn; auto.
Qed.

(** The planner: calls into networkx, and the event of line 182. *)
Lemma steps_traversal_path env s :
  match traversal_path env s with
  | Fail _ s' | Go _ s' => steps s s'
  end.
Proof.
  destruct (traversal_path_unfold env s) as (costs & _ & _ & ->).
  cbn zeta.
  pose proof (steps_networkx _ s (planner_prefix_networkx (voronoi_graph env)))
    as Hp.
  destruct (_ <? 2).
  - eapply steps_trans; [exact Hp|].
    apply steps_failure_event. cbn. auto.
  - assert (H3 : steps s (act (NodeConnectedComponent
                                 (pruned_graph (voronoi_graph env))
                                 (random_choice
                                    (random_index env)
                                    (nx.node_ids
                                       (pruned_graph (voronoi_graph env)))))
                              (acts (planner_prefix (voronoi_graph env)) s))).
    { eapply steps_trans; [exact Hp|].
      apply steps_one, step_networkx. reflexivity. }
    destruct (greedy_loop _ _ _ _ _) as [[e|tour]|]; exact H3.
Qed.

Lemma steps_plan env s :
  match plan env s with
  | Fail _ s' | Go _ s' => steps s s'
  end.
Proof.
  unfold plan. pose proof (steps_traversal_path env s) as H.
  destruct (traversal_path env s) as [e s'|[pruned tour] s']; [exact H|].
  destruct (tour_poses _ _ _ _); exact H.
Qed.

Lemma steps_wait_for_first_scan polls :
  forall s, steps s (snd (wait_for_first_scan polls s)).
Proof.
  induction polls as [|cbs polls IH]; intro s; cbn [wait_for_first_scan].
  - destruct (_ && _); apply steps_none.
  - destruct (_ && _); cbn [snd]; [|apply steps_none].
    eapply steps_trans; [apply steps_serve_all|apply IH].
Qed.

Lemma steps_dispatch it s :
  match dispatch it s with
  | Fail _ s' | Go _ s' => steps s s'
  end.
Proof.
  unfold dispatch.
  pose proof (steps_serve_all (inbound_at_wait_for_server it) s) as H0.
  set (s0 := serve_all (inbound_at_wait_for_server it) s) in *.
  destruct (server_available it); cbn [negb].
  - destruct (traversal_path_poses s0) as [[|pose rest]|] eqn:Hq.
    + eapply steps_trans; [exact H0|].
      apply steps_failure_event. cbn. auto.
    + eapply steps_trans; [exact H0|].
      apply steps_one. exact (step_send s0 pose rest Hq).
    + exact H0.
  - eapply steps_trans; [exact H0|].
    apply steps_failure_event. cbn. auto.
Qed.

Lemma steps_await_result it s :
  match await_result it s with
  | Fail _ s' | Go _ s' => steps s s'
  end.
Proof.
  unfold await_result.
  pose proof (steps_serve_all (inbound_at_wait_for_result it) s) as H0.
  destruct (interrupted it); [exact H0|].
  destruct (result_in_time it); cbn [negb]; [exact H0|].
  eapply steps_trans; [exact H0|].
  eapply steps_trans; apply steps_failure_event; cbn; auto 10.
Qed.

Lemma steps_classify state goal_msg s :
  match classify state goal_msg s with
  | Fail _ s' | Go _ s' => steps s s'
  end.
Proof.
  unfold classify.
  destruct (is_succeeded state).
  - destruct (latest_ground_truth_pose_msg s); [|apply steps_none].
    destruct (distance_from_goal _ _) as [distance|]; [|apply steps_none].
    destruct (PrimFloat.ltb _ _).
    + apply steps_one. exact (step_reached s).
    + apply steps_one. exact (step_not_reached s).
  - apply steps_one. exact (step_not_reached s).
Qed.

Lemma steps_next_or_complete it s :
  steps s (snd (next_or_complete it s)).
Proof.
  unfold next_or_complete.
  destruct (traversal_path_poses s) as [[|pose rest]|] eqn:Hq; cbn [snd].
  - apply steps_one. exact (step_completed s Hq).
  - destruct (sleep_interrupted it); cbn [snd]; apply steps_serve_all.
  - apply steps_none.
Qed.

Lemma steps_goal_iteration it s : steps s (snd (goal_iteration it s)).
Proof.
  unfold goal_iteration.
  pose proof (steps_dispatch it s) as H1.
  destruct (dispatch it s) as [e s1|goal_msg s1]; [exact H1|].
  pose proof (steps_await_result it s1) as H2.
  destruct (await_result it s1) as [e s2|u s2];
    [exact (steps_trans _ _ _ H1 H2)|].
  pose proof (steps_classify (navigation_state it) goal_msg s2) as H3.
  destruct (classify _ _ s2) as [e s3|u' s3];
    [exact (steps_trans _ _ _ H1 (steps_trans _ _ _ H2 H3))|].
  eapply steps_trans; [exact H1|].
  eapply steps_trans; [exact H2|].
  eapply steps_trans; [exact H3|].
  apply steps_next_or_complete.
Qed.

Lemma steps_send_goals its fuel :
  forall k s, steps s (snd (send_goals fuel k its s)).
Proof.
  induction fuel as [|fuel IH]; intros k s; cbn [send_goals].
  - apply steps_none.
  - destruct (is_shutdown s); [apply steps_none|].
    pose proof (steps_goal_iteration (its k) s) as H.
    destruct (goal_iteration (its k) s) as [[o|] s']; cbn [snd] in *.
    + exact H.
    + eapply steps_trans; [exact H|apply IH].
Qed.

Lemma steps_plan_and_run env s : steps s (snd (plan_and_run env s)).
Proof.
  unfold plan_and_run.
  pose proof (steps_plan env s) as H.
  destruct (plan env s) as [e s1|l s1]; [exact H|].
  eapply steps_trans; [exact H|].
  eapply steps_trans; [apply steps_one, (step_run_start s1 l)|].
  apply steps_send_goals.
Qed.

Lemma steps_start_run env s : steps s (snd (start_run env s)).
Proof.
  unfold start_run.
  pose proof (steps_wait_for_first_scan (startup_polls env) s) as H.
  destruct (wait_for_first_scan (startup_polls env) s) as [[|] s1];
    cbn [snd] in H.
  - eapply steps_trans; [exact H|apply steps_plan_and_run].
  - destruct (startup_interrupted env); exact H.
Qed.

Lemma steps_spin polls : forall s, steps s (snd (spin polls s)).
Proof.
  induction polls as [|cbs polls IH]; intro s; cbn [spin].
  - destruct (is_shutdown s); apply steps_none.
  - destruct (is_shutdown s); [apply steps_none|].
    eapply steps_trans; [apply steps_serve_all|apply IH].
Qed.

Lemma steps_try_block env s : steps s (snd (try_block env s)).
Proof.
  unfold try_block.
  pose proof (steps_start_run env s) as H.
  destruct (start_run env s) as [[ |e| | ] s1]; cbn [snd] in *;
    try exact H.
  eapply steps_trans; [exact H|apply steps_spin].
Qed.

Lemma steps_finally s : steps s (finally s).
Proof.
  unfold finally.
  destruct (is_shutdown (end_run s)) eqn:Hs; cbn [negb].
  - apply steps_one, step_end_run.
  - eapply steps_trans; [apply steps_one, step_end_run|].
    apply steps_one, step_terminated, Hs.
Qed.

Lemma steps_handle o s : steps s (snd (handle o s)).
Proof.
  unfold handle.
  destruct o as [ |[ | | | | | | | | | ]| | ]; cbn [snd];
    try apply steps_finally; try apply steps_none.
  eapply steps_trans; [|apply steps_finally].
  unfold ros_shutdown_callback.
  eapply steps_trans; apply steps_failure_event; cbn; auto 10.
Qed.

(** Once the node is constructed, [main] is a run from the node as
    [__init__] leaves it. *)
Lemma steps_main env s :
  snd (main env) = Some s -> steps (init (parameters env)) s.
Proof.
  unfold main.
  destruct (construction env) as [[ | | | | | | | | | ]|]; cbn [snd];
    try discriminate.
  intros [= <-].
  eapply steps_trans; [apply steps_try_block|apply steps_handle].
Qed.

End RunSteps.

(* ================================================================= *)
(** ** What holds all along a run *)

Section RunInvariants.

Context {rt : PyRuntime}.

Lemma steps_invariant (P : Supervisor -> Prop) :
  (forall s s', step s s' -> P s -> P s') ->
  forall s s', steps s s' -> P s -> P s'.
Proof.
  intros Hstep s s' H. induction H as [|s1 s2 H12 IH H2]; intro Hs; [exact Hs|].
  eapply Hstep; [eassumption|]. auto.
Qed.

Lemma event_count_app e t1 t2 :
  event_count e (t1 ++ t2) = event_count e t1 + event_count e t2.
Proof.
  unfold event_count. rewrite events_app, filter_app, length_app.
  reflexivity.
Qed.

(** The events a callback writes: those of the run timeout. *)
Lemma serve_events s cb :
  events (trace (serve s cb))
  = events (trace s)
    ++ match cb with
       | OnRunTimeout => ["run_timeout"; "supervisor_finished"]
       | _ => []
       end.
Proof.
  destruct cb; cbn [serve]; try (rewrite app_nil_r).
  - unfold scan_callback.
    destruct (negb _); [reflexivity|].
    rewrite trace_act, events_app. cbn. apply app_nil_r.
  - unfold amcl_particles_callback.
    destruct (negb _); [reflexivity|].
    rewrite trace_act, events_app. cbn. apply app_nil_r.
  - unfold estimated_pose_correction_callback.
    destruct (negb _); [reflexivity|]. destruct (negb _); reflexivity.
  - unfold ground_truth_pose_callback.
    destruct (negb _); reflexivity.
  - unfold run_timeout_callback, signal_shutdown.
    cbn [trace set_is_shutdown]. rewrite trace_act, !trace_write_event.
    rewrite !events_app. cbn. rewrite app_nil_r, <- app_assoc. reflexivity.
  - destruct (ps_snapshot_timer_callback_state as_dict open_error s)
      as (n & [->|(data & ->)]); cbn [trace set_ps_snapshot_count];
      [reflexivity|].
    rewrite trace_act, events_app. cbn. apply app_nil_r.
  - unfold write_estimated_pose_timer_callback.
    destruct (negb _); [reflexivity|]. destruct lookup; reflexivity.
  - reflexivity.
Qed.

Lemma serve_event_count s cb e :
  e <> "run_timeout" -> e <> "supervisor_finished" ->
  event_count e (trace (serve s cb)) = event_count e (trace s).
Proof.
  intros H1 H2. unfold event_count. rewrite serve_events, filter_app.
  rewrite length_app.
  destruct cb; cbn [filter List.length]; try lia.
  apply String.eqb_neq in H1, H2. rewrite H1, H2. cbn. lia.
Qed.

Lemma event_count_act e a t :
  event_count e (t ++ [a])
  = event_count e t
    + match a with
      | Event e' => if String.eqb e e' then 1 else 0
      | _ => 0
      end.
Proof.
  rewrite event_count_app. f_equal.
  unfold event_count. destruct a; try reflexivity.
  cbn. destruct (String.eqb e event); reflexivity.
Qed.

Lemma goals_sent_act a t :
  goals_sent (t ++ [a])
  = goals_sent t ++ match a with SendGoal g => [g] | _ => [] end.
Proof.
  rewrite goals_sent_app. f_equal. destruct a; reflexivity.
Qed.

Ltac run_step :=
  cbn -[event_count goals_sent csv_files lines_appended events];
  rewrite ?event_count_act, ?goals_sent_act, ?length_app;
  cbn -[event_count goals_sent csv_files lines_appended events].

Lemma step_log_agrees s s' : step s s' -> log_agrees s -> log_agrees s'.
Proof.
  intros Hstep (H1 & H2 & H3 & H4).
  destruct Hstep as [s cb|s a Ha|s e He|s l|s pose rest Hq|s|s|s Hq|s|s Hs];
    unfold log_agrees.
  - rewrite !serve_event_count by discriminate.
    destruct (serve_same_dispatch_state s cb)
      as (_ & _ & _ & _ & -> & -> & -> & -> & _).
    auto.
  - destruct a; try discriminate; run_step; repeat apply conj; lia.
  - cbn in He.
    destruct He as [<-|[<-|[<-|[<-|[<-|[<-|[]]]]]]];
      run_step; repeat apply conj; lia.
  - run_step; repeat apply conj; lia.
  - run_step; repeat apply conj; lia.
  - run_step; repeat apply conj; lia.
  - run_step; repeat apply conj; lia.
  - unfold signal_shutdown. run_step; repeat apply conj; lia.
  - unfold end_run. run_step; repeat apply conj; lia.
  - unfold signal_shutdown. run_step; repeat apply conj; lia.
Qed.

(** X2.  Once the node is constructed, the log of events agrees with
    the counters of the goal loop at the end of [main]: there is one
    event [target_pose_set] and one goal sent to the navigation
    server per unit of [goal_sent_count], one event
    [target_pose_reached] per unit of [goal_succeeded_count], and one
    event [target_pose_not_reached] per unit of
    [goal_failed_count]. *)
Theorem event_log_agrees_with_counters
        (env : Environment) (s : Supervisor)
        (Hend : snd (main env) = Some s) :
  event_count "target_pose_set" (trace s) = goal_sent_count s /\
  event_count "target_pose_reached" (trace s) = goal_succeeded_count s /\
  event_count "target_pose_not_reached" (trace s) = goal_failed_count s /\
  List.length (goals_sent (trace s)) = goal_sent_count s.
Proof.
  apply (steps_invariant log_agrees step_log_agrees
                         (init (parameters env)) s).
  - apply steps_main, Hend.
  - repeat apply conj; reflexivity.
Qed.

Lemma rectangular_append row (df : DataFrame) :
  rectangular df -> List.length row = List.length (columns df) ->
  rectangular (df_append row df).
Proof.
  unfold rectangular, df_append. cbn. intros H Hr.
  apply Forall_app. split; [exact H|]. constructor; [exact Hr|constructor].
Qed.

Lemma serve_tables_well_formed s cb :
  tables_well_formed s -> tables_well_formed (serve s cb).
Proof.
  intros (C1 & C2 & C3 & R1 & R2 & R3).
  destruct cb; cbn [serve].
  - unfold scan_callback. destruct (negb _); repeat apply conj; assumption.
  - unfold amcl_particles_callback.
    destruct (negb _); repeat apply conj; assumption.
  - unfold estimated_pose_correction_callback.
    destruct (negb _); [repeat apply conj; assumption|].
    destruct (negb _); [repeat apply conj; assumption|].
    repeat apply conj; try assumption.
    cbn. apply rectangular_append; [exact R2|]. rewrite C2. reflexivity.
  - unfold ground_truth_pose_callback.
    destruct (negb _); [repeat apply conj; assumption|].
    repeat apply conj; try assumption.
    cbn. apply rectangular_append; [exact R3|]. rewrite C3. reflexivity.
  - repeat apply conj; assumption.
  - snapshot_tick_cases; repeat apply conj; assumption.
  - unfold write_estimated_pose_timer_callback.
    destruct (negb _); [repeat apply conj; assumption|].
    destruct lookup; [|repeat apply conj; assumption].
    repeat apply conj; try assumption.
    cbn. apply rectangular_append; [exact R1|]. rewrite C1. reflexivity.
  - repeat apply conj; assumption.
Qed.

Lemma serve_same_constants s cb : same_constants s (serve s cb).
Proof.
  unfold same_constants.
  destruct cb; cbn [serve]; try (repeat apply conj; reflexivity);
    try (snapshot_tick_cases; repeat apply conj; reflexivity).
  - unfold scan_callback. destruct (negb _); repeat apply conj; reflexivity.
  - unfold amcl_particles_callback.
    destruct (negb _); repeat apply conj; reflexivity.
  - unfold estimated_pose_correction_callback.
    destruct (negb _); [repeat apply conj; reflexivity|].
    destruct (negb _); repeat apply conj; reflexivity.
  - unfold ground_truth_pose_callback.
    destruct (negb _); repeat apply conj; reflexivity.
  - unfold write_estimated_pose_timer_callback.
    destruct (negb _); [repeat apply conj; reflexivity|].
    destruct lookup; repeat apply conj; reflexivity.
Qed.

Lemma step_same_constants s s' : step s s' -> same_constants s s'.
Proof.
  intro Hstep.
  destruct Hstep as [s cb|s a Ha|s e He|s l|s pose rest Hq|s|s|s Hq|s|s Hs];
    try (repeat apply conj; reflexivity).
  apply serve_same_constants.
Qed.

Lemma steps_same_constants s s' : steps s s' -> same_constants s s'.
Proof.
  intro H. induction H as [|s1 s2 H12 IH H2].
  - repeat apply conj; reflexivity.
  - destruct IH as (A1 & A2 & A3 & A4).
    destruct (step_same_constants _ _ H2) as (B1 & B2 & B3 & B4).
    repeat apply conj; congruence.
Qed.

Lemma csv_files_act a t :
  csv_files (t ++ [a])
  = csv_files t ++ match a with ToCsv p df => [(p, df)] | _ => [] end.
Proof.
  rewrite csv_files_app. f_equal. destruct a; reflexivity.
Qed.

Lemma step_csv_well_formed c s s' :
  step s s' ->
  cfg s = c /\ tables_well_formed s
  /\ Forall (csv_well_formed c) (csv_files (trace s)) ->
  cfg s' = c /\ tables_well_formed s'
  /\ Forall (csv_well_formed c) (csv_files (trace s')).
Proof.
  intros Hstep (Hc & Ht & Hf).
  destruct (step_same_constants _ _ Hstep) as (Hc' & _).
  split; [congruence|].
  destruct Hstep as [s cb|s a Ha|s e He|s l|s pose rest Hq|s|s|s Hq|s|s Hs].
  - split; [apply serve_tables_well_formed, Ht|].
    destruct (serve_same_dispatch_state s cb)
      as (_ & _ & _ & _ & _ & _ & _ & _ & ->).
    exact Hf.
  - split; [exact Ht|]. rewrite trace_act, csv_files_act.
    destruct a; try discriminate; rewrite app_nil_r; exact Hf.
  - split; [exact Ht|]. rewrite trace_write_event, csv_files_act.
    rewrite app_nil_r; exact Hf.
  - split; [exact Ht|]. cbn -[csv_files].
    rewrite !csv_files_act, !app_nil_r. exact Hf.
  - split; [exact Ht|]. cbn -[csv_files].
    rewrite !csv_files_act, !app_nil_r. exact Hf.
  - split; [exact Ht|]. cbn -[csv_files].
    rewrite !csv_files_act, !app_nil_r. exact Hf.
  - split; [exact Ht|]. cbn -[csv_files].
    rewrite !csv_files_act, !app_nil_r. exact Hf.
  - split; [exact Ht|]. cbn -[csv_files].
    rewrite !csv_files_act, !app_nil_r. exact Hf.
  - split; [exact Ht|].
    destruct Ht as (C1 & C2 & C3 & R1 & R2 & R3).
    unfold end_run. cbn -[csv_files]. rewrite !csv_files_act.
    rewrite Hc.
    repeat (apply Forall_app; split); try exact Hf;
      (constructor; [|constructor]); split; cbn [fst snd]; auto.
  - split; [exact Ht|]. cbn -[csv_files].
    rewrite !csv_files_act, !app_nil_r. exact Hf.
Qed.

(** X3.  Once the node is constructed, at the end of [main] the
    three tables have the columns [__init__] gives them and every row
    has one value per column; and every file [to_csv] has written is
    one of the three tables, at its own path, with its columns and
    with rows of that width. *)
Theorem csv_tables_are_rectangular
        (env : Environment) (s : Supervisor)
        (Hend : snd (main env) = Some s) :
  tables_well_formed s /\
  Forall (csv_well_formed (parameters env)) (csv_files (trace s)).
Proof.
  apply (steps_invariant
           (fun s => cfg s = parameters env /\ tables_well_formed s
                     /\ Forall (csv_well_formed (parameters env))
                               (csv_files (trace s)))
           (step_csv_well_formed (parameters env))
           (init (parameters env)) s).
  - apply steps_main, Hend.
  - split; [reflexivity|]. split.
    + repeat apply conj; try reflexivity; constructor.
    + constructor.
Qed.

(** X4.  Once the node is constructed, [main] never assigns the
    configuration read by [__init__], nor [terminate], [initial_pose]
    and [goal_rejected_count]: at the end they have the values
    [__init__] gave them, so no goal is ever counted as rejected. *)
Theorem rejected_count_is_never_written
        (env : Environment) (s : Supervisor)
        (Hend : snd (main env) = Some s) :
  cfg s = parameters env /\
  terminate s = false /\
  initial_pose s = None /\
  goal_rejected_count s = 0.
Proof.
  exact (steps_same_constants _ _ (steps_main env s Hend)).
Qed.

Lemma events_act a t :
  events (t ++ [a])
  = events t ++ match a with Event e => [e] | _ => [] end.
Proof.
  rewrite events_app. f_equal. destruct a; reflexivity.
Qed.

Lemma lines_appended_act path a t :
  lines_appended path (t ++ [a])
  = lines_appended path t
    ++ match a with
       | AppendLine p l => if String.eqb p path then [l] else []
       | _ => []
       end.
Proof.
  rewrite lines_appended_app. f_equal. destruct a; try reflexivity.
  cbn. apply app_nil_r.
Qed.

(** A step only adds events to the log. *)
Lemma step_events_grow s s' :
  step s s' -> exists evs, events (trace s') = events (trace s) ++ evs.
Proof.
  intro Hstep.
  destruct Hstep as [s cb|s a Ha|s e He|s l|s pose rest Hq|s|s|s Hq|s|s Hs];
    try (rewrite serve_events; eexists; reflexivity);
    try (unfold signal_shutdown, end_run); cbn -[events];
    rewrite ?events_act, <- ?app_assoc; eexists; reflexivity.
Qed.

(** Before the run starts a callback records nothing. *)
Lemma serve_idle s cb :
  run_started s = false ->
  run_started (serve s cb) = false /\
  estimated_poses_df (serve s cb) = estimated_poses_df s /\
  estimated_correction_poses_df (serve s cb)
  = estimated_correction_poses_df s /\
  ground_truth_poses_df (serve s cb) = ground_truth_poses_df s /\
  forall path,
    lines_appended path (trace (serve s cb)) = lines_appended path (trace s).
Proof.
  intro Hidle.
  destruct cb; cbn [serve].
  - unfold scan_callback.
    change (run_started (set_received_first_scan true s))
      with (run_started s).
    rewrite Hidle. cbn [negb]. repeat apply conj; auto.
  - unfold amcl_particles_callback. rewrite Hidle. cbn [negb].
    repeat apply conj; auto.
  - unfold estimated_pose_correction_callback. rewrite Hidle. cbn [negb].
    repeat apply conj; auto.
  - unfold ground_truth_pose_callback.
    change (run_started (set_latest_ground_truth_pose_msg
                           (Some msg) s))
      with (run_started s).
    rewrite Hidle. cbn [negb]. repeat apply conj; auto.
  - unfold run_timeout_callback, signal_shutdown.
    repeat apply conj; auto.
    intro path. cbn -[lines_appended].
    rewrite !lines_appended_act, !app_nil_r. reflexivity.
  - snapshot_tick_cases; repeat apply conj; auto.
    intro path. cbn -[lines_appended].
    rewrite !lines_appended_act, !app_nil_r. reflexivity.
  - unfold write_estimated_pose_timer_callback. rewrite Hidle. cbn [negb].
    repeat apply conj; auto.
  - repeat apply conj; auto.
Qed.

Lemma step_recorded_after_run_start s s' :
  step s s' ->
  In "run_start" (events (trace s)) \/
  (run_started s = false /\ nothing_recorded s /\
   Forall (fun file => rows (snd file) = []) (csv_files (trace s))) ->
  In "run_start" (events (trace s')) \/
  (run_started s' = false /\ nothing_recorded s' /\
   Forall (fun file => rows (snd file) = []) (csv_files (trace s'))).
Proof.
  intros Hstep [Hin|(Hidle & (R1 & R2 & R3 & Hl) & Hf)].
  { left. destruct (step_events_grow _ _ Hstep) as (evs & ->).
    apply in_or_app. left. exact Hin. }
  unfold nothing_recorded.
  destruct Hstep as [s cb|s a Ha|s e He|s l|s pose rest Hq|s|s|s Hq|s|s Hs].
  - right. destruct (serve_idle s cb Hidle) as (I0 & I1 & I2 & I3 & I4).
    destruct (serve_same_dispatch_state s cb)
      as (_ & _ & _ & _ & _ & _ & _ & _ & ->).
    rewrite I0, I1, I2, I3. repeat apply conj; auto.
    intro path. rewrite I4. apply Hl.
  - right. repeat apply conj; auto.
    + intro path. rewrite trace_act, lines_appended_act.
      destruct a; try discriminate; rewrite app_nil_r; apply Hl.
    + rewrite trace_act, csv_files_act.
      destruct a; try discriminate; rewrite app_nil_r; exact Hf.
  - right. repeat apply conj; auto.
    + intro path. rewrite trace_write_event, lines_appended_act.
      rewrite app_nil_r; apply Hl.
    + rewrite trace_write_event, csv_files_act.
      rewrite app_nil_r; exact Hf.
  - left. cbn -[events]. rewrite !events_act. cbn.
    apply in_or_app. right. left. reflexivity.
  - right. repeat apply conj; auto.
    + intro path. cbn -[lines_appended].
      rewrite !lines_appended_act, !app_nil_r. apply Hl.
    + cbn -[csv_files]. rewrite !csv_files_act, !app_nil_r. exact Hf.
  - right. repeat apply conj; auto.
    + intro path. cbn -[lines_appended].
      rewrite !lines_appended_act, !app_nil_r. apply Hl.
    + cbn -[csv_files]. rewrite !csv_files_act, !app_nil_r. exact Hf.
  - right. repeat apply conj; auto.
    + intro path. cbn -[lines_appended].
      rewrite !lines_appended_act, !app_nil_r. apply Hl.
    + cbn -[csv_files]. rewrite !csv_files_act, !app_nil_r. exact Hf.
  - right. unfold signal_shutdown. repeat apply conj; auto.
    + intro path. cbn -[lines_appended].
      rewrite !lines_appended_act, !app_nil_r. apply Hl.
    + cbn -[csv_files]. rewrite !csv_files_act, !app_nil_r. exact Hf.
  - right. unfold end_run. repeat apply conj; auto.
    + intro path. cbn -[lines_appended].
      rewrite !lines_appended_act, !app_nil_r. apply Hl.
    + cbn -[csv_files]. rewrite !csv_files_act.
      repeat (apply Forall_app; split); try exact Hf;
        (constructor; [|constructor]); cbn [fst snd]; assumption.
  - right. unfold signal_shutdown. repeat apply conj; auto.
    + intro path. cbn -[lines_appended].
      rewrite !lines_appended_act, !app_nil_r. apply Hl.
    + cbn -[csv_files]. rewrite !csv_files_act, !app_nil_r. exact Hf.
Qed.

(** X5.  Once the node is constructed, when [main] ends without the
    event [run_start] in the log (the planning failed, or the wait
    for the first scan was interrupted), nothing was recorded: the
    three tables have no row, no line was appended to any file, and
    the files [to_csv] has written hold no row. *)
Theorem nothing_recorded_without_run_start
        (env : Environment) (s : Supervisor)
        (Hend : snd (main env) = Some s)
        (Hnot : ~ In "run_start" (events (trace s))) :
  run_started s = false /\
  nothing_recorded s /\
  Forall (fun file => rows (snd file) = []) (csv_files (trace s)).
Proof.
  destruct (steps_invariant _ step_recorded_after_run_start
                            (init (parameters env)) s
                            (steps_main env s Hend)) as [Hin|H].
  - right. repeat apply conj; try reflexivity; constructor.
  - contradiction.
  - exact H.
Qed.

End RunInvariants.

(** At the end of the example run over the line of three vertices
    the log and the counters agree. *)
Lemma event_log_agrees_with_counters_witness :
  exists s,
    snd (@main example_runtime
               (example_run line (fun _ => turn_seen_at 10 0)))
    = Some s /\
    event_count "target_pose_set" (trace s) = goal_sent_count s /\
    event_count "target_pose_reached" (trace s) = goal_succeeded_count s /\
    event_count "target_pose_not_reached" (trace s) = goal_failed_count s /\
    List.length (goals_sent (trace s)) = goal_sent_count s.
Proof.
  eexists. split; [vm_compute; reflexivity|].
  apply (@event_log_agrees_with_counters
           example_runtime (example_run line (fun _ => turn_seen_at 10 0))).
  vm_compute. reflexivity.
Defined.

(** The tables written at the end of the example run over the line
    of three vertices. *)
Lemma csv_tables_are_rectangular_witness :
  exists s,
    snd (@main example_runtime
               (example_run line (fun _ => turn_seen_at 10 0)))
    = Some s /\
    tables_well_formed s /\
    Forall (csv_well_formed example_config) (csv_files (trace s)).
Proof.
  eexists. split; [vm_compute; reflexivity|].
  apply (@csv_tables_are_rectangular
           example_runtime (example_run line (fun _ => turn_seen_at 10 0))).
  vm_compute. reflexivity.
Defined.

(** No goal is counted as rejected in the example run in which the
    first goal is not reached in time. *)
Lemma rejected_count_is_never_written_witness :
  exists s,
    snd (@main example_runtime (example_run line (fun _ => late_turn)))
    = Some s /\
    cfg s = example_config /\
    terminate s = false /\
    initial_pose s = None /\
    goal_rejected_count s = 0.
Proof.
  eexists. split; [vm_compute; reflexivity|].
  apply (@rejected_count_is_never_written
           example_runtime (example_run line (fun _ => late_turn))).
  vm_compute. reflexivity.
Defined.

(** The run over two vertices without edge: the planning fails and
    nothing is recorded. *)
Lemma nothing_recorded_without_run_start_witness :
  exists s,
    snd (@main example_runtime
               (example_run two_dots (fun _ => quiet_turn)))
    = Some s /\
    ~ In "run_start" (events (trace s)) /\
    run_started s = false /\
    nothing_recorded s /\
    Forall (fun file => rows (snd file) = []) (csv_files (trace s)).
Proof.
  eexists. split; [vm_compute; reflexivity|].
  assert (Hnot : ~ In "run_start"
                      (events
                         (trace
                            (snd (handle
                                    (fst (@try_block
                                            example_runtime
                                            (example_run two_dots
                                                         (fun _ => quiet_turn))
                                            (init example_config)))
                                    (snd (@try_block
                                            example_runtime
                                            (example_run two_dots
                                                         (fun _ => quiet_turn))
                                            (init example_config)))))))).
  { vm_compute. intros [H|[]]. discriminate. }
  split; [exact Hnot|].
  apply (@nothing_recorded_without_run_start
           example_runtime (example_run two_dots (fun _ => quiet_turn)));
    [reflexivity|exact Hnot].
Defined.

(* ================================================================= *)
(** ** The log of events along the goal loop *)

Section LoopEvents.

Context {rt : PyRuntime}.

Lemma serve_logged s cb e :
  ~ timeout_event e ->
  (In e (events (trace (serve s cb))) <-> In e (events (trace s))).
Proof.
  intro He. rewrite serve_events, in_app_iff.
  split; [|auto]. intros [H|H]; [exact H|].
  exfalso. apply He. unfold timeout_event.
  destruct cb; cbn in H; intuition.
Qed.

Lemma serve_all_logged cbs e :
  ~ timeout_event e ->
  forall s,
    In e (events (trace (serve_all cbs s))) <-> In e (events (trace s)).
Proof.
  intro He. unfold serve_all.
  induction cbs as [|cb cbs IH]; intro s; cbn [fold_left]; [tauto|].
  rewrite IH. apply serve_logged, He.
Qed.

Lemma write_event_logged e' s e :
  e <> e' ->
  (In e (events (trace (write_event e' s))) <-> In e (events (trace s))).
Proof.
  intro He. rewrite trace_write_event, events_act, in_app_iff.
  cbn. intuition congruence.
Qed.

Lemma dispatch_logged it s ev :
  ~ timeout_event ev ->
  ev <> "failed_to_communicate_with_navigation_node" ->
  ev <> "insufficient_number_of_poses_in_traversal_path" ->
  ev <> "target_pose_set" ->
  match dispatch it s with
  | Fail _ s1 | Go _ s1 =>
      In ev (events (trace s1)) <-> In ev (events (trace s))
  end.
Proof.
  intros H1 H2 H3 H4. unfold dispatch.
  pose proof (serve_all_logged (inbound_at_wait_for_server it) ev H1 s) as H0.
  set (s0 := serve_all (inbound_at_wait_for_server it) s) in *.
  destruct (server_available it); cbn [negb].
  - destruct (traversal_path_poses s0) as [[|pose rest]|].
    + rewrite write_event_logged by exact H3. exact H0.
    + cbn -[events]. rewrite !events_act, !in_app_iff. cbn.
      rewrite H0. intuition congruence.
    + exact H0.
  - rewrite write_event_logged by exact H2. exact H0.
Qed.

Lemma await_result_logged it s ev :
  ~ timeout_event ev ->
  ev <> "waypoint_timeout" ->
  match await_result it s with
  | Fail _ s1 | Go _ s1 =>
      In ev (events (trace s1)) <-> In ev (events (trace s))
  end.
Proof.
  intros H1 H2. unfold await_result.
  pose proof (serve_all_logged (inbound_at_wait_for_result it) ev H1 s) as H0.
  destruct (interrupted it); [exact H0|].
  destruct (result_in_time it); cbn [negb]; [exact H0|].
  rewrite !write_event_logged; [exact H0|exact H2|].
  intro E. apply H1. right. exact E.
Qed.

Lemma classify_logged state goal_msg s ev :
  ev <> "target_pose_reached" ->
  ev <> "target_pose_not_reached" ->
  match classify state goal_msg s with
  | Fail _ s1 | Go _ s1 =>
      In ev (events (trace s1)) <-> In ev (events (trace s))
  end.
Proof.
  intros H1 H2. unfold classify.
  destruct (is_succeeded state).
  - destruct (latest_ground_truth_pose_msg s); [|tauto].
    destruct (distance_from_goal _ _) as [distance|]; [|tauto].
    destruct (PrimFloat.ltb _ _);
      cbn -[events]; rewrite !events_act, !in_app_iff; cbn;
      intuition congruence.
  - cbn -[events]. rewrite !events_act, !in_app_iff. cbn.
    intuition congruence.
Qed.

Lemma next_or_complete_logged it s ev :
  ~ timeout_event ev ->
  ev <> "run_completed" ->
  In ev (events (trace (snd (next_or_complete it s))))
  <-> In ev (events (trace s)).
Proof.
  intros H1 H2. unfold next_or_complete.
  destruct (traversal_path_poses s) as [[|pose rest]|]; cbn [snd].
  - unfold signal_shutdown. cbn -[events].
    rewrite !events_act, !in_app_iff. cbn. intuition congruence.
  - destruct (sleep_interrupted it); cbn [snd];
      apply serve_all_logged, H1.
  - tauto.
Qed.

End LoopEvents.

(* ================================================================= *)
(** ** The goal loop and the queue of poses *)

Section LoopQueue.

Context {rt : PyRuntime}.

(** One turn of the goal loop, seen from the queue: either no goal is
    sent and the turn raises, or the first pose is sent; the loop
    goes on only with a pose left. *)
Lemma goal_iteration_queue it s q :
  traversal_path_poses s = Some q ->
  cfg (snd (goal_iteration it s)) = cfg s /\
  ((traversal_path_poses (snd (goal_iteration it s)) = Some q /\
    goals_sent (trace (snd (goal_iteration it s))) = goals_sent (trace s) /\
    goal_sent_count (snd (goal_iteration it s)) = goal_sent_count s /\
    (server_available it = true -> q = []) /\
    exists e, fst (goal_iteration it s) = Some (Raised e)) \/
   (exists pose rest,
       q = pose :: rest /\
       traversal_path_poses (snd (goal_iteration it s)) = Some rest /\
       goals_sent (trace (snd (goal_iteration it s)))
       = goals_sent (trace s) ++ [goal_to (cfg s) pose] /\
       goal_sent_count (snd (goal_iteration it s)) = goal_sent_count s + 1 /\
       (fst (goal_iteration it s) = None -> rest <> []) /\
       (fst (goal_iteration it s) = Some Returned ->
        rest = [] /\ is_shutdown (snd (goal_iteration it s)) = true))).
Proof.
  intro Hq. unfold goal_iteration.
  destruct (dispatch it s) as [e s1|goal_msg s1] eqn:Hd.
  { destruct (dispatch_fail _ _ _ _ Hd)
      as ((Hc & Ht & _ & _ & Hn & _ & _ & Hg & _) & _).
    cbn [fst snd]. split; [exact Hc|]. left.
    repeat apply conj; try congruence; [|eexists; reflexivity].
    intro Hserver. destruct q as [|pose rest]; [reflexivity|].
    destruct (dispatch_sends it s pose rest Hserver Hq) as (s1' & Hd').
    congruence. }
  pose proof (dispatch_go _ _ _ _ Hd)
    as (rest & Ht0 & Hfr & Ht1 & _ & _ & Hc1 & Hn1 & _ & _ & _ & _ & Htr).
  pose proof (serve_all_same_dispatch_state
                (inbound_at_wait_for_server it) s)
    as (_ & Hts & _ & _ & _ & _ & _ & Hgs & _).
  assert (Hgoal : goal_msg = goal_to (cfg s) (target_pose goal_msg)).
  { destruct goal_msg as [f p]. unfold goal_to. cbn in *. congruence. }
  assert (Hq' : q = target_pose goal_msg :: rest) by congruence.
  assert (Hg1 : goals_sent (trace s1)
                = goals_sent (trace s)
                  ++ [goal_to (cfg s) (target_pose goal_msg)]).
  { rewrite Htr, goals_sent_app, Hgs, <- Hgoal. cbn.
    reflexivity. }
  pose proof (await_result_same it s1) as Ha.
  destruct (await_result it s1) as [e s2|u s2].
  { destruct Ha as (Hc2 & Ht2 & _ & _ & Hn2 & _ & _ & Hg2 & _).
    cbn [fst snd]. split; [congruence|]. right.
    exists (target_pose goal_msg), rest.
    repeat apply conj; try congruence; discriminate. }
  destruct Ha as (Hc2 & Ht2 & _ & _ & Hn2 & _ & _ & Hg2 & _).
  destruct (classify (navigation_state it) goal_msg s2)
    as [e s3|u' s3] eqn:Hk.
  { destruct (classify_fail _ _ _ _ _ Hk) as (-> & _).
    cbn [fst snd]. split; [congruence|]. right.
    exists (target_pose goal_msg), rest.
    repeat apply conj; try congruence; discriminate. }
  destruct u'.
  pose proof (classify_go _ _ _ _ Hk)
    as (Hc3 & Ht3 & _ & Hn3 & _ & Hs3 & Hg3 & _).
  pose proof (next_or_complete_same it s3)
    as (Hc4 & Ht4 & _ & _ & Hn4 & _ & _ & Hg4 & _).
  split; [congruence|]. right.
  exists (target_pose goal_msg), rest.
  repeat apply conj; try congruence.
  - unfold next_or_complete. rewrite Ht3, Ht2, Ht1.
    destruct rest; [discriminate|]. intros _. discriminate.
  - unfold next_or_complete. rewrite Ht3, Ht2, Ht1.
    destruct rest as [|p rest'].
    + intros _. split; reflexivity.
    + destruct (sleep_interrupted it); discriminate.
Qed.

(** X6.  The goal loop sends the poses of the queue in order, each
    once at most and none skipped: whenever it stops, the goals it
    has sent are the goals to the first poses of the queue, the
    poses left are the others, and [goal_sent_count] has grown by
    the number of goals sent. *)
Theorem goals_sent_in_queue_order
        (its : nat -> Iteration) (fuel k : nat) (s : Supervisor)
        (q : list Pose)
        (Hq : traversal_path_poses s = Some q) :
  exists sent rest,
    q = sent ++ rest /\
    traversal_path_poses (snd (send_goals fuel k its s)) = Some rest /\
    goals_sent (trace (snd (send_goals fuel k its s)))
    = goals_sent (trace s) ++ map (goal_to (cfg s)) sent /\
    goal_sent_count (snd (send_goals fuel k its s))
    = goal_sent_count s + List.length sent.
Proof.
  revert k s q Hq.
  induction fuel as [|fuel IH]; intros k s q Hq; cbn [send_goals].
  { exists [], q. cbn. rewrite app_nil_r.
    repeat apply conj; auto; lia. }
  destruct (is_shutdown s).
  { exists [], q. cbn. rewrite app_nil_r.
    repeat apply conj; auto; lia. }
  destruct (goal_iteration_queue (its k) s q Hq)
    as (Hc & [(Ht & Hg & Hn & _ & e & He)|
              (pose & rest & -> & Ht & Hg & Hn & Hgo & _)]).
  - destruct (goal_iteration (its k) s) as [o s']; cbn [fst snd] in *.
    subst o. cbn [snd].
    exists [], q. cbn. rewrite app_nil_r. repeat apply conj; auto; lia.
  - destruct (goal_iteration (its k) s) as [[o|] s']; cbn [fst snd] in *.
    + exists [pose], rest. cbn. repeat apply conj; auto.
    + destruct (IH (S k) s' rest Ht) as (sent & rest' & -> & Ht' & Hg' & Hn').
      exists (pose :: sent), rest'. cbn [map List.length app].
      repeat apply conj; auto.
      * rewrite Hg', Hg, Hc, <- app_assoc. reflexivity.
      * rewrite Hn', Hn. lia.
Qed.

End LoopQueue.

(** The three goals of the example tour are sent in order. *)
Lemma goals_sent_in_queue_order_witness :
  exists sent rest,
    [pose_at 10 0; pose_at 0 0; pose_at 20 0] = sent ++ rest /\
    traversal_path_poses
      (snd (@send_goals example_runtime 4 0 (fun _ => turn_seen_at 10 0)
                        example_ready))
    = Some rest /\
    goals_sent
      (trace (snd (@send_goals example_runtime 4 0
                               (fun _ => turn_seen_at 10 0)
                               example_ready)))
    = goals_sent (trace example_ready)
      ++ map (goal_to (cfg example_ready)) sent /\
    goal_sent_count
      (snd (@send_goals example_runtime 4 0 (fun _ => turn_seen_at 10 0)
                        example_ready))
    = goal_sent_count example_ready + List.length sent.
Proof.
  exact (@goals_sent_in_queue_order
           example_runtime (fun _ => turn_seen_at 10 0) 4 0 example_ready
           [pose_at 10 0; pose_at 0 0; pose_at 20 0] eq_refl).
Defined.


(* ================================================================= *)
(** ** The end of the tour *)

Section TourEnd.

Context {rt : PyRuntime}.

Lemma tour_poses_same_length g orientations tour :
  forall k l,
    tour_poses g orientations k tour = Some l ->
    List.length l = List.length tour.
Proof.
  induction tour as [|v tour IH]; intros k l; cbn [tour_poses].
  - intros [= <-]. reflexivity.
  - destruct (dict_get v (nx.nodes g)); [|discriminate].
    destruct (tour_poses g orientations (S k) tour) eqn:E; [|discriminate].
    intros [= <-]. cbn. f_equal. eapply IH, E.
Qed.

(** The greedy loop only adds to the tour, and adds a node when the
    queue is not empty. *)
Lemma greedy_loop_extends costs fuel :
  forall current_node nodes_queue acc tour,
    greedy_loop fuel costs current_node nodes_queue acc = Some (inr tour) ->
    List.length acc <= List.length tour /\
    (nodes_queue <> [] -> List.length acc < List.length tour).
Proof.
  induction fuel as [|fuel IH]; intros cur q acc tour;
    destruct q as [|v q']; cbn [greedy_loop].
  - intros [= <-]. split; [lia|congruence].
  - discriminate.
  - intros [= <-]. split; [lia|congruence].
  - destruct (filter _ (costs_row cur costs)) as [|c cs]; [discriminate|].
    intro H. apply IH in H as [H _]. rewrite length_app in H. cbn in H.
    split; [lia|]. intros _. lia.
Qed.

(** The planner never gives an empty queue of poses. *)
Lemma plan_nonempty env s l s' : plan env s = Go l s' -> l <> [].
Proof.
  unfold plan.
  destruct (traversal_path_unfold env s) as (costs & _ & _ & ->).
  cbn zeta.
  destruct (_ <? 2) eqn:Hsize; [discriminate|].
  apply Nat.ltb_ge in Hsize.
  set (pruned := pruned_graph (voronoi_graph env)) in *.
  set (start := random_choice (random_index env) (nx.node_ids pruned)).
  assert (Hstart : In start (nx.node_ids pruned)).
  { apply random_choice_In. unfold nx.node_ids, keys.
    destruct (nx.nodes pruned); [cbn in Hsize; lia|discriminate]. }
  destruct (greedy_loop _ _ _ _ _) as [[e|tour]|] eqn:Hg; try discriminate.
  destruct (tour_poses _ _ _ _) as [l'|] eqn:Hp; [|discriminate].
  intros [= <- _].
  apply tour_poses_same_length in Hp.
  apply greedy_loop_extends in Hg as [_ Hg].
  assert (Hq : nx.node_connected_component pruned start <> []).
  { unfold nx.node_connected_component.
    destruct (plain_bfs_spec pruned start Hstart) as [_ Hc].
    intro E. specialize (Hc start). rewrite E in Hc.
    apply Hc. constructor. exact Hstart. }
  specialize (Hg Hq). cbn in Hg.
  destruct l'; [cbn in Hp; lia|discriminate].
Qed.

Lemma acts_logged l e :
  ~ In e (events l) ->
  forall s, In e (events (trace (acts l s))) <-> In e (events (trace s)).
Proof.
  intros He s. rewrite trace_acts, events_app, in_app_iff. tauto.
Qed.

Lemma plan_logged env s e :
  e <> "insufficient_number_of_nodes_in_deleaved_reduced_voronoi_graph" ->
  match plan env s with
  | Fail _ s' | Go _ s' =>
      In e (events (trace s')) <-> In e (events (trace s))
  end.
Proof.
  intro He.
  assert (Hp : In e (events
                       (trace (acts (planner_prefix (voronoi_graph env)) s)))
               <-> In e (events (trace s))).
  { apply acts_logged.
    destruct (planner_prefix_reads (voronoi_graph env)) as (_ & -> & _).
    intros []. }
  unfold plan.
  destruct (traversal_path_unfold env s) as (costs & _ & _ & ->).
  cbn zeta.
  destruct (_ <? 2).
  - rewrite write_event_logged by exact He. exact Hp.
  - assert (H3 : In e (events
                         (trace
                            (act (NodeConnectedComponent
                                    (pruned_graph (voronoi_graph env))
                                    (random_choice
                                       (random_index env)
                                       (nx.node_ids
                                          (pruned_graph (voronoi_graph env)))))
                                 (acts (planner_prefix (voronoi_graph env))
                                       s))))
                 <-> In e (events (trace s))).
    { rewrite trace_act, events_act, app_nil_r. exact Hp. }
    destruct (greedy_loop _ _ _ _ _) as [[e'|tour]|]; try exact H3.
    destruct (tour_poses _ _ _ _); exact H3.
Qed.

Lemma wait_for_first_scan_logged polls e :
  ~ timeout_event e ->
  forall s,
    In e (events (trace (snd (wait_for_first_scan polls s))))
    <-> In e (events (trace s)).
Proof.
  intro He.
  induction polls as [|cbs polls IH]; intro s; cbn [wait_for_first_scan].
  - destruct (_ && _); tauto.
  - destruct (_ && _); cbn [snd]; [|tauto].
    rewrite IH. apply serve_all_logged, He.
Qed.

Lemma spin_logged polls e :
  ~ timeout_event e ->
  forall s,
    In e (events (trace (snd (spin polls s)))) <-> In e (events (trace s)).
Proof.
  intro He.
  induction polls as [|cbs polls IH]; intro s; cbn [spin].
  - destruct (is_shutdown s); tauto.
  - destruct (is_shutdown s); [tauto|].
    rewrite IH. apply serve_all_logged, He.
Qed.

Lemma finally_logged s e :
  In e (events (trace (finally s))) <-> In e (events (trace s)).
Proof.
  unfold finally, end_run, signal_shutdown.
  destruct (negb _); cbn -[events];
    rewrite !events_act, !app_nil_r; tauto.
Qed.

Lemma handle_logged o s e :
  ~ timeout_event e -> e <> "ros_shutdown" ->
  In e (events (trace (snd (handle o s)))) <-> In e (events (trace s)).
Proof.
  intros H1 H2. unfold handle.
  destruct o as [ |[ | | | | | | | | | ]| | ]; cbn [snd];
    rewrite ?finally_logged; try tauto.
  unfold ros_shutdown_callback.
  rewrite !write_event_logged; [tauto|exact H2|].
  intro E. apply H1. right. exact E.
Qed.

(** One turn of the goal loop writes [run_completed] only when it
    ends the loop by a return. *)
Lemma goal_iteration_run_completed it s :
  In "run_completed" (events (trace (snd (goal_iteration it s)))) ->
  In "run_completed" (events (trace s)) \/
  fst (goal_iteration it s) = Some Returned.
Proof.
  assert (Hno : ~ timeout_event "run_completed").
  { intros [E|E]; discriminate. }
  unfold goal_iteration.
  pose proof (dispatch_logged it s "run_completed" Hno) as H1.
  destruct (dispatch it s) as [e s1|goal_msg s1]; cbn [fst snd].
  { intro H. left. apply H1; try discriminate. exact H. }
  pose proof (await_result_logged it s1 "run_completed" Hno) as H2.
  destruct (await_result it s1) as [e s2|u s2]; cbn [fst snd].
  { intro H. left. apply H1; try discriminate.
    apply H2; try discriminate. exact H. }
  pose proof (classify_logged (navigation_state it) goal_msg s2
                              "run_completed") as H3.
  destruct (classify _ _ s2) as [e s3|u' s3]; cbn [fst snd].
  { intro H. left. apply H1; try discriminate.
    apply H2; try discriminate. apply H3; try discriminate. exact H. }
  unfold next_or_complete.
  destruct (traversal_path_poses s3) as [[|p rest]|]; cbn [fst snd].
  - intros _. right. reflexivity.
  - intro H. left. apply H1; try discriminate.
    apply H2; try discriminate. apply H3; try discriminate.
    destruct (sleep_interrupted it); cbn [snd] in H;
      apply (serve_all_logged (inbound_at_sleep it) _ Hno s3) in H; exact H.
  - intro H. left. apply H1; try discriminate.
    apply H2; try discriminate. apply H3; try discriminate. exact H.
Qed.

(** With a pose in the queue, one turn of the goal loop does not
    write the event of the empty queue. *)
Lemma goal_iteration_no_empty_queue it s pose rest :
  traversal_path_poses s = Some (pose :: rest) ->
  In "insufficient_number_of_poses_in_traversal_path"
     (events (trace (snd (goal_iteration it s)))) ->
  In "insufficient_number_of_poses_in_traversal_path" (events (trace s)).
Proof.
  set (e := "insufficient_number_of_poses_in_traversal_path").
  assert (Hno : ~ timeout_event e).
  { intros [E|E]; discriminate. }
  intro Hq.
  assert (H1 : match dispatch it s with
               | Fail _ s1 | Go _ s1 =>
                   In e (events (trace s1)) <-> In e (events (trace s))
               end).
  { unfold dispatch.
    pose proof (serve_all_logged (inbound_at_wait_for_server it) e Hno s)
      as H0.
    pose proof (serve_all_same_dispatch_state
                  (inbound_at_wait_for_server it) s) as (_ & Ht & _).
    rewrite Ht, Hq.
    destruct (server_available it); cbn [negb].
    - cbn -[events]. rewrite !events_act, !in_app_iff. cbn.
      rewrite H0. subst e. intuition congruence.
    - rewrite write_event_logged by discriminate. exact H0. }
  unfold goal_iteration.
  destruct (dispatch it s) as [e1 s1|goal_msg s1]; cbn [fst snd].
  { intro H. apply H1. exact H. }
  pose proof (await_result_logged it s1 e Hno) as H2.
  destruct (await_result it s1) as [e2 s2|u s2]; cbn [fst snd].
  { intro H. apply H1. apply H2; try discriminate. exact H. }
  pose proof (classify_logged (navigation_state it) goal_msg s2 e) as H3.
  destruct (classify _ _ s2) as [e3 s3|u' s3]; cbn [fst snd].
  { intro H. apply H1. apply H2; try discriminate.
    apply H3; try discriminate. exact H. }
  intro H. apply H1. apply H2; try discriminate.
  apply H3; try discriminate.
  apply (next_or_complete_logged it s3 e Hno) in H; [exact H|discriminate].
Qed.

Lemma send_goals_no_empty_queue its fuel :
  forall k s pose rest,
    traversal_path_poses s = Some (pose :: rest) ->
    In "insufficient_number_of_poses_in_traversal_path"
       (events (trace (snd (send_goals fuel k its s)))) ->
    In "insufficient_number_of_poses_in_traversal_path" (events (trace s)).
Proof.
  induction fuel as [|fuel IH]; intros k s pose rest Hq; cbn [send_goals];
    [auto|].
  destruct (is_shutdown s); [auto|].
  pose proof (goal_iteration_no_empty_queue (its k) s pose rest Hq) as Hi.
  destruct (goal_iteration_queue (its k) s _ Hq)
    as (_ & [(_ & _ & _ & _ & e & He)|
             (pose' & rest' & [= <- <-] & Ht & _ & _ & Hgo & _)]).
  - destruct (goal_iteration (its k) s) as [o s']; cbn [fst snd] in *.
    subst o. exact Hi.
  - destruct (goal_iteration (its k) s) as [[o|] s']; cbn [fst snd] in *;
      [exact Hi|].
    destruct rest as [|p rest']; [exfalso; apply Hgo; reflexivity|].
    intro H. apply Hi. eapply IH; eassumption.
Qed.

Lemma send_goals_run_completed its fuel :
  forall k s q,
    traversal_path_poses s = Some q ->
    In "run_completed" (events (trace (snd (send_goals fuel k its s)))) ->
    In "run_completed" (events (trace s)) \/
    (fst (send_goals fuel k its s) = Returned /\
     traversal_path_poses (snd (send_goals fuel k its s)) = Some []).
Proof.
  induction fuel as [|fuel IH]; intros k s q Hq; cbn [send_goals];
    [auto|].
  destruct (is_shutdown s); [auto|].
  pose proof (goal_iteration_run_completed (its k) s) as Hi.
  destruct (goal_iteration_queue (its k) s _ Hq)
    as (_ & [(_ & _ & _ & _ & e & He)|
             (pose & rest & -> & Ht & _ & _ & _ & Hret)]).
  - destruct (goal_iteration (its k) s) as [o s']; cbn [fst snd] in *.
    subst o. intro H. destruct (Hi H) as [Hin|[=]]. left; exact Hin.
  - destruct (goal_iteration (its k) s) as [[o|] s']; cbn [fst snd] in *.
    + intro H. destruct (Hi H) as [Hin|[= ->]]; [left; exact Hin|].
      right. destruct (Hret eq_refl) as [-> _]. split; [reflexivity|exact Ht].
    + intro H. destruct (IH (S k) s' rest Ht H) as [Hin|Hdone].
      * destruct (Hi Hin) as [Hin0|[=]]. left; exact Hin0.
      * right. exact Hdone.
Qed.

(** The counters and the queue when the goal loop starts. *)
Lemma run_start_lockstep env l s1 :
  plan env (snd (wait_for_first_scan (startup_polls env)
                                     (init (parameters env))))
  = Go l s1 ->
  in_lockstep (run_start l s1) /\ all_classified (run_start l s1) /\
  traversal_path_poses (run_start l s1) = Some l.
Proof.
  intro Hp.
  pose proof (wait_for_first_scan_spec (startup_polls env)
                                       (init (parameters env)))
    as ((_ & _ & _ & _ & Hn0 & Hs0 & Hf0 & _) & _).
  pose proof (plan_same env (snd (wait_for_first_scan
                                    (startup_polls env)
                                    (init (parameters env))))) as Hps.
  rewrite Hp in Hps.
  destruct Hps as ((_ & _ & _ & _ & Hn1 & Hs1 & Hf1 & _) & _).
  cbn in Hn0, Hs0, Hf0.
  split; [|split; [|reflexivity]].
  - apply plan_and_run_starts_in_lockstep. congruence.
  - unfold all_classified, run_start. cbn. lia.
Qed.

(** An event of the log that neither a callback, nor the planner,
    nor the start of the run, nor the handler of an interrupt writes
    was written by the goal loop. *)
Lemma main_loop_event env s e :
  snd (main env) = Some s ->
  ~ timeout_event e ->
  e <> "ros_shutdown" ->
  e <> "insufficient_number_of_nodes_in_deleaved_reduced_voronoi_graph" ->
  e <> "run_start" ->
  In e (events (trace s)) ->
  exists l s1,
    plan env (snd (wait_for_first_scan (startup_polls env)
                                       (init (parameters env))))
    = Go l s1 /\
    ~ In e (events (trace (run_start l s1))) /\
    let r := send_goals (S (List.length l)) 0 (iterations env)
                        (run_start l s1) in
    In e (events (trace (snd r))) /\
    exists r',
      (r' = r \/ (fst r = Returned /\ r' = spin (spin_polls env) (snd r))) /\
      s = snd (handle (fst r') (snd r')).
Proof.
  intros Hend H1 H2 H3 H4 Hin.
  unfold main in Hend.
  destruct (construction env) as [[ | | | | | | | | | ]|]; cbn [snd] in Hend;
    try discriminate.
  injection Hend as <-.
  apply handle_logged in Hin; [|exact H1|exact H2].
  unfold try_block, start_run in *.
  pose proof (wait_for_first_scan_logged (startup_polls env) e H1
                                         (init (parameters env))) as Hw.
  destruct (wait_for_first_scan (startup_polls env) (init (parameters env)))
    as [[|] s0]; cbn [fst snd] in *.
  2:{ exfalso.
      destruct (startup_interrupted env); cbn [fst snd] in Hin;
        apply Hw in Hin; cbn in Hin; destruct Hin. }
  unfold plan_and_run in *.
  pose proof (plan_logged env s0 e H3) as Hp.
  destruct (plan env s0) as [e0 s1|l s1].
  { exfalso. cbn [fst snd] in Hin.
    apply Hp, Hw in Hin. cbn in Hin. destruct Hin. }
  exists l, s1. split; [reflexivity|].
  change (set_run_started true
            (write_event "run_start"
               (set_num_goals (Some (List.length l))
                  (act (PublishPath
                          (fixed_frame
                             (cfg (set_traversal_path_poses (Some l) s1)))
                          l)
                       (set_traversal_path_poses (Some l) s1)))))
    with (run_start l s1) in *.
  assert (Hstart : ~ In e (events (trace (run_start l s1)))).
  { unfold run_start. cbn -[events]. rewrite !events_act, app_nil_r.
    rewrite in_app_iff. cbn. intros [H|[H|[]]]; [|congruence].
    apply Hp, Hw in H. cbn in H. destruct H. }
  split; [exact Hstart|]. cbn zeta.
  destruct (send_goals (S (List.length l)) 0 (iterations env)
                       (run_start l s1)) as [o s2] eqn:Hsg.
  cbn [fst snd] in *.
  destruct o; cbn [fst snd] in *.
  - split.
    + apply (spin_logged (spin_polls env) e H1 s2). exact Hin.
    + exists (spin (spin_polls env) s2). split; [right; auto|reflexivity].
  - split; [exact Hin|]. exists (Raised e0, s2). split; [left|]; reflexivity.
  - split; [exact Hin|]. exists (Hangs, s2). split; [left|]; reflexivity.
  - split; [exact Hin|]. exists (OutOfFuel, s2). split; [left|]; reflexivity.
Qed.

(** X7.  Once the node is constructed, the event of line 231 is never
    written: the queue of poses is never empty when a goal is to be
    sent, since the planner gives no empty queue and the loop ends
    when the last pose is sent. *)
Theorem empty_queue_event_is_never_written
        (env : Environment) (s : Supervisor)
        (Hend : snd (main env) = Some s) :
  ~ In "insufficient_number_of_poses_in_traversal_path" (events (trace s)).
Proof.
  intro Hin.
  destruct (main_loop_event
              env s "insufficient_number_of_poses_in_traversal_path" Hend)
    as (l & s1 & Hp & Hno & Hl & _);
    try discriminate; try exact Hin.
  { intros [E|E]; discriminate. }
  cbn zeta in Hl. apply Hno.
  pose proof (plan_nonempty _ _ _ _ Hp) as Hne.
  destruct l as [|pose rest]; [congruence|].
  eapply send_goals_no_empty_queue; [|exact Hl]. reflexivity.
Qed.

Lemma tour_completed_same s s' :
  same_dispatch_state s s' -> tour_completed s -> tour_completed s'.
Proof.
  intros (_ & Ht & Hn & _ & Hc & Hs & Hf & _) (n & H1 & H2 & H3 & H4).
  exists n. repeat apply conj; congruence.
Qed.

Lemma handle_tour_completed o s :
  tour_completed s -> tour_completed (snd (handle o s)).
Proof.
  intros (n & H1 & H2 & H3 & H4). exists n.
  unfold handle, finally, ros_shutdown_callback.
  destruct o as [ |[ | | | | | | | | | ]| | ]; cbn [snd];
    try (destruct (negb _)); repeat apply conj; assumption.
Qed.

(** X8.  Once the node is constructed, when the log of events holds
    [run_completed] at the end of [main], every goal of the tour was
    sent and counted: the queue of poses is empty, [goal_sent_count]
    is [num_goals], and the goals succeeded and failed add up to
    it. *)
Theorem run_completed_means_every_goal_counted
        (env : Environment) (s : Supervisor)
        (Hend : snd (main env) = Some s)
        (Hlog : In "run_completed" (events (trace s))) :
  exists n,
    num_goals s = Some n /\
    traversal_path_poses s = Some [] /\
    goal_sent_count s = n /\
    goal_succeeded_count s + goal_failed_count s = n.
Proof.
  destruct (main_loop_event env s "run_completed" Hend)
    as (l & s1 & Hp & Hno & Hl & r' & Hr' & ->);
    try discriminate; try exact Hlog.
  { intros [E|E]; discriminate. }
  cbn zeta in *.
  destruct (run_start_lockstep env l s1 Hp) as (Hlock & Hcl & Hq).
  destruct (send_goals_run_completed _ _ _ _ _ Hq Hl)
    as [Hin|[Hret Hempty]]; [contradiction|].
  destruct (send_goals_lockstep (iterations env) (S (List.length l)) 0
                                (run_start l s1) Hlock Hcl)
    as [(tour & n & Ht & Hn & Hle & Hlen) [Hall|(_ & e & He)]];
    [|congruence].
  assert (Hdone : tour_completed
                    (snd (send_goals (S (List.length l)) 0 (iterations env)
                                     (run_start l s1)))).
  { exists n. rewrite Hempty in Ht. injection Ht as <-. cbn [List.length] in Hlen.
    unfold all_classified in Hall. repeat apply conj; auto; lia. }
  apply handle_tour_completed.
  destruct Hr' as [->|[_ ->]]; [exact Hdone|].
  eapply tour_completed_same; [|exact Hdone].
  apply spin_spec.
Qed.

End TourEnd.

(** The example run over the line of three vertices never meets an
    empty queue. *)
Lemma empty_queue_event_is_never_written_witness :
  exists s,
    snd (@main example_runtime
               (example_run line (fun _ => turn_seen_at 10 0)))
    = Some s /\
    ~ In "insufficient_number_of_poses_in_traversal_path" (events (trace s)).
Proof.
  eexists. split; [vm_compute; reflexivity|].
  apply (@empty_queue_event_is_never_written
           example_runtime (example_run line (fun _ => turn_seen_at 10 0))).
  vm_compute. reflexivity.
Defined.

(** The example run over the line of three vertices is completed:
    three goals are sent and counted. *)
Lemma run_completed_means_every_goal_counted_witness :
  exists s,
    snd (@main example_runtime
               (example_run line (fun _ => turn_seen_at 10 0)))
    = Some s /\
    In "run_completed" (events (trace s)) /\
    exists n,
      num_goals s = Some n /\
      traversal_path_poses s = Some [] /\
      goal_sent_count s = n /\
      goal_succeeded_count s + goal_failed_count s = n.
Proof.
  eexists. split; [vm_compute; reflexivity|].
  split; [vm_compute; tauto|].
  apply (@run_completed_means_every_goal_counted
           example_runtime (example_run line (fun _ => turn_seen_at 10 0))).
  - vm_compute. reflexivity.
  - vm_compute. tauto.
Defined.


(* ================================================================= *)
(** ** The ways out of the goal loop *)

Section LoopExits.

Context {rt : PyRuntime}.

Lemma serve_all_event_count cbs e :
  e <> "run_timeout" -> e <> "supervisor_finished" ->
  forall s,
    event_count e (trace (serve_all cbs s)) = event_count e (trace s).
Proof.
  intros H1 H2. unfold serve_all.
  induction cbs as [|cb cbs IH]; intro s; cbn [fold_left]; [reflexivity|].
  rewrite IH. apply serve_event_count; assumption.
Qed.

(** X9.  In a running goal loop, when the navigation action server
    is not there within the five seconds of [wait_for_server]: the
    event [failed_to_communicate_with_navigation_node] is the last
    action of the trace, the loop is left by [RunFailException], the
    pose stays in the queue, no goal is sent and no counter moves;
    [main] catches the exception and goes to its [finally]
    clause. *)
Theorem server_unavailable_aborts
        (its : nat -> Iteration) (k fuel : nat) (s : Supervisor)
        (Hrunning : is_shutdown s = false)
        (Hserver : server_available (its k) = false) :
  exists s',
    send_goals (S fuel) k its s
    = (Raised (RunFailException
                 "navigate_to_pose action server not available"), s') /\
    trace s'
    = trace (serve_all (inbound_at_wait_for_server (its k)) s)
      ++ [Event "failed_to_communicate_with_navigation_node"] /\
    traversal_path_poses s' = traversal_path_poses s /\
    goals_sent (trace s') = goals_sent (trace s) /\
    goal_sent_count s' = goal_sent_count s /\
    goal_succeeded_count s' = goal_succeeded_count s /\
    goal_failed_count s' = goal_failed_count s /\
    current_goal s' = current_goal s /\
    handle (Raised (RunFailException
                      "navigate_to_pose action server not available")) s'
    = (Returned, finally s').
Proof.
  cbn [send_goals]. rewrite Hrunning.
  unfold goal_iteration, dispatch. rewrite Hserver. cbn [negb].
  pose proof (serve_all_same_dispatch_state
                (inbound_at_wait_for_server (its k)) s)
    as (_ & Ht & _ & Hg & Hn & Hs & Hf & Hgs & _).
  eexists. split; [reflexivity|].
  rewrite trace_write_event, goals_sent_act, app_nil_r.
  repeat apply conj; try reflexivity; assumption.
Qed.

(** X10.  A goal for which navigation reports any state other than
    [SUCCEEDED] (aborted, rejected, preempted, lost, ...) is counted
    as failed, with the event [target_pose_not_reached], without a
    look at the ground truth pose: nothing is raised, also when no
    ground truth pose was ever received, and the loop goes on to the
    next pose or completes the run. *)
Theorem unsuccessful_state_counts_as_failed
        (it : Iteration) (s : Supervisor) (pose : Pose) (rest : list Pose)
        (Hserver : server_available it = true)
        (Hqueue : traversal_path_poses s = Some (pose :: rest))
        (Hwait : interrupted it = false)
        (Hresult : result_in_time it = true)
        (Hstate : navigation_state it <> SUCCEEDED) :
  exists s',
    goal_iteration it s
    = (match rest with
       | [] => Some Returned
       | _ :: _ =>
           if sleep_interrupted it then Some (Raised KeyboardInterrupt)
           else None
       end, s') /\
    goal_sent_count s' = goal_sent_count s + 1 /\
    goal_succeeded_count s' = goal_succeeded_count s /\
    goal_failed_count s' = goal_failed_count s + 1 /\
    current_goal s' = None /\
    traversal_path_poses s' = Some rest /\
    event_count "target_pose_not_reached" (trace s')
    = event_count "target_pose_not_reached" (trace s) + 1 /\
    event_count "target_pose_reached" (trace s')
    = event_count "target_pose_reached" (trace s).
Proof.
  destruct (dispatch_sends it s pose rest Hserver Hqueue) as (s1 & Hd).
  pose proof (dispatch_go _ _ _ _ Hd)
    as (rest' & Hts & _ & Ht1 & _ & _ & _ & Hn1 & Hs1 & Hf1 & _ & _ & Htr1).
  cbn [target_pose] in *.
  pose proof (serve_all_same_dispatch_state
                (inbound_at_wait_for_server it) s) as (_ & Ht0 & _).
  assert (rest' = rest) as -> by congruence.
  unfold goal_iteration. rewrite Hd.
  unfold await_result. rewrite Hwait, Hresult. cbn [negb].
  set (s2 := serve_all (inbound_at_wait_for_result it) s1).
  pose proof (serve_all_same_dispatch_state
                (inbound_at_wait_for_result it) s1)
    as (_ & Ht2 & _ & _ & Hn2 & Hs2 & Hf2 & _).
  fold s2 in Ht2, Hn2, Hs2, Hf2.
  assert (Hk : is_succeeded (navigation_state it) = false).
  { destruct (navigation_state it); try reflexivity. congruence. }
  unfold classify. rewrite Hk.
  set (s3 := set_current_goal
               None
               (set_goal_failed_count
                  (goal_failed_count
                     (write_event "target_pose_not_reached" s2) + 1)
                  (write_event "target_pose_not_reached" s2))).
  assert (Ht3 : traversal_path_poses s3 = Some rest).
  { subst s3. cbn. congruence. }
  pose proof (next_or_complete_same it s3)
    as (_ & Ht4 & _ & Hg4 & Hn4 & Hs4 & Hf4 & _).
  assert (He : forall e,
             e <> "run_timeout" -> e <> "supervisor_finished" ->
             e <> "run_completed" -> e <> "target_pose_set" ->
             event_count e (trace (snd (next_or_complete it s3)))
             = event_count e (trace s)
               + (if String.eqb e "target_pose_not_reached" then 1 else 0)).
  { intros e E1 E2 E3 E4.
    assert (E5 : event_count e (trace (snd (next_or_complete it s3)))
                 = event_count e (trace s3)).
    { unfold next_or_complete. rewrite Ht3.
      destruct rest as [|p rest'']; cbn [snd].
      - unfold signal_shutdown. cbn -[event_count].
        rewrite !event_count_act.
        apply String.eqb_neq in E3. rewrite E3. lia.
      - destruct (sleep_interrupted it); cbn [snd];
          apply serve_all_event_count; assumption. }
    rewrite E5. subst s3. cbn -[event_count]. rewrite event_count_act.
    f_equal. subst s2. rewrite serve_all_event_count by assumption.
    rewrite Htr1, event_count_app.
    rewrite serve_all_event_count by assumption.
    match goal with
    | |- _ + ?c = _ => assert (E6 : c = 0)
    end.
    { unfold event_count. cbn.
      apply String.eqb_neq in E4. rewrite E4. reflexivity. }
    rewrite E6. lia. }
  exists (snd (next_or_complete it s3)).
  split.
  { rewrite (surjective_pairing (next_or_complete it s3)). f_equal.
    unfold next_or_complete. rewrite Ht3.
    destruct rest; [reflexivity|].
    destruct (sleep_interrupted it); reflexivity. }
  repeat apply conj.
  - rewrite Hn4. subst s3. cbn. congruence.
  - rewrite Hs4. subst s3. cbn. congruence.
  - rewrite Hf4. subst s3. cbn. congruence.
  - rewrite Hg4. reflexivity.
  - congruence.
  - rewrite He by discriminate. reflexivity.
  - rewrite He by discriminate. cbn. lia.
Qed.

Lemma finally_trace s :
  trace (finally s)
  = trace s
    ++ [ToCsv (estimated_poses_file_path (cfg s)) (estimated_poses_df s);
        ToCsv (estimated_correction_poses_file_path (cfg s))
              (estimated_correction_poses_df s);
        ToCsv (ground_truth_poses_file_path (cfg s))
              (ground_truth_poses_df s)]
    ++ (if is_shutdown s then [] else [SignalShutdown "run_terminated"]) /\
  is_shutdown (finally s) = true.
Proof.
  unfold finally.
  change (is_shutdown (end_run s)) with (is_shutdown s).
  destruct (is_shutdown s) eqn:Hs; cbn [negb].
  - split; [|exact Hs]. unfold end_run. rewrite !trace_act.
    rewrite <- !app_assoc. reflexivity.
  - split; [|reflexivity]. unfold signal_shutdown, end_run.
    cbn [trace set_is_shutdown]. rewrite !trace_act.
    rewrite <- !app_assoc. reflexivity.
Qed.

Lemma ros_shutdown_callback_fields s :
  trace (ros_shutdown_callback s)
  = trace s ++ [Event "ros_shutdown"; Event "supervisor_finished"] /\
  cfg (ros_shutdown_callback s) = cfg s /\
  estimated_poses_df (ros_shutdown_callback s) = estimated_poses_df s /\
  estimated_correction_poses_df (ros_shutdown_callback s)
  = estimated_correction_poses_df s /\
  ground_truth_poses_df (ros_shutdown_callback s) = ground_truth_poses_df s /\
  is_shutdown (ros_shutdown_callback s) = is_shutdown s.
Proof.
  unfold ros_shutdown_callback. rewrite !trace_write_event, <- app_assoc.
  repeat apply conj; reflexivity.
Qed.

(** X11.  In a running goal loop, when the main thread is
    interrupted while it waits for the result of a goal: the goal
    was sent and stays the current goal, counted as sent and as
    neither succeeded nor failed; the loop is left by
    [KeyboardInterrupt]; [main] then writes the events
    [ros_shutdown] and [supervisor_finished], the three tables, and
    signals the shutdown if none was signalled. *)
Theorem interrupted_wait_ends_the_run
        (its : nat -> Iteration) (k fuel : nat) (s : Supervisor)
        (pose : Pose) (rest : list Pose)
        (Hrunning : is_shutdown s = false)
        (Hserver : server_available (its k) = true)
        (Hqueue : traversal_path_poses s = Some (pose :: rest))
        (Hint : interrupted (its k) = true) :
  exists s' s'',
    send_goals (S fuel) k its s = (Raised KeyboardInterrupt, s') /\
    current_goal s' = Some (goal_to (cfg s) pose) /\
    goals_sent (trace s') = goals_sent (trace s) ++ [goal_to (cfg s) pose] /\
    goal_sent_count s' = goal_sent_count s + 1 /\
    goal_succeeded_count s' = goal_succeeded_count s /\
    goal_failed_count s' = goal_failed_count s /\
    handle (Raised KeyboardInterrupt) s' = (Returned, s'') /\
    trace s''
    = trace s'
      ++ [Event "ros_shutdown"; Event "supervisor_finished";
          ToCsv (estimated_poses_file_path (cfg s)) (estimated_poses_df s');
          ToCsv (estimated_correction_poses_file_path (cfg s))
                (estimated_correction_poses_df s');
          ToCsv (ground_truth_poses_file_path (cfg s))
                (ground_truth_poses_df s')]
      ++ (if is_shutdown s' then []
          else [SignalShutdown "run_terminated"]) /\
    is_shutdown s'' = true.
Proof.
  destruct (dispatch_sends (its k) s pose rest Hserver Hqueue) as (s1 & Hd).
  pose proof (dispatch_go _ _ _ _ Hd)
    as (rest' & _ & _ & _ & Hg1 & _ & Hc1 & Hn1 & Hs1 & Hf1 & _ & _ & Htr1).
  pose proof (serve_all_same_dispatch_state
                (inbound_at_wait_for_server (its k)) s)
    as (_ & _ & _ & _ & _ & _ & _ & Hgs0 & _).
  pose proof (serve_all_same_dispatch_state
                (inbound_at_wait_for_result (its k)) s1)
    as (Hc2 & _ & _ & Hg2 & Hn2 & Hs2 & Hf2 & Hgs2 & _).
  cbn [send_goals]. rewrite Hrunning.
  unfold goal_iteration. rewrite Hd.
  unfold await_result. rewrite Hint.
  set (s2 := serve_all (inbound_at_wait_for_result (its k)) s1) in *.
  exists s2. eexists. split; [reflexivity|].
  clearbody s2.
  split; [unfold goal_to; congruence|].
  split.
  { rewrite Hgs2, Htr1, goals_sent_app, Hgs0. reflexivity. }
  split; [congruence|]. split; [congruence|]. split; [congruence|].
  split; [reflexivity|].
  assert (Hc : cfg s2 = cfg s) by congruence.
  destruct (finally_trace (ros_shutdown_callback s2)) as [Ht Hdown].
  rewrite Ht.
  destruct (ros_shutdown_callback_fields s2)
    as (-> & -> & -> & -> & -> & ->).
  rewrite Hc, <- app_assoc. split; [reflexivity|exact Hdown].
Qed.

(** X12.  A shutdown signalled while [start_run] waits for the first
    scan does not stop the planner: the tour is planned, the path is
    published, the event [run_start] is written and the recorders
    are switched on; the goal loop is then not entered, so
    [start_run] returns with no goal sent and every pose in the
    queue. *)
Theorem shutdown_before_first_scan_still_plans
        (env : Environment) (s s1 : Supervisor) (l : list Pose)
        (Hdown : is_shutdown s = true)
        (Hplan : plan env s = Go l s1) :
  start_run env s = (Returned, run_start l s1) /\
  trace (run_start l s1)
  = trace s1 ++ [PublishPath (fixed_frame (cfg s)) l; Event "run_start"] /\
  run_started (run_start l s1) = true /\
  traversal_path_poses (run_start l s1) = Some l /\
  num_goals (run_start l s1) = Some (List.length l) /\
  goals_sent (trace (run_start l s1)) = goals_sent (trace s) /\
  goal_sent_count (run_start l s1) = goal_sent_count s.
Proof.
  pose proof (plan_same env s) as Hps. rewrite Hplan in Hps.
  destruct Hps as ((Hc & _ & _ & _ & Hn & _ & _ & Hg & _) & Hsh & _).
  assert (Hw : wait_for_first_scan (startup_polls env) s = (true, s)).
  { destruct (startup_polls env); cbn [wait_for_first_scan];
      rewrite Hdown, andb_false_r; reflexivity. }
  unfold start_run, plan_and_run. rewrite Hw, Hplan.
  split.
  { cbn [send_goals].
    change (is_shutdown
              (set_run_started
                 true
                 (write_event
                    "run_start"
                    (set_num_goals
                       (Some (List.length l))
                       (act (PublishPath
                               (fixed_frame
                                  (cfg (set_traversal_path_poses
                                          (Some l) s1)))
                               l)
                            (set_traversal_path_poses (Some l) s1))))))
      with (is_shutdown s1).
    rewrite Hsh, Hdown. reflexivity. }
  unfold run_start. cbn -[goals_sent].
  rewrite !goals_sent_act, !app_nil_r, <- app_assoc, Hc.
  repeat apply conj; auto.
Qed.

(** X13.  [main] lets no exception of the run escape: once the node
    is constructed it returns, or blocks for ever, whatever the run
    raises; and an exception of [__init__] other than
    [KeyboardInterrupt] is caught as well.  The one exception that
    leaves [main] is the [AttributeError] of the handler of
    [KeyboardInterrupt], which calls [ros_shutdown_callback] on a
    node that is still [None] when [__init__] itself is
    interrupted. *)
Theorem main_raises_only_when_init_is_interrupted (env : Environment) :
  match construction env with
  | Some KeyboardInterrupt =>
      main env
      = (Raised (AttributeError
                   "NoneType object has no attribute ros_shutdown_callback"),
         None)
  | Some _ => main env = (Returned, None)
  | None =>
      exists s,
        snd (main env) = Some s /\
        ((fst (main env) = Returned /\ is_shutdown s = true) \/
         (fst (main env) = Hangs /\ is_shutdown s = false))
  end.
Proof.
  unfold main.
  destruct (construction env) as [[ | | | | | | | | | ]|]; try reflexivity.
  cbn zeta.
  destruct (try_block_spec env (init (parameters env)))
    as (_ & [Ho|[(e & Ho)|(Ho & Hs)]]);
    destruct (try_block env (init (parameters env))) as [o s1];
    cbn [fst snd] in *; subst o; eexists; (split; [reflexivity|]).
  - left. split; [reflexivity|]. apply finally_spec.
  - left. destruct e; (split; [reflexivity|]); apply finally_spec.
  - right. split; [reflexivity|exact Hs].
Qed.

End LoopExits.

(** The navigation server is not there at the first goal of the
    example tour. *)
Lemma server_unavailable_aborts_witness :
  exists s',
    @send_goals example_runtime 4 0
                (fun _ => {| inbound_at_wait_for_server := [];
                             server_available := false;
                             inbound_at_wait_for_result := [];
                             interrupted := false;
                             result_in_time := true;
                             navigation_state := SUCCEEDED;
                             inbound_at_sleep := [];
                             sleep_interrupted := false |})
                example_ready
    = (Raised (RunFailException
                 "navigate_to_pose action server not available"), s') /\
    events (trace s') = ["failed_to_communicate_with_navigation_node"] /\
    goals_sent (trace s') = [] /\
    goal_sent_count s' = 0.
Proof.
  destruct (@server_unavailable_aborts
              example_runtime
              (fun _ => {| inbound_at_wait_for_server := [];
                           server_available := false;
                           inbound_at_wait_for_result := [];
                           interrupted := false;
                           result_in_time := true;
                           navigation_state := SUCCEEDED;
                           inbound_at_sleep := [];
                           sleep_interrupted := false |})
              0 3 example_ready eq_refl eq_refl)
    as (s' & Hrun & Htr & _ & Hg & Hn & _).
  exists s'. split; [exact Hrun|].
  rewrite Hg, Hn, Htr. repeat apply conj; reflexivity.
Defined.

(** Navigation aborts the first goal of the example tour, no ground
    truth pose being known: the goal is counted as failed and the
    loop goes on. *)
Lemma unsuccessful_state_counts_as_failed_witness :
  exists s',
    @goal_iteration example_runtime
                    {| inbound_at_wait_for_server := [];
                       server_available := true;
                       inbound_at_wait_for_result := [];
                       interrupted := false;
                       result_in_time := true;
                       navigation_state := ABORTED;
                       inbound_at_sleep := [];
                       sleep_interrupted := false |}
                    example_ready
    = (None, s') /\
    latest_ground_truth_pose_msg example_ready = None /\
    goal_failed_count s' = 1 /\
    goal_succeeded_count s' = 0 /\
    events (trace s') = ["target_pose_set"; "target_pose_not_reached"].
Proof.
  destruct (@unsuccessful_state_counts_as_failed
              example_runtime
              {| inbound_at_wait_for_server := [];
                 server_available := true;
                 inbound_at_wait_for_result := [];
                 interrupted := false;
                 result_in_time := true;
                 navigation_state := ABORTED;
                 inbound_at_sleep := [];
                 sleep_interrupted := false |}
              example_ready (pose_at 10 0) [pose_at 0 0; pose_at 20 0]
              eq_refl eq_refl eq_refl eq_refl)
    as (s' & Hrun & _ & Hs & Hf & _).
  { discriminate. }
  exists s'. split; [exact Hrun|].
  split; [reflexivity|]. split; [exact Hf|]. split; [exact Hs|].
  vm_compute in Hrun. injection Hrun as <-. reflexivity.
Defined.

(** The main thread is interrupted while it waits for the result of
    the first goal of the example tour. *)
Lemma interrupted_wait_ends_the_run_witness :
  exists s' s'',
    @send_goals example_runtime 4 0
                (fun _ => {| inbound_at_wait_for_server := [];
                             server_available := true;
                             inbound_at_wait_for_result := [];
                             interrupted := true;
                             result_in_time := true;
                             navigation_state := ACTIVE;
                             inbound_at_sleep := [];
                             sleep_interrupted := false |})
                example_ready
    = (Raised KeyboardInterrupt, s') /\
    handle (Raised KeyboardInterrupt) s' = (Returned, s'') /\
    current_goal s' = Some (goal_to example_config (pose_at 10 0)) /\
    events (trace s'')
    = ["target_pose_set"; "ros_shutdown"; "supervisor_finished"] /\
    is_shutdown s'' = true.
Proof.
  destruct (@interrupted_wait_ends_the_run
              example_runtime
              (fun _ => {| inbound_at_wait_for_server := [];
                           server_available := true;
                           inbound_at_wait_for_result := [];
                           interrupted := true;
                           result_in_time := true;
                           navigation_state := ACTIVE;
                           inbound_at_sleep := [];
                           sleep_interrupted := false |})
              0 3 example_ready (pose_at 10 0) [pose_at 0 0; pose_at 20 0]
              eq_refl eq_refl eq_refl eq_refl)
    as (s' & s'' & Hrun & Hg & _ & _ & _ & _ & Hh & _ & Hd).
  exists s', s''. split; [exact Hrun|]. split; [exact Hh|].
  split; [exact Hg|]. split; [|exact Hd].
  vm_compute in Hrun. injection Hrun as <-.
  vm_compute in Hh. injection Hh as <-. reflexivity.
Defined.

(** The run timeout fires before the first scan of a run over the
    line of three vertices: the tour is planned and no goal is sent. *)
Lemma shutdown_before_first_scan_still_plans_witness :
  exists l s1,
    plan (example_run line (fun _ => quiet_turn))
         (run_timeout_callback (init example_config))
    = Go l s1 /\
    @start_run example_runtime (example_run line (fun _ => quiet_turn))
               (run_timeout_callback (init example_config))
    = (Returned, run_start l s1) /\
    List.length l = 3 /\
    goals_sent (trace (run_start l s1)) = [].
Proof.
  destruct (plan (example_run line (fun _ => quiet_turn))
                 (run_timeout_callback (init example_config)))
    as [e s1|l s1] eqn:Hp; [vm_compute in Hp; discriminate|].
  destruct (@shutdown_before_first_scan_still_plans
              example_runtime (example_run line (fun _ => quiet_turn))
              (run_timeout_callback (init example_config)) s1 l
              eq_refl Hp)
    as (Hrun & _ & _ & _ & _ & Hg & _).
  exists l, s1. split; [reflexivity|]. split; [exact Hrun|].
  split; [|exact Hg].
  vm_compute in Hp. injection Hp as <- _. reflexivity.
Defined.


(* ================================================================= *)
(** ** The pruned graph and the poses of the tour *)

Section PrunedGraph.

Variable g : nx.Graph.

(** A path to another vertex starts with an edge to another vertex. *)
Lemma connected_first_step v u :
  connected g v u -> u <> v -> exists w, w <> v /\ adjacent g v w.
Proof.
  intro H. induction H as [Hv|w u Hvw IH Hwu]; intro Hne.
  - congruence.
  - destruct (Nat.eq_dec w v) as [->|Hw].
    + exists u. split; assumption.
    + apply IH, Hw.
Qed.

Lemma two_distinct_length (l : list node) a b :
  In a l -> In b l -> a <> b -> 2 <= List.length l.
Proof.
  intros Ha Hb Hab.
  destruct l as [|c [|d l]]; cbn [List.length]; [destruct Ha| |lia].
  destruct Ha as [<-|[]], Hb as [<-|[]]. congruence.
Qed.

Lemma other_element (l : list node) a :
  NoDup l -> 2 <= List.length l -> exists b, In b l /\ b <> a.
Proof.
  intros Hnd Hlen.
  destruct l as [|c [|d l]]; cbn [List.length] in Hlen; [lia|lia|].
  destruct (Nat.eq_dec c a) as [->|Hc].
  - exists d. split; [right; left; reflexivity|].
    inversion Hnd as [|? ? Hn _]. intros ->. apply Hn. left. reflexivity.
  - exists c. split; [left; reflexivity|exact Hc].
Qed.

(** X14.  The removal of the components of fewer than two vertices
    (lines 176 to 179) removes exactly the vertices with no edge to
    another vertex.  Between two distinct vertices the edges and the
    paths are those of the graph before the removal, and every
    vertex left has a component of two vertices or more. *)
Theorem pruning_removes_the_vertices_without_neighbour :
  (forall v,
      In v (nx.node_ids (pruned_graph g)) <->
      In v (nx.node_ids g) /\ exists w, w <> v /\ adjacent g v w) /\
  (forall u v,
      u <> v -> (adjacent (pruned_graph g) u v <-> adjacent g u v)) /\
  (forall u v,
      u <> v -> (connected (pruned_graph g) u v <-> connected g u v)) /\
  (forall v,
      In v (nx.node_ids (pruned_graph g)) ->
      2 <= List.length (nx.node_connected_component (pruned_graph g) v)).
Proof.
  assert (Hkept : forall v,
             In v (nx.node_ids (pruned_graph g)) <->
             In v (nx.node_ids g) /\ exists w, w <> v /\ adjacent g v w).
  { intro v. rewrite pruned_node. split.
    - intros [Hv Hlen]. split; [exact Hv|].
      destruct (plain_bfs_spec g v Hv) as [Hnd Hc].
      destruct (other_element _ v Hnd Hlen) as (b & Hb & Hne).
      apply (connected_first_step v b); [apply Hc, Hb|exact Hne].
    - intros [Hv (w & Hne & Ha)]. split; [exact Hv|].
      destruct (plain_bfs_spec g v Hv) as [_ Hc].
      apply (two_distinct_length _ v w); [| |congruence].
      + apply Hc. constructor. exact Hv.
      + apply Hc. eapply connected_step; [constructor; exact Hv|exact Ha]. }
  split; [exact Hkept|].
  assert (Hadj : forall u v,
             u <> v -> (adjacent (pruned_graph g) u v <-> adjacent g u v)).
  { intros u v Hne. rewrite pruned_adjacent. split; [tauto|].
    intro Ha. split; [exact Ha|].
    destruct (adjacent_nodes g u v Ha) as [Hu Hv].
    split; apply Hkept.
    - split; [exact Hu|]. exists v. split; [congruence|exact Ha].
    - split; [exact Hv|]. exists u. split; [exact Hne|].
      apply adjacent_sym, Ha. }
  split; [exact Hadj|].
  split.
  - intros u v Hne. split.
    + intro H.
      apply pruned_connected; [|exact H].
      apply (connected_nodes (pruned_graph g) u v H).
    + intro H.
      apply pruned_connected; [|exact H].
      apply Hkept. split; [apply (connected_nodes g u v H)|].
      apply (connected_first_step u v H). congruence.
  - intros v Hv. unfold nx.node_connected_component.
    apply pruned_component, Hv.
Qed.

End PrunedGraph.

Section TourPoses.

Lemma tour_poses_nth g orientations tour :
  forall k0 l,
    tour_poses g orientations k0 tour = Some l ->
    forall k v,
      nth_error tour k = Some v ->
      exists p,
        nth_error l k = Some p /\
        dict_get v (nx.nodes g)
        = Some (x (position p), y (position p)) /\
        orientation p = orientations (k0 + k).
Proof.
  induction tour as [|v0 tour IH]; intros k0 l; cbn [tour_poses].
  - intros _ [|k] v; discriminate.
  - destruct (dict_get v0 (nx.nodes g)) as [vertex|] eqn:Hv; [|discriminate].
    destruct (tour_poses g orientations (S k0) tour) as [rest|] eqn:E;
      [|discriminate].
    intros [= <-] [|k] v; cbn [nth_error].
    + intros [= <-]. eexists. split; [reflexivity|]. cbn.
      rewrite Nat.add_0_r, Hv. destruct vertex. split; reflexivity.
    + intro Hk. destruct (IH _ _ E k v Hk) as (p & Hp & Hd & Ho).
      exists p. split; [exact Hp|]. split; [exact Hd|].
      rewrite Ho. f_equal. lia.
Qed.

(** X15.  When the planner gives a queue of poses, the queue has one
    pose per node of the tour, in the order of the tour: the
    position of the pose is the vertex of the node in the pruned
    graph, and its orientation is the one drawn for its rank. *)
Theorem goal_poses_are_the_tour_vertices
        (env : Environment) (s s' : Supervisor) (l : list Pose)
        (Hplan : plan env s = Go l s') :
  exists tour,
    traversal_path env s = Go (pruned_graph (voronoi_graph env), tour) s' /\
    List.length l = List.length tour /\
    forall k v,
      nth_error tour k = Some v ->
      exists p,
        nth_error l k = Some p /\
        dict_get v (nx.nodes (pruned_graph (voronoi_graph env)))
        = Some (x (position p), y (position p)) /\
        orientation p = random_orientation env k.
Proof.
  unfold plan in Hplan.
  destruct (traversal_path_unfold env s) as (costs & _ & _ & Htp).
  cbn zeta in Htp.
  destruct (traversal_path env s) as [e s1|[pruned tour] s1] eqn:Ht;
    [discriminate|].
  assert (Hpr : pruned = pruned_graph (voronoi_graph env)).
  { destruct (_ <? 2); [discriminate|].
    destruct (greedy_loop _ _ _ _ _) as [[e|t]|]; try discriminate.
    injection Htp as <- _ _. reflexivity. }
  subst pruned.
  destruct (tour_poses _ _ _ _) as [l'|] eqn:Hp; [|discriminate].
  injection Hplan as <- <-.
  exists tour. split; [reflexivity|].
  split; [eapply tour_poses_same_length, Hp|].
  intros k v Hk.
  destruct (tour_poses_nth _ _ _ _ _ Hp k v Hk) as (p & H1 & H2 & H3).
  exists p. repeat apply conj; assumption.
Qed.

End TourPoses.

(** The three poses of the tour over the line of three vertices. *)
Lemma goal_poses_are_the_tour_vertices_witness :
  exists l s' tour,
    plan (example_run line (fun _ => quiet_turn)) (init example_config)
    = Go l s' /\
    traversal_path (example_run line (fun _ => quiet_turn))
                   (init example_config)
    = Go (pruned_graph line, tour) s' /\
    tour = [1; 0; 3] /\
    List.length l = List.length tour.
Proof.
  destruct (plan (example_run line (fun _ => quiet_turn))
                 (init example_config)) as [e s'|l s'] eqn:Hp;
    [vm_compute in Hp; discriminate|].
  destruct (goal_poses_are_the_tour_vertices
              (example_run line (fun _ => quiet_turn))
              (init example_config) s' l Hp)
    as (tour & Ht & Hl & _).
  exists l, s', tour. split; [reflexivity|]. split; [exact Ht|].
  split; [|exact Hl].
  vm_compute in Ht. injection Ht as <- _. reflexivity.
Defined.

(* ================================================================= *)
(** ** The order of binary64 numbers and the greedy choice *)

From Stdlib Require ZArith.
From Stdlib Require Floats.

Section FloatOrder.

Ltac compare_cases :=
  repeat match goal with
         | |- context [BinInt.Z.compare ?a ?b] =>
             destruct (BinInt.Z.compare_spec a b)
         | |- context [BinPos.Pos.compare_cont Eq ?a ?b] =>
             change (BinPos.Pos.compare_cont Eq a b)
               with (BinPos.Pos.compare a b);
             destruct (BinPos.Pos.compare_spec a b)
         | H : context [BinInt.Z.compare ?a ?b] |- _ =>
             destruct (BinInt.Z.compare_spec a b)
         | H : context [BinPos.Pos.compare_cont Eq ?a ?b] |- _ =>
             change (BinPos.Pos.compare_cont Eq a b)
               with (BinPos.Pos.compare a b) in H;
             destruct (BinPos.Pos.compare_spec a b)
         end.

Lemma SFleb_refl x :
  x <> SpecFloat.S754_nan -> SpecFloat.SFleb x x = true.
Proof.
  intro Hx. unfold SpecFloat.SFleb.
  destruct x as [[|]|[|]| |[|] m e]; cbn; try reflexivity; try congruence;
    rewrite BinInt.Z.compare_refl;
    change (BinPos.Pos.compare_cont Eq m m) with (BinPos.Pos.compare m m);
    rewrite BinPos.Pos.compare_refl; reflexivity.
Qed.

Lemma SFleb_total x y :
  x <> SpecFloat.S754_nan -> y <> SpecFloat.S754_nan ->
  SpecFloat.SFleb x y = false -> SpecFloat.SFleb y x = true.
Proof.
  intros Hx Hy. unfold SpecFloat.SFleb.
  destruct x as [[|]|[|]| |[|] m1 e1], y as [[|]|[|]| |[|] m2 e2];
    cbn; try congruence; try reflexivity;
    intro H; compare_cases; cbn in *; try congruence; try reflexivity; try lia.
Qed.

Lemma SFleb_trans x y z :
  SpecFloat.SFleb x y = true -> SpecFloat.SFleb y z = true ->
  SpecFloat.SFleb x z = true.
Proof.
  unfold SpecFloat.SFleb.
  destruct x as [[|]|[|]| |[|] m1 e1], y as [[|]|[|]| |[|] m2 e2],
           z as [[|]|[|]| |[|] m3 e3];
    cbn; try congruence; try reflexivity;
    intros H1 H2; compare_cases; cbn in *;
    try congruence; try reflexivity; try lia.
Qed.

Lemma is_nan_spec v :
  is_nan v = false -> FloatOps.Prim2SF v <> SpecFloat.S754_nan.
Proof.
  unfold is_nan. rewrite FloatAxioms.eqb_spec. intros H E.
  rewrite E in H. discriminate.
Qed.

Lemma leb_refl a : is_nan a = false -> PrimFloat.leb a a = true.
Proof.
  intro H. rewrite FloatAxioms.leb_spec. apply SFleb_refl, is_nan_spec, H.
Qed.

Lemma leb_total a b :
  is_nan a = false -> is_nan b = false ->
  PrimFloat.leb a b = false -> PrimFloat.leb b a = true.
Proof.
  intros Ha Hb. rewrite !FloatAxioms.leb_spec.
  apply SFleb_total; apply is_nan_spec; assumption.
Qed.

Lemma leb_trans a b c :
  PrimFloat.leb a b = true -> PrimFloat.leb b c = true ->
  PrimFloat.leb a c = true.
Proof. rewrite !FloatAxioms.leb_spec. apply SFleb_trans. Qed.

(** [np.argmin] over costs without NaN: the index is in range and the
    cost at the index is least. *)
Lemma argmin_scan_min l :
  forall pre best_i best i,
    (forall c, In c l -> is_nan c = false) ->
    is_nan best = false ->
    nth best_i pre 0%float = best ->
    best_i < List.length pre ->
    List.length pre = i ->
    (forall c, In c pre -> PrimFloat.leb best c = true) ->
    argmin_scan best_i best i l < List.length (pre ++ l) /\
    forall c,
      In c (pre ++ l) ->
      PrimFloat.leb (nth (argmin_scan best_i best i l) (pre ++ l) 0%float) c
      = true.
Proof.
  induction l as [|c l IH]; intros pre best_i best i Hl Hb Hn Hlt Hi Hle;
    cbn [argmin_scan].
  - rewrite app_nil_r. split; [exact Hlt|].
    intros c Hc. rewrite Hn. apply Hle, Hc.
  - replace (pre ++ c :: l) with ((pre ++ [c]) ++ l)
      by (rewrite <- app_assoc; reflexivity).
    assert (Hc : is_nan c = false) by (apply Hl; left; reflexivity).
    destruct (PrimFloat.leb best c) eqn:Hbc.
    + apply IH.
      * intros c' Hc'. apply Hl. right. exact Hc'.
      * exact Hb.
      * rewrite app_nth1 by exact Hlt. exact Hn.
      * rewrite length_app. lia.
      * rewrite length_app. cbn. lia.
      * intros c' Hc'. apply in_app_iff in Hc' as [Hc'|[<-|[]]];
          [apply Hle, Hc'|exact Hbc].
    + rewrite Hc. apply IH.
      * intros c' Hc'. apply Hl. right. exact Hc'.
      * exact Hc.
      * rewrite app_nth2 by lia. rewrite Hi, Nat.sub_diag. reflexivity.
      * rewrite length_app. cbn. lia.
      * rewrite length_app. cbn. lia.
      * pose proof (leb_total _ _ Hb Hc Hbc) as Hcb.
        intros c' Hc'. apply in_app_iff in Hc' as [Hc'|[<-|[]]].
        -- eapply leb_trans; [exact Hcb|apply Hle, Hc'].
        -- apply leb_refl, Hc.
Qed.

Lemma argmin_min l :
  l <> [] ->
  (forall c, In c l -> is_nan c = false) ->
  argmin l < List.length l /\
  forall c, In c l -> PrimFloat.leb (nth (argmin l) l 0%float) c = true.
Proof.
  destruct l as [|c0 l]; [congruence|]. intros _ Hl.
  unfold argmin.
  assert (H0 : is_nan c0 = false) by (apply Hl; left; reflexivity).
  rewrite H0.
  apply (argmin_scan_min l [c0] 0 c0 1).
  - intros c Hc. apply Hl. right. exact Hc.
  - exact H0.
  - reflexivity.
  - cbn. lia.
  - reflexivity.
  - intros c [<-|[]]. apply leb_refl, H0.
Qed.

End FloatOrder.

Section GreedyChoice.

Lemma dict_get_In_pair {V : Type} (d : list (node * V)) k v :
  dict_get k d = Some v -> In (k, v) d.
Proof.
  induction d as [|[k' v'] d IH]; cbn [dict_get]; [discriminate|].
  destruct (Nat.eqb k k') eqn:E.
  - apply Nat.eqb_eq in E as ->. intros [= ->]. left. reflexivity.
  - intro H. right. apply IH, H.
Qed.

Lemma no_nan_cost_row costs i j c :
  no_nan_cost costs = true ->
  In (j, c) (costs_row i costs) -> is_nan c = false.
Proof.
  unfold no_nan_cost, costs_row. intros Hn Hin.
  destruct (dict_get i costs) as [row|] eqn:Hrow; [|destruct Hin].
  apply dict_get_In_pair in Hrow.
  rewrite forallb_forall in Hn. specialize (Hn _ Hrow). cbn in Hn.
  rewrite forallb_forall in Hn. specialize (Hn _ Hin). cbn in Hn.
  apply negb_true_iff in Hn. exact Hn.
Qed.

(** The greedy loop goes each time to a node of the queue whose cost
    from the current node is least. *)
Lemma greedy_loop_nearest_first costs :
  no_nan_cost costs = true ->
  forall fuel current_node nodes_queue acc tour,
    greedy_loop fuel costs current_node nodes_queue acc = Some (inr tour) ->
    exists visited,
      tour = acc ++ visited /\
      nearest_first costs current_node nodes_queue visited.
Proof.
  intro Hnan.
  induction fuel as [|fuel IH]; intros cur q acc tour;
    destruct q as [|v0 q']; cbn [greedy_loop].
  - intros [= <-]. exists []. rewrite app_nil_r. split; reflexivity.
  - discriminate.
  - intros [= <-]. exists []. rewrite app_nil_r. split; reflexivity.
  - set (q := v0 :: q').
    set (cands := filter (fun node_cost : node * float =>
                            mem (fst node_cost) q)
                         (costs_row cur costs)).
    destruct cands as [|c0 cs] eqn:Hcands; [discriminate|].
    rewrite <- Hcands.
    set (r := argmin (map snd cands)).
    set (next := nth r (map fst cands) (fst c0)).
    intro Hg.
    destruct (IH _ _ _ _ Hg) as (visited & -> & Hrest).
    exists (next :: visited). split; [rewrite <- app_assoc; reflexivity|].
    assert (Hne : map snd cands <> []) by (rewrite Hcands; discriminate).
    assert (Hnn : forall c, In c (map snd cands) -> is_nan c = false).
    { intros c Hc. apply in_map_iff in Hc as ([j c'] & <- & Hin).
      apply filter_In in Hin as [Hin _].
      eapply no_nan_cost_row; eassumption. }
    destruct (argmin_min _ Hne Hnn) as [Hr Hmin]. fold r in Hr, Hmin.
    rewrite length_map in Hr.
    assert (Hnext : next = fst (nth r cands c0)).
    { subst next. apply map_nth. }
    assert (Hcost : nth r (map snd cands) 0%float = snd (nth r cands c0)).
    { rewrite (nth_indep _ 0%float (snd c0))
        by (rewrite length_map; exact Hr).
      apply map_nth. }
    assert (Hin : In (nth r cands c0) cands) by (apply nth_In, Hr).
    apply filter_In in Hin as [Hrow Hmem].
    cbn [nearest_first]. split; [|split; [|exact Hrest]].
    + rewrite Hnext. apply mem_In. exact Hmem.
    + exists (snd (nth r cands c0)). split.
      * rewrite Hnext, <- surjective_pairing. exact Hrow.
      * intros j cj Hj Hjc. rewrite <- Hcost. apply Hmin.
        apply in_map_iff. exists (j, cj). split; [reflexivity|].
        apply filter_In. split; [exact Hjc|].
        change (mem j q = true). apply mem_In. exact Hj.
Qed.

(** X16.  When no cost of the table is a NaN, the tour the planner
    gives goes, from the start vertex and then from each vertex it
    visits, to a vertex not yet visited of the component of the start
    vertex whose precomputed cost from there is least (no other
    vertex left is at a lower cost), until no vertex is left. *)
Theorem tour_goes_to_the_nearest_vertex
        (env : Environment) (s s' : Supervisor) (pruned : nx.Graph)
        (tour : list node) (costs : Costs)
        (Hplan : traversal_path env s = Go (pruned, tour) s')
        (Hcosts : build_costs
                    (nx.all_pairs_dijkstra_path (voronoi_graph env))
                    (nx.all_pairs_dijkstra_path_length (voronoi_graph env))
                  = Some costs)
        (Hnan : no_nan_cost costs = true) :
  let start := random_choice (random_index env) (nx.node_ids pruned) in
  pruned = pruned_graph (voronoi_graph env) /\
  nearest_first costs start (nx.node_connected_component pruned start) tour.
Proof.
  cbn zeta.
  destruct (traversal_path_unfold env s) as (costs' & Hb & _ & Htp).
  cbn zeta in Htp. rewrite Hcosts in Hb. injection Hb as <-.
  rewrite Htp in Hplan.
  destruct (_ <? 2); [discriminate|].
  destruct (greedy_loop _ _ _ _ _) as [[e|t]|] eqn:Hg; try discriminate.
  injection Hplan as <- <- _.
  split; [reflexivity|].
  destruct (greedy_loop_nearest_first costs Hnan _ _ _ _ _ Hg)
    as (visited & -> & Hv).
  exact Hv.
Qed.

End GreedyChoice.

(** The tour over the line of three vertices, from vertex 0: to
    vertex 1 at cost 10, back to vertex 0 at cost 10, then to vertex
    3 at cost 20. *)
Lemma tour_goes_to_the_nearest_vertex_witness :
  exists s' costs,
    traversal_path (example_run line (fun _ => quiet_turn))
                   (init example_config)
    = Go (line, [1; 0; 3]) s' /\
    build_costs (nx.all_pairs_dijkstra_path line)
                (nx.all_pairs_dijkstra_path_length line)
    = Some costs /\
    no_nan_cost costs = true /\
    nearest_first costs 0 (nx.node_connected_component line 0) [1; 0; 3].
Proof.
  eexists. eexists.
  split; [vm_compute; reflexivity|].
  split; [vm_compute; reflexivity|].
  split; [vm_compute; reflexivity|].
  refine (proj2 (tour_goes_to_the_nearest_vertex
                   (example_run line (fun _ => quiet_turn))
                   (init example_config) _ line [1; 0; 3] _ _ _ _)).
  - vm_compute. reflexivity.
  - vm_compute. reflexivity.
  - vm_compute. reflexivity.
Defined.

(* ================================================================= *)
(** ** File names, snapshots of processes and the particle line *)

Section FileNames.

Lemma length_zeros k : String.length (zeros k) = k.
Proof. induction k as [|k IH]; cbn; [reflexivity|]. rewrite IH; reflexivity. Qed.

(** X17.  The number in the name of a snapshot file reads back as
    the counter: ["{i:08d}"] gives the decimal digits of the counter
    padded with zeros to eight characters, and the digits alone from
    eight digits on. *)
Theorem snapshot_number_reads_back (n : nat) :
  read_nat (format_08d n) = Some n /\
  8 <= String.length (format_08d n) /\
  (String.length (nat_str n) <= 8 -> String.length (format_08d n) = 8) /\
  (8 <= String.length (nat_str n) -> format_08d n = nat_str n).
Proof.
  unfold format_08d. cbn zeta.
  split; [rewrite read_zeros; apply read_nat_str|].
  rewrite string_length_append, length_zeros.
  split; [lia|]. split; [lia|].
  intro H. replace (8 - String.length (nat_str n)) with 0 by lia.
  reflexivity.
Qed.

Lemma last_char_app a c s :
  last_char (a ++ String c s) = last_char (String c s).
Proof.
  induction a as [|d a IH]; [reflexivity|].
  cbn [append]. rewrite <- IH.
  destruct a; reflexivity.
Qed.

(** X18.  Whatever the output folder, the six files of the benchmark
    data have six different paths, and no snapshot file has the path
    of one of them: no recorder writes over the file of another. *)
Theorem benchmark_files_are_distinct (c : Config) :
  NoDup (benchmark_files c) /\
  forall i, ~ In (ps_file c i) (benchmark_files c).
Proof.
  unfold benchmark_files, ps_file, ps_output_folder,
    estimated_poses_file_path, estimated_correction_poses_file_path,
    ground_truth_poses_file_path, scans_file_path, amcl_particles_file_path,
    run_events_file_path.
  destruct (path_join_relative (benchmark_data_folder c)) as (pre & Hpre).
  rewrite !Hpre by discriminate.
  split.
  - repeat constructor; cbn [In]; intro H;
      repeat (destruct H as [H|H];
              [apply string_append_cancel_l in H; discriminate|]);
      exact H.
  - intro i.
    assert (Hps : path_join (pre ++ "ps_snapshots")
                            ("ps_" ++ format_08d i ++ ".pkl")
                  = (pre ++ "ps_snapshots/ps_" ++ format_08d i ++ ".pkl")%string).
    { unfold path_join.
      change ("ps_" ++ format_08d i ++ ".pkl")%string
        with (String "p" ("s_" ++ format_08d i ++ ".pkl")).
      cbv iota.
      rewrite last_char_app. cbn [last_char].
      rewrite string_append_assoc. reflexivity. }
    rewrite Hps. cbn [In]. intro H.
    repeat (destruct H as [H|H];
            [apply string_append_cancel_l in H; discriminate|]).
    exact H.
Qed.

End FileNames.

Section ProcessSnapshots.

(** [del d[k]] on a dictionary: the first entry of key [k] goes, the
    others stay in their order. *)
Lemma dict_del_Some k d d' :
  dict_del k d = Some d' ->
  In k (map fst d) /\
  List.length d = S (List.length d') /\
  (forall k' v, k' <> k -> (In (k', v) d' <-> In (k', v) d)) /\
  (forall k', In k' (map fst d') -> In k' (map fst d)) /\
  (NoDup (map fst d) -> NoDup (map fst d') /\ ~ In k (map fst d')).
Proof.
  revert d'. induction d as [|[k0 v0] d IH]; intro d'; cbn [dict_del];
    [discriminate|].
  destruct (String.eqb k k0) eqn:E.
  - apply String.eqb_eq in E as ->. intros [= <-]. cbn.
    split; [left; reflexivity|]. split; [reflexivity|].
    split.
    { intros k' v Hne. split; [auto|].
      intros [[= -> _]|H]; [congruence|exact H]. }
    split; [auto|].
    intro Hnd. inversion Hnd; auto.
  - apply String.eqb_neq in E.
    destruct (dict_del k d) as [r|] eqn:Hr; [|discriminate].
    intros [= <-].
    destruct (IH r eq_refl) as (H1 & H2 & H3 & H4 & H5). cbn.
    split; [right; exact H1|]. split; [rewrite H2; reflexivity|].
    split.
    { intros k' v Hne. rewrite (H3 k' v Hne). tauto. }
    split.
    { intros k' [->|H]; [left; reflexivity|right; apply H4, H]. }
    intro Hnd. inversion Hnd as [|? ? Hn Hnd']; subst.
    destruct (H5 Hnd') as [H6 H7].
    split.
    + constructor; [|exact H6]. intro H. apply Hn, H4, H.
    + intros [H|H]; [congruence|contradiction].
Qed.

Lemma dict_del_None k d : dict_del k d = None <-> ~ In k (map fst d).
Proof.
  induction d as [|[k0 v0] d IH]; cbn [dict_del].
  - split; [intros _ []|reflexivity].
  - destruct (String.eqb k k0) eqn:E.
    + apply String.eqb_eq in E as ->. cbn.
      split; [discriminate|]. intro H. exfalso. apply H. left. reflexivity.
    + apply String.eqb_neq in E. cbn.
      destruct (dict_del k d) as [r|].
      * split; [discriminate|]. intro H. exfalso.
        assert (Hd : ~ In k (map fst d)) by tauto.
        apply IH in Hd. discriminate.
      * split; [|reflexivity]. intros _ [H|H]; [congruence|].
        apply (proj1 IH eq_refl), H.
Qed.

(** X19.  The snapshot of a process is the dictionary [as_dict]
    gives with the entries of the keys [connections], [memory_maps]
    and [environ] deleted, every other entry kept.  A process that
    has exited, or whose dictionary lacks one of the three keys, is
    left out of the snapshot. *)
Theorem snapshot_drops_the_uninteresting_keys
        (as_dict : nat -> option ProcessDict) (pid : nat) :
  match process_snapshot as_dict pid with
  | Some d =>
      exists d0,
        as_dict pid = Some d0 /\
        incl uninteresting_keys (map fst d0) /\
        List.length d0 = List.length d + 3 /\
        (forall k v,
            ~ In k uninteresting_keys -> (In (k, v) d <-> In (k, v) d0)) /\
        (NoDup (map fst d0) ->
         NoDup (map fst d) /\
         forall k, In k uninteresting_keys -> ~ In k (map fst d))
  | None =>
      as_dict pid = None \/
      exists d0 k,
        as_dict pid = Some d0 /\
        In k uninteresting_keys /\ ~ In k (map fst d0)
  end.
Proof.
  unfold process_snapshot, uninteresting_keys.
  destruct (as_dict pid) as [d0|]; [|left; reflexivity].
  destruct (dict_del "connections" d0) as [d1|] eqn:E1.
  2:{ right. exists d0, "connections". split; [reflexivity|].
      split; [left; reflexivity|]. apply dict_del_None, E1. }
  destruct (dict_del_Some _ _ _ E1) as (A1 & A2 & A3 & A4 & A5).
  destruct (dict_del "memory_maps" d1) as [d2|] eqn:E2.
  2:{ right. exists d0, "memory_maps". split; [reflexivity|].
      split; [right; left; reflexivity|].
      apply dict_del_None in E2. intro H. apply E2.
      apply in_map_iff in H as ([k v] & Hk & Hin). cbn in Hk. subst k.
      apply in_map_iff. exists ("memory_maps", v). split; [reflexivity|].
      apply A3; [discriminate|exact Hin]. }
  destruct (dict_del_Some _ _ _ E2) as (B1 & B2 & B3 & B4 & B5).
  destruct (dict_del "environ" d2) as [d3|] eqn:E3.
  2:{ right. exists d0, "environ". split; [reflexivity|].
      split; [right; right; left; reflexivity|].
      apply dict_del_None in E3. intro H. apply E3.
      apply in_map_iff in H as ([k v] & Hk & Hin). cbn in Hk. subst k.
      apply in_map_iff. exists ("environ", v). split; [reflexivity|].
      apply B3; [discriminate|]. apply A3; [discriminate|exact Hin]. }
  destruct (dict_del_Some _ _ _ E3) as (C1 & C2 & C3 & C4 & C5).
  exists d0. split; [reflexivity|].
  split.
  { intros k [<-|[<-|[<-|[]]]]; auto. }
  split; [lia|].
  split.
  { intros k v Hk. cbn [In] in Hk.
    assert (K1 : k <> "connections") by (intros ->; tauto).
    assert (K2 : k <> "memory_maps") by (intros ->; tauto).
    assert (K3 : k <> "environ") by (intros ->; tauto).
    rewrite (C3 k v K3), (B3 k v K2), (A3 k v K1). tauto. }
  intro Hnd.
  destruct (A5 Hnd) as [Hnd1 N1].
  destruct (B5 Hnd1) as [Hnd2 N2].
  destruct (C5 Hnd2) as [Hnd3 N3].
  split; [exact Hnd3|].
  intros k [<-|[<-|[<-|[]]]]; [| |exact N3].
  - intro H. apply N1, B4, C4, H.
  - intro H. apply N2, C4, H.
Qed.

End ProcessSnapshots.

Section ParticleLine.

Context {rt : PyRuntime}.

Lemma concat_app sep (l1 l2 : list string) :
  l1 <> [] -> l2 <> [] ->
  String.concat sep (l1 ++ l2)
  = (String.concat sep l1 ++ sep ++ String.concat sep l2)%string.
Proof.
  intros H1 H2. induction l1 as [|a [|b l1] IH]; [congruence| |].
  - destruct l2 as [|c l2]; [congruence|]. reflexivity.
  - change ((a :: b :: l1) ++ l2) with (a :: (b :: l1) ++ l2).
    change ((b :: l1) ++ l2) with (b :: l1 ++ l2) at 1.
    rewrite concat_cons2.
    change (b :: l1 ++ l2) with ((b :: l1) ++ l2).
    rewrite IH by discriminate.
    rewrite concat_cons2, !string_append_assoc. reflexivity.
Qed.

(** The fields of several items, joined with a separator between two
    fields of one item only, against joined with a separator between
    any two fields. *)
Lemma joined_fields_length {A : Type} (f : A -> list string) (ps : list A) :
  (forall p, f p <> []) ->
  ps <> [] ->
  String.length (String.concat ", " (flat_map f ps))
  = String.length
      (String.concat "" (map (fun p => String.concat ", " (f p)) ps))
    + 2 * (List.length ps - 1).
Proof.
  intro Hf.
  induction ps as [|p ps IH]; [congruence|]. intros _.
  destruct ps as [|p' ps].
  - cbn [flat_map map List.length]. rewrite app_nil_r, concat_cons1. lia.
  - change (flat_map f (p :: p' :: ps))
      with (f p ++ flat_map f (p' :: ps)).
    rewrite concat_app; [|apply Hf|].
    2:{ cbn [flat_map]. specialize (Hf p'). destruct (f p'); [congruence|].
        discriminate. }
    change (map (fun p0 => String.concat ", " (f p0)) (p :: p' :: ps))
      with (String.concat ", " (f p)
            :: String.concat ", " (f p')
            :: map (fun p0 => String.concat ", " (f p0)) ps).
    rewrite concat_cons2.
    change (String.concat ", " (f p')
            :: map (fun p0 => String.concat ", " (f p0)) ps)
      with (map (fun p0 => String.concat ", " (f p0)) (p' :: ps)).
    rewrite !string_length_append, IH by discriminate.
    cbn [String.length List.length]. lia.
Qed.

(** X20.  The line the particle recorder writes for a set of [n]
    particles is shorter by [2 * (n - 1)] characters than the line
    with every field separated from the next (and longer by two for
    an empty set, which ends with a separator): it is that line for
    sets of one particle, and for those only. *)
Theorem particle_row_is_separated_for_one_particle_only (msg : PoseArray) :
  String.length (amcl_particles_line msg) + 2 * List.length (poses msg)
  = String.length (separated_particles_line msg) + 2 /\
  (amcl_particles_line msg = separated_particles_line msg <->
   List.length (poses msg) = 1).
Proof.
  assert (Hlen : String.length (amcl_particles_line msg)
                 + 2 * List.length (poses msg)
                 = String.length (separated_particles_line msg) + 2).
  { unfold amcl_particles_line, separated_particles_line. cbn zeta.
    rewrite fold_add_particle.
    destruct (poses msg) as [|p ps] eqn:Hp.
    - cbn [flat_map app map List.length].
      rewrite !concat_cons2, concat_cons1.
      rewrite !string_length_append. cbn. lia.
    - rewrite concat_app; [|discriminate|discriminate].
      rewrite !concat_cons2, concat_cons1.
      rewrite !string_length_append.
      rewrite (joined_fields_length
                 (fun p => [float_str (x (position p));
                            float_str (y (position p));
                            float_str (yaw (orientation p))])
                 (p :: ps))
        by discriminate.
      cbn [String.length List.length map]. lia. }
  split; [exact Hlen|].
  split.
  - intro E. rewrite E in Hlen. lia.
  - intro H1. unfold amcl_particles_line, separated_particles_line.
    cbn zeta. rewrite fold_add_particle.
    destruct (poses msg) as [|p [|p' ps]]; try discriminate.
    cbn [flat_map app map List.length].
    rewrite !concat_cons2, !concat_cons1.
    change (String.concat ", " []) with "".
    rewrite !string_append_assoc. reflexivity.
Qed.

End ParticleLine.

(* ================================================================= *)
(** ** The flags of the node *)

Section Flags.

Context {rt : PyRuntime}.

(** A callback resets no flag. *)
Lemma serve_flags s cb :
  (is_shutdown s = true -> is_shutdown (serve s cb) = true) /\
  (received_first_scan s = true -> received_first_scan (serve s cb) = true).
Proof.
  destruct cb; cbn [serve].
  - unfold scan_callback. destruct (negb _); split; auto.
  - unfold amcl_particles_callback. destruct (negb _); split; auto.
  - unfold estimated_pose_correction_callback.
    destruct (negb _); [split; auto|]. destruct (negb _); split; auto.
  - unfold ground_truth_pose_callback. destruct (negb _); split; auto.
  - split; auto.
  - snapshot_tick_cases; split; auto.
  - unfold write_estimated_pose_timer_callback.
    destruct (negb _); [split; auto|]. destruct lookup; split; auto.
  - split; auto.
Qed.

Lemma serve_all_flags cbs :
  forall s,
    (is_shutdown s = true -> is_shutdown (serve_all cbs s) = true) /\
    (received_first_scan s = true ->
     received_first_scan (serve_all cbs s) = true).
Proof.
  unfold serve_all.
  induction cbs as [|cb cbs IH]; intro s; cbn [fold_left]; [auto|].
  destruct (serve_flags s cb) as [H1 H2].
  destruct (IH (serve s cb)) as [H3 H4]. split; auto.
Qed.

(** A scan sets the flag of the first scan, a run timeout and a
    shutdown request shut the node down. *)
Lemma serve_all_sets_flags cbs :
  forall s,
    ((exists msg, In (OnScan msg) cbs) ->
     received_first_scan (serve_all cbs s) = true) /\
    (In OnRunTimeout cbs \/ In OnShutdownRequest cbs ->
     is_shutdown (serve_all cbs s) = true).
Proof.
  induction cbs as [|cb cbs IH]; intro s.
  - split; [intros (msg & [])|intros [[]|[]]].
  - change (serve_all (cb :: cbs) s) with (serve_all cbs (serve s cb)).
    destruct (IH (serve s cb)) as [H1 H2].
    destruct (serve_all_flags cbs (serve s cb)) as [F1 F2].
    split.
    + intros (msg & [->|Hin]); [|apply H1; exists msg; exact Hin].
      apply F2. cbn [serve]. unfold scan_callback.
      destruct (negb _); reflexivity.
    + intros [[->|Hin]|[->|Hin]]; auto; apply F1; reflexivity.
Qed.

(** X21.  The goal loop looks at the shutdown of the node at the top
    of a turn only.  When the run timeout fires, or a shutdown is
    requested, while the turn waits for the navigation server, the
    turn goes on: with the server there and a pose in the queue the
    goal is still sent; the node is shut down at the end of the turn
    and the loop is left then, by the exception of the turn or by a
    return. *)
Theorem shutdown_is_seen_at_the_top_of_the_loop
        (its : nat -> Iteration) (k fuel : nat) (s : Supervisor)
        (pose : Pose) (rest : list Pose)
        (Hrunning : is_shutdown s = false)
        (Hqueue : traversal_path_poses s = Some (pose :: rest))
        (Hserver : server_available (its k) = true)
        (Hdown : In OnRunTimeout (inbound_at_wait_for_server (its k)) \/
                 In OnShutdownRequest (inbound_at_wait_for_server (its k))) :
  is_shutdown (serve_all (inbound_at_wait_for_server (its k)) s) = true /\
  is_shutdown (snd (goal_iteration (its k) s)) = true /\
  goal_sent_count (snd (goal_iteration (its k) s)) = goal_sent_count s + 1 /\
  goals_sent (trace (snd (goal_iteration (its k) s)))
  = goals_sent (trace s) ++ [goal_to (cfg s) pose] /\
  traversal_path_poses (snd (goal_iteration (its k) s)) = Some rest /\
  send_goals (S (S fuel)) k its s
  = (match fst (goal_iteration (its k) s) with
     | Some o => o
     | None => Returned
     end, snd (goal_iteration (its k) s)).
Proof.
  pose proof (proj2 (serve_all_sets_flags
                       (inbound_at_wait_for_server (its k)) s) Hdown) as H0.
  split; [exact H0|].
  assert (Hend : is_shutdown (snd (goal_iteration (its k) s)) = true).
  { unfold goal_iteration.
    destruct (dispatch_sends (its k) s pose rest Hserver Hqueue)
      as (s1 & Hd).
    rewrite Hd.
    pose proof (dispatch_go _ _ _ _ Hd)
      as (_ & _ & _ & _ & _ & _ & _ & _ & _ & _ & _ & Hs1 & _).
    rewrite H0 in Hs1.
    assert (Hs2 : match await_result (its k) s1 with
                  | Fail _ s2 | Go _ s2 => is_shutdown s2 = true
                  end).
    { unfold await_result.
      pose proof (proj1 (serve_all_flags
                           (inbound_at_wait_for_result (its k)) s1) Hs1)
        as H2.
      destruct (interrupted (its k)); [exact H2|].
      destruct (negb _); exact H2. }
    destruct (await_result (its k) s1) as [e s2|u s2]; [exact Hs2|].
    destruct (classify _ _ s2) as [e s3|[] s3] eqn:Hk.
    - destruct (classify_fail _ _ _ _ _ Hk) as (-> & _). exact Hs2.
    - pose proof (classify_go _ _ _ _ Hk) as (_ & _ & _ & _ & _ & Hs3 & _).
      rewrite Hs2 in Hs3.
      unfold next_or_complete.
      destruct (traversal_path_poses s3) as [[|p r]|]; cbn [snd];
        [reflexivity| |exact Hs3].
      destruct (sleep_interrupted (its k)); cbn [snd];
        apply (proj1 (serve_all_flags (inbound_at_sleep (its k)) s3) Hs3). }
  split; [exact Hend|].
  destruct (goal_iteration_queue (its k) s _ Hqueue)
    as (_ & [(_ & _ & _ & Hempty & _)|
             (pose' & rest' & [= <- <-] & Ht & Hg & Hn & _ & _)]);
    [specialize (Hempty Hserver); discriminate|].
  repeat apply conj; try assumption.
  cbn [send_goals]. rewrite Hrunning.
  destruct (goal_iteration (its k) s) as [[o|] s']; cbn [fst snd] in *;
    [reflexivity|].
  rewrite Hend. reflexivity.
Qed.

Lemma wait_for_first_scan_false polls :
  forall s s',
    wait_for_first_scan polls s = (false, s') ->
    s' = serve_all (concat polls) s /\
    received_first_scan s' = false /\ is_shutdown s' = false.
Proof.
  induction polls as [|cbs polls IH]; intros s s'; cbn [wait_for_first_scan].
  - destruct (received_first_scan s) eqn:H1, (is_shutdown s) eqn:H2;
      cbn [negb andb]; try discriminate.
    intros [= <-]. auto.
  - destruct (received_first_scan s) eqn:H1, (is_shutdown s) eqn:H2;
      cbn [negb andb]; try discriminate.
    intro H. destruct (IH _ _ H) as (-> & H3 & H4).
    split; [|auto]. cbn [concat]. unfold serve_all.
    rewrite fold_left_app. reflexivity.
Qed.

(** X22.  [start_run] does not plan before a scan has come or the
    node is shut down.  From a node that has seen no scan and is not
    shut down, a scan that comes during the first sleep of the wait
    ends the wait at the end of that sleep, and the planner runs
    then.  When neither a scan nor a shutdown comes, only callbacks
    have run when the wait is interrupted (or goes on for ever): the
    flag of the first scan is down and the node is not shut down. *)
Theorem planning_waits_for_the_first_scan
        (env : Environment) (s : Supervisor)
        (Hnew : received_first_scan s = false)
        (Hup : is_shutdown s = false) :
  (forall cbs polls msg,
      startup_polls env = cbs :: polls ->
      In (OnScan msg) cbs ->
      start_run env s = plan_and_run env (serve_all cbs s)) /\
  (fst (wait_for_first_scan (startup_polls env) s) = false ->
   start_run env s
   = (if startup_interrupted env then Raised KeyboardInterrupt else Hangs,
      serve_all (concat (startup_polls env)) s) /\
   received_first_scan (serve_all (concat (startup_polls env)) s) = false /\
   is_shutdown (serve_all (concat (startup_polls env)) s) = false).
Proof.
  split.
  - intros cbs polls msg Hp Hin. unfold start_run. rewrite Hp.
    cbn [wait_for_first_scan]. rewrite Hnew, Hup. cbn [negb andb].
    assert (Hscan : received_first_scan (serve_all cbs s) = true).
    { apply serve_all_sets_flags. exists msg. exact Hin. }
    destruct polls; cbn [wait_for_first_scan]; rewrite Hscan; reflexivity.
  - intro Hw. unfold start_run.
    destruct (wait_for_first_scan (startup_polls env) s) as [b s'] eqn:E.
    cbn [fst] in Hw. subst b.
    destruct (wait_for_first_scan_false _ _ _ E) as (-> & H1 & H2).
    split; [|split; assumption].
    destruct (startup_interrupted env); reflexivity.
Qed.

End Flags.

(** The run timeout fires while the first turn of the example tour
    waits for the navigation server: the goal is sent all the same
    and the loop is left at the end of the turn. *)
Lemma shutdown_is_seen_at_the_top_of_the_loop_witness :
  @send_goals example_runtime 4 0
              (fun _ => {| inbound_at_wait_for_server := [OnRunTimeout];
                           server_available := true;
                           inbound_at_wait_for_result := [];
                           interrupted := false;
                           result_in_time := true;
                           navigation_state := ABORTED;
                           inbound_at_sleep := [];
                           sleep_interrupted := false |})
              example_ready
  = (Returned,
     snd (@goal_iteration
            example_runtime
            {| inbound_at_wait_for_server := [OnRunTimeout];
               server_available := true;
               inbound_at_wait_for_result := [];
               interrupted := false;
               result_in_time := true;
               navigation_state := ABORTED;
               inbound_at_sleep := [];
               sleep_interrupted := false |}
            example_ready)) /\
  events
    (trace
       (snd (@goal_iteration
               example_runtime
               {| inbound_at_wait_for_server := [OnRunTimeout];
                  server_available := true;
                  inbound_at_wait_for_result := [];
                  interrupted := false;
                  result_in_time := true;
                  navigation_state := ABORTED;
                  inbound_at_sleep := [];
                  sleep_interrupted := false |}
               example_ready)))
  = ["run_timeout"; "supervisor_finished"; "target_pose_set";
     "target_pose_not_reached"].
Proof.
  split; [|vm_compute; reflexivity].
  exact (proj2
           (proj2
              (proj2
                 (proj2
                    (proj2
                       (@shutdown_is_seen_at_the_top_of_the_loop
                          example_runtime
                          (fun _ =>
                             {| inbound_at_wait_for_server := [OnRunTimeout];
                                server_available := true;
                                inbound_at_wait_for_result := [];
                                interrupted := false;
                                result_in_time := true;
                                navigation_state := ABORTED;
                                inbound_at_sleep := [];
                                sleep_interrupted := false |})
                          0 2 example_ready (pose_at 10 0)
                          [pose_at 0 0; pose_at 20 0]
                          eq_refl eq_refl eq_refl
                          (or_introl (or_introl eq_refl)))))))).
Defined.

(** The first scan of the example run comes during the first sleep
    of the wait. *)
Lemma planning_waits_for_the_first_scan_witness :
  @start_run example_runtime (example_run line (fun _ => quiet_turn))
             (init example_config)
  = @plan_and_run example_runtime (example_run line (fun _ => quiet_turn))
                  (@serve_all example_runtime [OnScan example_scan]
                              (init example_config)).
Proof.
  exact (proj1
           (@planning_waits_for_the_first_scan
              example_runtime (example_run line (fun _ => quiet_turn))
              (init example_config) eq_refl eq_refl)
           [OnScan example_scan] [] example_scan eq_refl
           (or_introl eq_refl)).
Defined.


(* ================================================================= *)
(** ** The length of the goal loop and the records of a run *)

Section LoopLength.

Context {rt : PyRuntime}.



End LoopLength.


Section Records.

Context {rt : PyRuntime}.

Lemma scans_and_particles_files c :
  String.eqb (amcl_particles_file_path c) (scans_file_path c) = false /\
  String.eqb (scans_file_path c) (amcl_particles_file_path c) = false.
Proof.
  unfold scans_file_path, amcl_particles_file_path.
  destruct (path_join_relative (benchmark_data_folder c)) as (pre & Hpre).
  rewrite !Hpre by discriminate.
  split; apply String.eqb_neq; intro H;
    apply string_append_cancel_l in H; discriminate.
Qed.

(** What one callback records once the run has started. *)
Lemma serve_records s cb :
  run_started s = true ->
  run_started (serve s cb) = true /\
  cfg (serve s cb) = cfg s /\
  List.length (lines_appended (scans_file_path (cfg s))
                              (trace (serve s cb)))
  = List.length (lines_appended (scans_file_path (cfg s)) (trace s))
    + (if is_scan cb then 1 else 0) /\
  List.length (lines_appended (amcl_particles_file_path (cfg s))
                              (trace (serve s cb)))
  = List.length (lines_appended (amcl_particles_file_path (cfg s))
                                (trace s))
    + (if is_particles cb then 1 else 0) /\
  List.length (rows (estimated_poses_df (serve s cb)))
  = List.length (rows (estimated_poses_df s))
    + (if is_transform_found cb then 1 else 0) /\
  List.length (rows (estimated_correction_poses_df (serve s cb)))
  = List.length (rows (estimated_correction_poses_df s))
    + (if is_correction cb then 1 else 0) /\
  List.length (rows (ground_truth_poses_df (serve s cb)))
  = List.length (rows (ground_truth_poses_df s))
    + (if is_ground_truth cb then 1 else 0).
Proof.
  intro Hrun.
  destruct (scans_and_particles_files (cfg s)) as [E1 E2].
  destruct cb; cbn [serve is_scan is_particles is_transform_found
                    is_correction is_ground_truth].
  - unfold scan_callback.
    change (run_started (set_received_first_scan true s))
      with (run_started s).
    rewrite Hrun. cbn [negb]. rewrite trace_act, !lines_appended_act.
    cbn -[lines_appended scans_file_path amcl_particles_file_path].
    rewrite String.eqb_refl, E2, !length_app. cbn [List.length].
    repeat apply conj; auto; lia.
  - unfold amcl_particles_callback. rewrite Hrun. cbn [negb].
    rewrite trace_act, !lines_appended_act.
    rewrite String.eqb_refl, E1, !length_app. cbn [List.length].
    repeat apply conj; auto; lia.
  - unfold estimated_pose_correction_callback. rewrite Hrun. cbn [negb].
    destruct (List.length (covariance msg) =? 36); cbn [negb].
    + cbn. rewrite length_app. cbn. repeat apply conj; auto; lia.
    + repeat apply conj; auto; lia.
  - unfold ground_truth_pose_callback.
    change (run_started (set_latest_ground_truth_pose_msg (Some msg) s))
      with (run_started s).
    rewrite Hrun. cbn [negb]. cbn. rewrite length_app. cbn.
    repeat apply conj; auto; lia.
  - unfold run_timeout_callback, signal_shutdown.
    cbn -[lines_appended scans_file_path amcl_particles_file_path].
    rewrite !lines_appended_act, !app_nil_r.
    repeat apply conj; auto; lia.
  - snapshot_tick_cases;
      cbn -[lines_appended scans_file_path amcl_particles_file_path];
      rewrite ?lines_appended_act, ?app_nil_r;
      repeat apply conj; auto; lia.
  - unfold write_estimated_pose_timer_callback. rewrite Hrun. cbn [negb].
    destruct lookup.
    + cbn. rewrite length_app. cbn. repeat apply conj; auto; lia.
    + repeat apply conj; auto; lia.
  - repeat apply conj; auto; lia.
Qed.

(** X24.  Once the run has started the recorders lose nothing:
    whatever callbacks are served, [scans.csv] gets one line per
    scan, [amcl_particles.csv] one line per set of particles, and
    the three tables one row each per ground truth pose, per
    correction of the estimated pose (with its 36 covariances) and
    per tick of the timer for which the transform is found; a tick
    for which the lookup raises adds no row. *)
Theorem one_record_per_message
        (cbs : list Callback) (s : Supervisor)
        (Hrun : run_started s = true) :
  run_started (serve_all cbs s) = true /\
  List.length (lines_appended (scans_file_path (cfg s))
                              (trace (serve_all cbs s)))
  = List.length (lines_appended (scans_file_path (cfg s)) (trace s))
    + count_callbacks is_scan cbs /\
  List.length (lines_appended (amcl_particles_file_path (cfg s))
                              (trace (serve_all cbs s)))
  = List.length (lines_appended (amcl_particles_file_path (cfg s))
                                (trace s))
    + count_callbacks is_particles cbs /\
  List.length (rows (estimated_poses_df (serve_all cbs s)))
  = List.length (rows (estimated_poses_df s))
    + count_callbacks is_transform_found cbs /\
  List.length (rows (estimated_correction_poses_df (serve_all cbs s)))
  = List.length (rows (estimated_correction_poses_df s))
    + count_callbacks is_correction cbs /\
  List.length (rows (ground_truth_poses_df (serve_all cbs s)))
  = List.length (rows (ground_truth_poses_df s))
    + count_callbacks is_ground_truth cbs.
Proof.
  revert s Hrun. unfold serve_all, count_callbacks.
  induction cbs as [|cb cbs IH]; intros s Hrun; cbn [fold_left filter].
  - cbn [List.length]. repeat apply conj; auto.
  - destruct (serve_records s cb Hrun)
      as (R0 & Rc & R1 & R2 & R3 & R4 & R5).
    destruct (IH (serve s cb) R0) as (I0 & I1 & I2 & I3 & I4 & I5).
    rewrite Rc in I1, I2.
    split; [exact I0|].
    rewrite I1, I2, I3, I4, I5, R1, R2, R3, R4, R5.
    destruct (is_scan cb), (is_particles cb), (is_transform_found cb),
             (is_correction cb), (is_ground_truth cb);
      cbn [List.length]; repeat apply conj; lia.
Qed.

End Records.

(** A scan, a ground truth pose and a failed lookup of the transform
    during the example run: one line, one row, and no row. *)
Lemma one_record_per_message_witness :
  List.length
    (lines_appended
       (scans_file_path example_config)
       (trace (@serve_all example_runtime
                          [OnScan example_scan;
                           OnGroundTruthPose (odometry_at 10 0);
                           OnWriteEstimatedPoseTimer None]
                          example_ready)))
  = 1 /\
  List.length
    (rows (ground_truth_poses_df
             (@serve_all example_runtime
                         [OnScan example_scan;
                          OnGroundTruthPose (odometry_at 10 0);
                          OnWriteEstimatedPoseTimer None]
                         example_ready)))
  = 1 /\
  List.length
    (rows (estimated_poses_df
             (@serve_all example_runtime
                         [OnScan example_scan;
                          OnGroundTruthPose (odometry_at 10 0);
                          OnWriteEstimatedPoseTimer None]
                         example_ready)))
  = 0.
Proof.
  destruct (@one_record_per_message
              example_runtime
              [OnScan example_scan; OnGroundTruthPose (odometry_at 10 0);
               OnWriteEstimatedPoseTimer None]
              example_ready eq_refl)
    as (_ & H1 & _ & H3 & _ & H5).
  repeat apply conj.
  - exact H1.
  - exact H5.
  - exact H3.
Defined.

(* ================================================================= *)
(** ** The model at work *)

(** The tours over the line of three vertices, from each start. *)
Example tours_over_the_line :
  map (fun r =>
         match traversal_path
                 {| construction := None;
                    parameters := example_config;
                    startup_polls := [];
                    startup_interrupted := false;
                    voronoi_graph := line;
                    random_index := r;
                    random_orientation := fun _ => unit_quaternion;
                    iterations := fun _ => quiet_turn;
                    spin_polls := [] |}
                 (init example_config) with
         | Go (_, tour) _ => tour
         | Fail _ _ => []
         end) [0; 1; 2]
  = [[1; 0; 3]; [0; 1; 3]; [1; 0; 3]].
Proof. vm_compute. reflexivity. Qed.

(** The events of a run over the line of three vertices in which the
    robot is seen at (10, 0) at the end of every goal: the first goal
    is reached, the other two are not. *)
Example events_of_a_run :
  match @main example_runtime
          (example_run line (fun _ => turn_seen_at 10 0)) with
  | (o, Some s) =>
      (o, events (trace s),
       (goal_sent_count s, goal_succeeded_count s, goal_failed_count s))
  | (o, None) => (o, [], (0, 0, 0))
  end
  = (Returned,
     ["run_start";
      "target_pose_set"; "target_pose_reached";
      "target_pose_set"; "target_pose_not_reached";
      "target_pose_set"; "target_pose_not_reached";
      "run_completed"],
     (3, 1, 2)).
Proof. vm_compute. reflexivity. Qed.

(** The same run with the robot seen out of range at the end of every
    goal, the coordinates being numpy numbers: the squares are
    infinite, no goal is reached and the run goes on to its end. *)
Example events_of_a_run_seen_far_away :
  match @main example_runtime
          (example_run line (fun _ => turn_seen_at far_away 0)) with
  | (o, Some s) =>
      (o, events (trace s),
       (goal_sent_count s, goal_succeeded_count s, goal_failed_count s))
  | (o, None) => (o, [], (0, 0, 0))
  end
  = (Returned,
     ["run_start";
      "target_pose_set"; "target_pose_not_reached";
      "target_pose_set"; "target_pose_not_reached";
      "target_pose_set"; "target_pose_not_reached";
      "run_completed"],
     (3, 0, 3)).
Proof. vm_compute. reflexivity. Qed.

(** Between the points with whole coordinates from 0 to 5, and for the
    tolerances of 1 to 20 halves, the comparison of the distance check
    is the exact one: the distance is below [k] halves when four times
    the sum of the squared differences is below the square of [k]. *)
Example distance_check_on_a_grid :
  forallb
    (fun a =>
       forallb
         (fun b =>
            forallb
              (fun c =>
                 forallb
                   (fun d =>
                      forallb
                        (fun k =>
                           Bool.eqb
                             (PrimFloat.ltb
                                (euclidean_distance (grid_point a b)
                                                    (grid_point c d))
                                (PrimFloat.mul (float_of_nat k) 0.5))
                             (4 * (square_of_difference a c
                                   + square_of_difference b d)
                              <? k * k))
                        (seq 1 20))
                   (seq 0 6))
              (seq 0 6))
         (seq 0 6))
    (seq 0 6)
  = true.
Proof. vm_compute. reflexivity. Qed.

(** Five ticks of the snapshot timer on a new node: the tracked
    processes are gone at the second, the dump raises [PicklingError]
    at the third, whose number the fourth uses again, and [TypeError]
    at the fourth, after which the counter goes on. *)
Example five_snapshots :
  pickle_files
    (trace (@serve_all example_runtime
              [tick_with (Picklable "/usr/bin/python");
               tick_all_gone;
               tick_with (Unpicklable (PicklingError "Can't pickle"));
               tick_with (Unpicklable (TypeError "can't pickle"));
               tick_all_gone]
              (init example_config)))
  = [("/output/benchmark_data/ps_snapshots/ps_00000000.pkl",
      Some [[("exe", Picklable "/usr/bin/python")];
            [("exe", Picklable "/usr/bin/python")]]);
     ("/output/benchmark_data/ps_snapshots/ps_00000001.pkl", Some []);
     ("/output/benchmark_data/ps_snapshots/ps_00000002.pkl", None);
     ("/output/benchmark_data/ps_snapshots/ps_00000002.pkl", None);
     ("/output/benchmark_data/ps_snapshots/ps_00000003.pkl", Some [])].
Proof. vm_compute. reflexivity. Qed.

(** The particle line of two particles with the stand-in printer of
    the example runtime: eight fields are printed, and the sixth and
    the seventh are not separated. *)
Example two_particles_line :
  @amcl_particles_line example_runtime two_particles
  = ("?, map, 2, ?, ?, ??, ?, ?" ++ newline)%string.
Proof. vm_compute. reflexivity. Qed.
